(** * The LevelDB world provider and the entity it persists

    A shallow embedding of [packages/core/src/world/provider/leveldb.ts]
    (class [LevelDBProvider]) and of the parts of the [Entity] class that
    the provider drives ([load], the constructor, [spawn],
    [createUniqueId]).

    Conventions.
    - A JavaScript [number] that the code uses as an integer and a
      [bigint] are both [Z]; the 32-bit and 64-bit wrap-arounds of the
      stream and of the [<<] and [>>] operators are written out.
    - A byte is a [Z] in [0, 256); a buffer of bytes is a [list Z].
    - A [throw] is the [Throw] result of the small error monad below;
      [try { .. } catch { .. }] is a match on that result.
    - Objects that the code mutates are passed and returned explicitly. *)

From Stdlib Require Import ZArith List Bool Ascii Lia.
From Stdlib Require String.
From Stdlib Require Import DecimalString DecimalZ.
From stdpp Require Import base option list gmap strings.

Local Open Scope Z_scope.

(** ** Exceptions *)

(** The outcome of a call that may throw: the returned value, or the
    message of the error that was thrown. *)
Inductive result (A : Type) : Type :=
| Return (a : A)
| Throw (message : string).
Arguments Return {A} a.
Arguments Throw {A} message.

#[global] Instance result_ret : MRet result := fun A a => Return a.

#[global] Instance result_bind : MBind result := fun A B k r =>
  match r with
  | Return a => k a
  | Throw m => Throw m
  end.

Definition returns {A : Type} (r : result A) : bool :=
  match r with Return _ => true | Throw _ => false end.

Definition throws {A : Type} (r : result A) : bool := negb (returns r).

(** A method that reads and changes a state [S] and may throw.  The state
    is given back in either case: what was changed before a [throw] stays
    changed. *)
Definition M (S A : Type) : Type := S -> result A * S.

#[global] Instance M_ret {S : Type} : MRet (M S) := fun A a s => (Return a, s).

#[global] Instance M_bind {S : Type} : MBind (M S) := fun A B k m s =>
  match m s with
  | (Return a, s') => k a s'
  | (Throw e, s') => (Throw e, s')
  end.

Definition throw {S A : Type} (message : string) : M S A :=
  fun s => (Throw message, s).

Definition gets {S A : Type} (f : S -> A) : M S A := fun s => (Return (f s), s).

Definition modify {S : Type} (f : S -> S) : M S unit := fun s => (Return (), f s).

(** [try { body } catch { handler }]. *)
Definition try_catch {S A : Type} (body : M S A) (handler : string -> M S A)
  : M S A :=
  fun s =>
    match body s with
    | (Return a, s') => (Return a, s')
    | (Throw e, s') => handler e s'
    end.

(** [for (const a of l) body(a)]. *)
Fixpoint for_each {S A : Type} (body : A -> M S unit) (l : list A) : M S unit :=
  match l with
  | [] => mret ()
  | a :: l' => body a ≫= fun _ => for_each body l'
  end.

(** ** BinaryStream *)

Module BinaryStream.

Inductive Endianness := Big | Little.

(** Modelled from the spec: the byte stream of the package
    [@serenityjs/binarystream], whose source is not part of the
    repository.  The buffer that has been written or is being read, and
    the read cursor. *)
Record t := mk { binary : list Z; offset : nat }.

(** [new BinaryStream()] and [new BinaryStream(buffer)]. *)
Definition empty : t := mk [] 0.
Definition from (buffer : list Z) : t := mk buffer 0.

Definition getBuffer (s : t) : list Z := binary s.

(** Byte [i] (counted from the least significant one) of the two's
    complement representation of [v]. *)
Definition byte_at (v : Z) (i : nat) : Z :=
  Z.land (Z.shiftr v (8 * Z.of_nat i)) 255.

(** The [w] bytes of [v], least significant first. *)
Definition bytes_le (w : nat) (v : Z) : list Z := map (byte_at v) (seq 0 w).

Definition bytes_of (e : Endianness) (w : nat) (v : Z) : list Z :=
  match e with
  | Little => bytes_le w v
  | Big => rev (bytes_le w v)
  end.

Definition write (bs : list Z) (s : t) : t := mk (binary s ++ bs) (offset s).

Definition writeByte (v : Z) (s : t) : t := write [byte_at v 0] s.

(** [writeInt32(value, endian)]; the endianness defaults to big. *)
Definition writeInt32 (v : Z) (e : Endianness) (s : t) : t :=
  write (bytes_of e 4 v) s.

Definition writeInt64 (v : Z) (e : Endianness) (s : t) : t :=
  write (bytes_of e 8 v) s.

Definition writeBuffer (bs : list Z) (s : t) : t := write bs s.

(** The unsigned value of bytes given least significant first. *)
Fixpoint unsigned_le (bs : list Z) : Z :=
  match bs with
  | [] => 0
  | b :: bs' => Z.lor b (Z.shiftl (unsigned_le bs') 8)
  end.

(** Reinterprets an unsigned [w]-bit value as a signed one. *)
Definition signed (w : Z) (u : Z) : Z :=
  if Z.testbit u (w - 1) then u - Z.shiftl 1 w else u.

(** [read(n)]: the next [n] bytes; reading past the end of the buffer
    throws. *)
Definition read (n : nat) (s : t) : result (list Z * t) :=
  let rest := drop (offset s) (binary s) in
  if (n <=? length rest)%nat
  then Return (take n rest, mk (binary s) (offset s + n))
  else Throw "Offset is out of bounds".

Definition readInt64 (e : Endianness) (s : t) : result (Z * t) :=
  '(bs, s') ← read 8 s;
  Return (signed 64 (unsigned_le (match e with Little => bs | Big => rev bs end)), s').

Definition cursorAtEnd (s : t) : bool := (length (binary s) <=? offset s)%nat.

End BinaryStream.

Import BinaryStream(Endianness, Big, Little).

(** ** KeyEncoder: the static key builders of [LevelDBProvider] *)

Definition ascii_bytes (s : string) : list Z :=
  map (fun c => Z.of_N (N_of_ascii c)) (String.list_ascii_of_string s).

Definition buildSubChunkKey (cx cy cz index : Z) : list Z :=
  let stream := BinaryStream.empty in
  let stream := BinaryStream.writeInt32 cx Little stream in
  let stream := BinaryStream.writeInt32 cz Little stream in
  let stream :=
    if decide (index <> 0) then BinaryStream.writeInt32 index Little stream
    else stream in
  let stream := BinaryStream.writeByte 0x2f stream in
  let stream := BinaryStream.writeByte cy stream in
  BinaryStream.getBuffer stream.

Definition buildChunkVersionKey (cx cz index : Z) : list Z :=
  let stream := BinaryStream.empty in
  let stream := BinaryStream.writeInt32 cx Little stream in
  let stream := BinaryStream.writeInt32 cz Little stream in
  let stream :=
    if decide (index <> 0) then BinaryStream.writeInt32 index Little stream
    else stream in
  let stream := BinaryStream.writeByte 0x2c stream in
  BinaryStream.getBuffer stream.

(** [buildActorListKey(dimension)], on the dimension's [indexOf()]. *)
Definition buildActorListKey (index : Z) : list Z :=
  let stream := BinaryStream.empty in
  let stream := BinaryStream.writeInt32 0x64696770 Big stream in
  let stream :=
    if decide (index <> 0) then BinaryStream.writeInt32 index Little stream
    else stream in
  BinaryStream.getBuffer stream.

Definition buildActorDataKey (uniqueId : Z) : list Z :=
  let stream := BinaryStream.empty in
  let stream := BinaryStream.writeBuffer (ascii_bytes "actorprefix") stream in
  let stream := BinaryStream.writeInt64 uniqueId Little stream in
  BinaryStream.getBuffer stream.

(** The player key of [readPlayer] and [writePlayer]. *)
Definition buildPlayerKey (uuid dimension_identifier : string) : list Z :=
  ascii_bytes ("player_server_" +:+ uuid +:+ "_" +:+ dimension_identifier).

(** *** The layouts as section 4.1 of the specification words them *)

(** A little-endian int32: the four bytes of the value modulo 2^32, lowest
    first. *)
Definition int32_le (v : Z) : list Z :=
  let u := v mod 2 ^ 32 in
  [u mod 256; (u / 256) mod 256; (u / 65536) mod 256; (u / 16777216) mod 256].

(** A signed byte, in two's complement. *)
Definition signed_byte (v : Z) : Z := v mod 256.

Definition dim_index_field (dim_index : Z) : list Z :=
  if decide (dim_index = 0) then [] else int32_le dim_index.

Definition subchunk_key_layout (cx cz cy dim_index : Z) : list Z :=
  int32_le cx ++ int32_le cz ++ dim_index_field dim_index
    ++ [0x2F; signed_byte cy].

Definition chunk_version_key_layout (cx cz dim_index : Z) : list Z :=
  int32_le cx ++ int32_le cz ++ dim_index_field dim_index ++ [0x2C].

(** ** Unique ids ([Entity.createUniqueId]) *)

(** The conversion of a number to a signed 32-bit integer that the
    operators [<<], [>>] and [&] apply to their operands. *)
Definition ToInt32 (v : Z) : Z := (v + 2 ^ 31) mod 2 ^ 32 - 2 ^ 31.

(** [a << n], [a >> n] and [a & b] on numbers. *)
Definition number_shl (a n : Z) : Z := ToInt32 (Z.shiftl (ToInt32 a) n).
Definition number_shr (a n : Z) : Z := Z.shiftr (ToInt32 a) n.
Definition number_and (a b : Z) : Z := Z.land (ToInt32 a) (ToInt32 b).

(** [Math.abs(Date.now() >> 4) & 0x1_ff], on the reading [now] of the
    clock. *)
Definition jitter (now : Z) : Z := number_and (Z.abs (number_shr now 4)) 0x1ff.

(** [Entity.createUniqueId(network, runtimeId)]; [now] is what [Date.now()]
    returns during the call.  [|] and [<<] on bigints have no width. *)
Definition createUniqueId (now network runtimeId : Z) : Z :=
  let unique := jitter now in
  Z.lor (Z.lor (number_shl network 19) (Z.shiftl unique 10)) runtimeId.

(** ** Strings *)

(** [s.endsWith(suffix)]. *)
Definition endsWith (s suffix : string) : bool :=
  (String.length suffix <=? String.length s)%nat
  && String.eqb
       (String.substring (String.length s - String.length suffix)
          (String.length suffix) s)
       suffix.

(** [s.slice(0, -n)]. *)
Definition slice_0_neg (n : nat) (s : string) : string :=
  String.substring 0 (String.length s - n) s.

(** A string is held as the bytes of its UTF-8 text.  The white space that
    [trim] and [BigInt] drop is the WhiteSpace and LineTerminator of
    ECMAScript: of one byte, U+0009 to U+000D and U+0020; of two bytes,
    U+00A0; of three bytes, U+1680, U+2000 to U+200A, U+2028, U+2029,
    U+202F, U+205F, U+3000 and U+FEFF. *)
Definition is_white_space (c : ascii) : bool :=
  let n := N_of_ascii c in
  ((9 <=? n) && (n <=? 13))%N || (n =? 32)%N.

Definition is_white_space_2 (c1 c2 : ascii) : bool :=
  ((N_of_ascii c1 =? 194) && (N_of_ascii c2 =? 160))%N.

Definition is_white_space_3 (c1 c2 c3 : ascii) : bool :=
  let n1 := N_of_ascii c1 in
  let n2 := N_of_ascii c2 in
  let n3 := N_of_ascii c3 in
  ((n1 =? 225) && (n2 =? 154) && (n3 =? 128)
   || (n1 =? 226) && (n2 =? 128)
      && ((128 <=? n3) && (n3 <=? 138) || (n3 =? 168) || (n3 =? 169)
          || (n3 =? 175))
   || (n1 =? 226) && (n2 =? 129) && (n3 =? 159)
   || (n1 =? 227) && (n2 =? 128) && (n3 =? 128)
   || (n1 =? 239) && (n2 =? 187) && (n3 =? 191))%N.

Fixpoint trim_start (s : string) : string :=
  match s with
  | EmptyString => EmptyString
  | String c1 s1 =>
    if is_white_space c1 then trim_start s1
    else
      match s1 with
      | String c2 s2 =>
        if is_white_space_2 c1 c2 then trim_start s2
        else
          match s2 with
          | String c3 s3 =>
            if is_white_space_3 c1 c2 c3 then trim_start s3 else s
          | EmptyString => s
          end
      | EmptyString => s
      end
  end.

(** The white space at the end goes as far back as what is left is white
    space and nothing else. *)
Fixpoint trim_end (s : string) : string :=
  match s with
  | EmptyString => EmptyString
  | String c s' =>
    match trim_start s with
    | EmptyString => EmptyString
    | _ => String c (trim_end s')
    end
  end.

Definition trim (s : string) : string := trim_end (trim_start s).

(** A decimal digit, and a string of decimal digits. *)
Definition is_digit (c : ascii) : bool :=
  ((48 <=? N_of_ascii c) && (N_of_ascii c <=? 57))%N.

Fixpoint all_digits (s : string) : bool :=
  match s with
  | EmptyString => true
  | String c s' => is_digit c && all_digits s'
  end.

(** ** The [BigInt] primitive *)

(** [value.toString()] of a bigint: its decimal digits, with a minus sign
    when it is negative. *)
Definition BigInt_toString (z : Z) : string :=
  NilZero.string_of_int (Z.to_int z).

(** The value of a digit below [radix], letters in either case. *)
Definition digit_value (radix : Z) (c : ascii) : option Z :=
  let n := Z.of_N (N_of_ascii c) in
  let d :=
    if (48 <=? n) && (n <=? 57) then Some (n - 48)
    else if (97 <=? n) && (n <=? 102) then Some (n - 87)
    else if (65 <=? n) && (n <=? 70) then Some (n - 55)
    else None in
  match d with
  | Some v => if v <? radix then Some v else None
  | None => None
  end.

Fixpoint digits_value (radix acc : Z) (s : string) : option Z :=
  match s with
  | EmptyString => Some acc
  | String c s' =>
    match digit_value radix c with
    | Some d => digits_value radix (acc * radix + d) s'
    | None => None
    end
  end.

(** One or more digits of [radix]. *)
Definition radix_literal (radix : Z) (s : string) : option Z :=
  match s with
  | EmptyString => None
  | _ => digits_value radix 0 s
  end.

(** One or more decimal digits. *)
Definition decimal_literal (s : string) : option Z :=
  Z.of_uint <$> NilZero.uint_of_string s.

(** [BigInt(text)] on a string (the StringToBigInt of ECMAScript): white
    space around the literal is dropped; nothing is left: zero; then a
    hexadecimal, octal or binary literal with its prefix and no sign, or
    decimal digits with an optional sign.  Anything else is a
    SyntaxError. *)
Definition StrIntegerLiteral (literal : string) : option Z :=
  match literal with
  | EmptyString => Some 0
  | String "0" (String ("x" | "X") ds) => radix_literal 16 ds
  | String "0" (String ("o" | "O") ds) => radix_literal 8 ds
  | String "0" (String ("b" | "B") ds) => radix_literal 2 ds
  | String "-" ds => Z.opp <$> decimal_literal ds
  | String "+" ds => decimal_literal ds
  | _ => decimal_literal literal
  end%char.

Definition BigInt (text : string) : result Z :=
  match StrIntegerLiteral (trim text) with
  | Some z => Return z
  | None => Throw ("SyntaxError: Cannot convert " +:+ text +:+ " to a BigInt")
  end.

(** ** JSON *)

Module JSON.

(** A [number]: a finite double, given as the dyadic [m * 2^e] it equals,
    or one of the three values that are not finite. *)
Inductive number :=
| Finite (m e : Z)
| Infinity
| NegInfinity
| NaN.

(** The values that an entry is made of.  A [bigint] is not a JSON value
    and a number that is not finite has no JSON text. *)
#[local] Unset Elimination Schemes.
Inductive value :=
| Null
| Boolean (b : bool)
| Number (n : number)
| Bigint (z : Z)
| Str (s : string)
| Array (elements : list value)
| Object (properties : list (string * value)).
#[local] Set Elimination Schemes.

(** The replacer of [writeEntity] and [writePlayer]. *)
Definition replacer (v : value) : value :=
  match v with
  | Bigint z => Str (BigInt_toString z +:+ "BigInt_t")
  | Number Infinity => Str "Infinity_t"
  | Number NegInfinity => Str "-Infinity_t"
  | Number NaN => Str "NaN_t"
  | _ => v
  end.

(** What [JSON.stringify] writes for a value that is not an array or an
    object, after the replacer: [null] for a number that is not finite,
    and a TypeError for a bigint. *)
Definition serialize_primitive (v : value) : result value :=
  match v with
  | Number (Finite m e) => Return v
  | Number _ => Return Null
  | Bigint _ => Throw "TypeError: Do not know how to serialize a BigInt"
  | _ => Return v
  end.

(** [JSON.stringify(v, replacer)].  The result is the document that the
    text denotes: the engine's printer and parser of JSON text are inverse
    to each other on documents, and the provider passes the text from the
    one to the other untouched.  The replacer is called on every value,
    parents first; it returns arrays and objects as they are, so the walk
    goes on into the elements of the value itself. *)
Fixpoint stringify (v : value) : result value :=
  match v with
  | Array xs => xs' ← mapM stringify xs; Return (Array xs')
  | Object ps =>
    ps' ← mapM (fun p => x ← stringify (snd p); Return (fst p, x)) ps;
    Return (Object ps')
  | _ => serialize_primitive (replacer v)
  end.

(** The reviver of [readEntity] and [readPlayer]. *)
Definition reviver (v : value) : result value :=
  match v with
  | Str s =>
    if endsWith s "BigInt_t" then z ← BigInt (slice_0_neg 8 s); Return (Bigint z)
    else if String.eqb s "Infinity_t" then Return (Number Infinity)
    else if String.eqb s "-Infinity_t" then Return (Number NegInfinity)
    else if String.eqb s "NaN_t" then Return (Number NaN)
    else Return v
  | _ => Return v
  end.

(** [JSON.parse(text, reviver)] on the document of the text: the reviver
    is called on every value, elements before the array or object that
    holds them. *)
Fixpoint parse (doc : value) : result value :=
  match doc with
  | Array xs => xs' ← mapM parse xs; reviver (Array xs')
  | Object ps =>
    ps' ← mapM (fun p => x ← parse (snd p); Return (fst p, x)) ps;
    reviver (Object ps')
  | _ => reviver doc
  end.

(** A string that the reviver does not leave as it is: one that ends in
    the bigint tag, or one of the three sentinels. *)
Definition is_tagged (s : string) : bool :=
  endsWith s "BigInt_t" || String.eqb s "Infinity_t"
  || String.eqb s "-Infinity_t" || String.eqb s "NaN_t".

(** No string inside the value is tagged (property names are not values). *)
Fixpoint plain_strings (v : value) : bool :=
  match v with
  | Str s => negb (is_tagged s)
  | Array xs => forallb plain_strings xs
  | Object ps => forallb (fun p => plain_strings (snd p)) ps
  | _ => true
  end.

End JSON.

(** ** The persisted records *)

Record Vector3f := { x : JSON.number; y : JSON.number; z : JSON.number }.

Record Rotation :=
  { yaw : JSON.number; pitch : JSON.number; headYaw : JSON.number }.

(** [new Vector3f(0, 0, 0)] and [new Rotation(0, 0, 0)]. *)
Definition origin : Vector3f :=
  {| x := JSON.Finite 0 0; y := JSON.Finite 0 0; z := JSON.Finite 0 0 |}.

Definition no_rotation : Rotation :=
  {| yaw := JSON.Finite 0 0; pitch := JSON.Finite 0 0;
     headYaw := JSON.Finite 0 0 |}.

(** The entry that [Entity.save] builds.  The keys of [metadata] and
    [flags] are numbers of an enumeration, those of [components] and
    [attributes] are strings; every value is a JSON-like value. *)
Record EntityEntry := {
  entry_uniqueId : Z;
  entry_identifier : string;
  entry_position : Vector3f;
  entry_rotation : Rotation;
  entry_components : list (string * JSON.value);
  entry_traits : list string;
  entry_metadata : list (Z * JSON.value);
  entry_flags : list (Z * JSON.value);
  entry_attributes : list (string * JSON.value)
}.

(** Modelled from the spec: the type [PlayerEntry] is declared outside the
    files at hand; it is an entity entry together with the uuid of the
    player. *)
Record PlayerEntry := { player_uuid : string; player_entry : EntityEntry }.

Definition Vector3f_value (v : Vector3f) : JSON.value :=
  JSON.Object [("x", JSON.Number (x v)); ("y", JSON.Number (y v));
               ("z", JSON.Number (z v))].

Definition Rotation_value (r : Rotation) : JSON.value :=
  JSON.Object [("yaw", JSON.Number (yaw r)); ("pitch", JSON.Number (pitch r));
               ("headYaw", JSON.Number (headYaw r))].

Definition integer (k : Z) : JSON.value := JSON.Number (JSON.Finite k 0).

(** The entries of a map as [[key, value]] pairs. *)
Definition entries {K : Type} (key : K -> JSON.value)
    (m : list (K * JSON.value)) : JSON.value :=
  JSON.Array (map (fun p => JSON.Array [key (fst p); snd p]) m).

Definition EntityEntry_properties (e : EntityEntry) : list (string * JSON.value) :=
  [("uniqueId", JSON.Bigint (entry_uniqueId e));
   ("identifier", JSON.Str (entry_identifier e));
   ("position", Vector3f_value (entry_position e));
   ("rotation", Rotation_value (entry_rotation e));
   ("components", entries JSON.Str (entry_components e));
   ("traits", JSON.Array (map JSON.Str (entry_traits e)));
   ("metadata", entries integer (entry_metadata e));
   ("flags", entries integer (entry_flags e));
   ("attributes", entries JSON.Str (entry_attributes e))].

(** The entry as the object that [JSON.stringify] is given. *)
Definition EntityEntry_value (e : EntityEntry) : JSON.value :=
  JSON.Object (EntityEntry_properties e).

Definition PlayerEntry_value (p : PlayerEntry) : JSON.value :=
  JSON.Object (EntityEntry_properties (player_entry p)
               ++ [("uuid", JSON.Str (player_uuid p))]).

(** The view of a parsed value as an entry: the entry that the value is
    the object of, where it has the shape that [EntityEntry] declares. *)
Fixpoint property (name : string) (ps : list (string * JSON.value))
  : option JSON.value :=
  match ps with
  | [] => None
  | (k, v) :: ps' => if String.eqb k name then Some v else property name ps'
  end.

Definition as_number (v : JSON.value) : option JSON.number :=
  match v with JSON.Number n => Some n | _ => None end.

Definition as_integer (v : JSON.value) : option Z :=
  match v with JSON.Number (JSON.Finite k 0) => Some k | _ => None end.

Definition as_string (v : JSON.value) : option string :=
  match v with JSON.Str s => Some s | _ => None end.

Definition as_bigint (v : JSON.value) : option Z :=
  match v with JSON.Bigint n => Some n | _ => None end.

Definition as_array (v : JSON.value) : option (list JSON.value) :=
  match v with JSON.Array xs => Some xs | _ => None end.

Definition as_object (v : JSON.value) : option (list (string * JSON.value)) :=
  match v with JSON.Object ps => Some ps | _ => None end.

Definition as_Vector3f (v : JSON.value) : option Vector3f :=
  ps ← as_object v;
  vx ← property "x" ps ≫= as_number;
  vy ← property "y" ps ≫= as_number;
  vz ← property "z" ps ≫= as_number;
  Some {| x := vx; y := vy; z := vz |}.

Definition as_Rotation (v : JSON.value) : option Rotation :=
  ps ← as_object v;
  vyaw ← property "yaw" ps ≫= as_number;
  vpitch ← property "pitch" ps ≫= as_number;
  vhead ← property "headYaw" ps ≫= as_number;
  Some {| yaw := vyaw; pitch := vpitch; headYaw := vhead |}.

Definition as_entries {K : Type} (key : JSON.value -> option K)
    (v : JSON.value) : option (list (K * JSON.value)) :=
  xs ← as_array v;
  mapM (fun p =>
          match p with
          | JSON.Array [k; x] => k' ← key k; Some (k', x)
          | _ => None
          end) xs.

Definition as_EntityEntry (v : JSON.value) : option EntityEntry :=
  ps ← as_object v;
  uid ← property "uniqueId" ps ≫= as_bigint;
  ident ← property "identifier" ps ≫= as_string;
  pos ← property "position" ps ≫= as_Vector3f;
  rot ← property "rotation" ps ≫= as_Rotation;
  comps ← property "components" ps ≫= as_entries as_string;
  names ← property "traits" ps ≫= as_array;
  trs ← mapM as_string names;
  meta ← property "metadata" ps ≫= as_entries as_integer;
  flgs ← property "flags" ps ≫= as_entries as_integer;
  attrs ← property "attributes" ps ≫= as_entries as_string;
  Some {| entry_uniqueId := uid; entry_identifier := ident;
          entry_position := pos; entry_rotation := rot;
          entry_components := comps; entry_traits := trs;
          entry_metadata := meta; entry_flags := flgs;
          entry_attributes := attrs |}.

(** The two fields that [onStartup] and [load] read from the object that
    [readEntity] returns before anything else. *)
Inductive EntryField := FieldUniqueId | FieldIdentifier.

Definition field_name (field : EntryField) : string :=
  match field with
  | FieldUniqueId => "uniqueId"
  | FieldIdentifier => "identifier"
  end.

(** [entry.uniqueId] and [entry.identifier] on a parsed value: a TypeError
    on [null], the value of the property on an object, and [undefined]
    (here [None]) on an object without the property and on every other
    value: no string, array, number, boolean or bigint has a property of
    either name. *)
Definition get (field : EntryField) (v : JSON.value)
  : result (option JSON.value) :=
  match v with
  | JSON.Null => Throw "TypeError: Cannot read properties of null"
  | JSON.Object ps => Return (property (field_name field) ps)
  | _ => Return None
  end.

(** The truth of a value in a condition. *)
Definition truthy (v : JSON.value) : bool :=
  match v with
  | JSON.Null => false
  | JSON.Boolean b => b
  | JSON.Number (JSON.Finite m _) => negb (m =? 0)
  | JSON.Number JSON.NaN => false
  | JSON.Number _ => true
  | JSON.Bigint n => negb (n =? 0)
  | JSON.Str s => negb (String.eqb s "")
  | _ => true
  end.

(** A trait of a parsed entry: a string, or a value that is no string,
    by the text that a template literal prints for it.  A string that
    the reviver has turned into a bigint or into a number that is not
    finite is of the second kind. *)
Inductive ParsedTrait :=
| TraitName (name : string)
| NotAName (text : string).

Definition as_ParsedTrait (v : JSON.value) : option ParsedTrait :=
  match v with
  | JSON.Str s => Some (TraitName s)
  | JSON.Bigint n => Some (NotAName (BigInt_toString n))
  | JSON.Number JSON.Infinity => Some (NotAName "Infinity")
  | JSON.Number JSON.NegInfinity => Some (NotAName "-Infinity")
  | JSON.Number JSON.NaN => Some (NotAName "NaN")
  | JSON.Boolean true => Some (NotAName "true")
  | JSON.Boolean false => Some (NotAName "false")
  | JSON.Null => Some (NotAName "null")
  | _ => None
  end.

(** The fields that [load] reads once it has checked the identity of the
    entry, where they have the types that [EntityEntry] declares; the
    traits are taken as they come. *)
Record ParsedFields := {
  parsed_position : Vector3f;
  parsed_rotation : Rotation;
  parsed_components : list (string * JSON.value);
  parsed_traits : list ParsedTrait;
  parsed_metadata : list (Z * JSON.value);
  parsed_flags : list (Z * JSON.value);
  parsed_attributes : list (string * JSON.value)
}.

Definition as_ParsedFields (v : JSON.value) : option ParsedFields :=
  ps ← as_object v;
  pos ← property "position" ps ≫= as_Vector3f;
  rot ← property "rotation" ps ≫= as_Rotation;
  comps ← property "components" ps ≫= as_entries as_string;
  names ← property "traits" ps ≫= as_array;
  trs ← mapM as_ParsedTrait names;
  meta ← property "metadata" ps ≫= as_entries as_integer;
  flgs ← property "flags" ps ≫= as_entries as_integer;
  attrs ← property "attributes" ps ≫= as_entries as_string;
  Some {| parsed_position := pos; parsed_rotation := rot;
          parsed_components := comps; parsed_traits := trs;
          parsed_metadata := meta; parsed_flags := flgs;
          parsed_attributes := attrs |}.

(** ** The key-value store *)

(** A stored buffer.  The provider writes two kinds: the bytes of a binary
    stream, and the text of a JSON document, kept here as the document the
    text denotes.  A buffer is read back in the form it was written in; read
    in the other form it is taken to be malformed. *)
Inductive Buffer :=
| Bytes (bs : list Z)
| Text (doc : JSON.value).

(** Modelled from the spec: the store of the package [@serenityjs/leveldb]
    ([get(key) -> bytes | NotFound], [put(key, bytes)], [close()]; no
    operation is valid once the store is closed). *)
Record Leveldb := { entries_of : gmap (list Z) Buffer; closed : bool }.

Definition Leveldb_get (key : list Z) (db : Leveldb) : result Buffer :=
  if closed db then Throw "Database is closed"
  else match entries_of db !! key with
       | Some b => Return b
       | None => Throw "NotFound"
       end.

Definition Leveldb_put (key : list Z) (b : Buffer) (db : Leveldb)
  : result Leveldb :=
  if closed db then Throw "Database is closed"
  else Return {| entries_of := <[key := b]> (entries_of db); closed := false |}.

Definition Leveldb_close (db : Leveldb) : Leveldb :=
  {| entries_of := entries_of db; closed := true |}.

(** The bytes that a binary stream is opened on, and the document that
    [JSON.parse(buffer.toString(), ..)] starts from. *)
Definition stream_of (b : Buffer) : result BinaryStream.t :=
  match b with
  | Bytes bs => Return (BinaryStream.from bs)
  | Text _ => Throw "malformed"
  end.

Definition document_of (b : Buffer) : result JSON.value :=
  match b with
  | Text doc => Return doc
  | Bytes _ => Throw "SyntaxError: Unexpected token in JSON"
  end.

(** ** EntityStore: the entity and player records of [LevelDBProvider] *)

(** The loop [do uniqueIds.push(stream.readInt64(Little)) while
    (!stream.cursorAtEnd())] of [readAvailableEntities].  Besides the
    outcome it gives the array [uniqueIds] as the loop leaves it, also when
    a read throws.  Every turn moves the cursor by eight bytes, so [fuel]
    turns are enough when [fuel] exceeds the length of the buffer. *)
Fixpoint read_unique_ids (fuel : nat) (stream : BinaryStream.t)
    (uniqueIds : list Z) : result unit * list Z :=
  match fuel with
  | O => (Throw "out of fuel", uniqueIds)
  | S fuel' =>
    match BinaryStream.readInt64 Little stream with
    | Throw m => (Throw m, uniqueIds)
    | Return (v, stream') =>
      let uniqueIds := uniqueIds ++ [v] in
      if negb (BinaryStream.cursorAtEnd stream')
      then read_unique_ids fuel' stream' uniqueIds
      else (Return (), uniqueIds)
    end
  end.

(** [readAvailableEntities(dimension)], on the dimension's [indexOf()].
    Both the [try] block and the [catch] block return the array
    [uniqueIds]. *)
Definition readAvailableEntities (index : Z) (db : Leveldb) : list Z :=
  let uniqueIds := [] in
  let key := buildActorListKey index in
  match Leveldb_get key db ≫= stream_of with
  | Throw _ => uniqueIds
  | Return stream =>
    match read_unique_ids (S (length (BinaryStream.binary stream))) stream uniqueIds with
    | (Return _, uniqueIds) => uniqueIds
    | (Throw _, uniqueIds) => uniqueIds
    end
  end.

Definition writeAvailableEntities (index : Z) (entities : list Z)
    (db : Leveldb) : result Leveldb :=
  let key := buildActorListKey index in
  let stream :=
    fold_left (fun stream uniqueId =>
                 BinaryStream.writeInt64 uniqueId Little stream)
      entities BinaryStream.empty in
  Leveldb_put key (Bytes (BinaryStream.getBuffer stream)) db.

(** [entities.includes(uniqueId)]. *)
Definition includes (uniqueId : Z) (entities : list Z) : bool :=
  existsb (Z.eqb uniqueId) entities.

(** [readEntity(uniqueId, dimension)].  What it returns is the object that
    [JSON.parse] has built: [as EntityEntry] checks nothing when the code
    runs. *)
Definition readEntity (uniqueId : Z) (index : Z) (db : Leveldb)
  : result JSON.value :=
  let entities := readAvailableEntities index db in
  if negb (includes uniqueId entities)
  then Throw ("Entity with unique id " +:+ BigInt_toString uniqueId
              +:+ " not found!")
  else
    let key := buildActorDataKey uniqueId in
    buffer ← Leveldb_get key db;
    text ← document_of buffer;
    JSON.parse text.

(** [writeEntity(entity, dimension)].  The array [entities] is local to the
    call: the identifier pushed to it reaches no other place. *)
Definition writeEntity (entity : EntityEntry) (index : Z) (db : Leveldb)
  : result Leveldb :=
  let entities := readAvailableEntities index db in
  let entities :=
    if negb (includes (entry_uniqueId entity) entities)
    then entities ++ [entry_uniqueId entity] else entities in
  data ← JSON.stringify (EntityEntry_value entity);
  let buffer := Text data in
  let key := buildActorDataKey (entry_uniqueId entity) in
  Leveldb_put key buffer db.

(** [readPlayer(uuid, dimension)]: the object that [JSON.parse] has built,
    or [null] (here [None]) where the [try] block threw; the text [null]
    is read as [null] too. *)
Definition readPlayer (uuid dimension_identifier : string) (db : Leveldb)
  : option JSON.value :=
  let key := buildPlayerKey uuid dimension_identifier in
  match (buffer ← Leveldb_get key db;
         text ← document_of buffer;
         JSON.parse text) with
  | Return JSON.Null => None
  | Return data => Some data
  | Throw _ => None
  end.

Definition writePlayer (player : PlayerEntry) (dimension_identifier : string)
    (db : Leveldb) : result Leveldb :=
  data ← JSON.stringify (PlayerEntry_value player);
  let buffer := Text data in
  let key := buildPlayerKey (player_uuid player) dimension_identifier in
  Leveldb_put key buffer db.

(** ** Chunks *)

Record SubChunk (B : Type) := { index : Z; layers : B }.
Arguments index {B} _.
Arguments layers {B} _.

(** Modelled from the spec: the class [SubChunk] is declared outside the
    files at hand.  A subchunk has an index and opaque block data [B]; what
    the provider uses of it is the data of [new SubChunk()], the test
    [isEmpty()], [SubChunk.serialize] and [SubChunk.from], which throws on
    bytes it cannot read. *)
Class BlockStorage (B : Type) := {
  no_blocks : B;
  blocks_isEmpty : B -> bool;
  SubChunk_serialize : SubChunk B -> list Z;
  SubChunk_from : list Z -> result (SubChunk B)
}.

Section Chunks.

Context {B : Type} `{BlockStorage B}.

Definition new_SubChunk : SubChunk B := {| index := 0; layers := no_blocks |}.

Definition SubChunk_isEmpty (s : SubChunk B) : bool := blocks_isEmpty (layers s).

Definition set_index (cy : Z) (s : SubChunk B) : SubChunk B :=
  {| index := cy; layers := layers s |}.

(** Modelled from the spec: the class [Chunk] is declared outside the files
    at hand.  A chunk has its coordinates, the type of its dimension, an
    ordered sequence of subchunk slots and a dirty flag; it is empty when
    all its slots are. *)
Record Chunk := {
  chunk_x : Z;
  chunk_z : Z;
  chunk_type : Z;
  subchunks : list (SubChunk B);
  dirty : bool
}.

Definition new_Chunk (cx cz type : Z) (slots : list (SubChunk B)) : Chunk :=
  {| chunk_x := cx; chunk_z := cz; chunk_type := type; subchunks := slots;
     dirty := false |}.

Definition Chunk_isEmpty (c : Chunk) : bool := forallb SubChunk_isEmpty (subchunks c).

(** [chunk.getSubChunk(i)]: the slot, or nothing where there is none. *)
Definition Chunk_getSubChunk (i : Z) (c : Chunk) : option (SubChunk B) :=
  if i <? 0 then None else subchunks c !! Z.to_nat i.

Definition set_subchunk (i : Z) (s : SubChunk B) (c : Chunk) : Chunk :=
  {| chunk_x := chunk_x c; chunk_z := chunk_z c; chunk_type := chunk_type c;
     subchunks := <[Z.to_nat i := s]> (subchunks c); dirty := dirty c |}.

Definition set_dirty (b : bool) (c : Chunk) : Chunk :=
  {| chunk_x := chunk_x c; chunk_z := chunk_z c; chunk_type := chunk_type c;
     subchunks := subchunks c; dirty := b |}.

(** Modelled from the spec: a dimension, as far as the provider uses it:
    its [indexOf()], its identifier, its type, and the terrain generator
    [generate(cx, cz, type) -> Chunk]. *)
Record Dimension := {
  dim_index : Z;
  dim_identifier : string;
  dim_type : Z;
  dim_generator : Z -> Z -> Z -> Chunk
}.

(** Modelled from the spec: [ChunkCoords.hash] of the protocol package, a
    hash of (cx, cz): the two coordinates as 32-bit fields of one bigint. *)
Definition ChunkCoords_hash (cx cz : Z) : Z :=
  Z.lor (Z.shiftl (Z.land cx 0xffffffff) 32) (Z.land cz 0xffffffff).

(** The fields [db] and [chunks] of the provider; the map of a dimension is
    found by the dimension's index. *)
Record LevelDBProvider := {
  db : Leveldb;
  chunks : gmap Z (gmap Z Chunk)
}.

Definition set_chunks (c : gmap Z (gmap Z Chunk)) (p : LevelDBProvider)
  : LevelDBProvider :=
  {| db := db p; chunks := c |}.

(** The subchunk indices that [readChunk] and [writeChunk] go through:
    [for (let cy = -4; cy < 16; cy++)]. *)
Definition subchunk_range : list Z := seqZ (-4) (16 - (-4)).

Definition hasChunk (cx cz : Z) (dimension : Dimension) (d : Leveldb) : bool :=
  match Leveldb_get (buildChunkVersionKey cx cz (dim_index dimension)) d with
  | Return data => true
  | Throw _ => false
  end.

Definition bytes_of_buffer (b : Buffer) : result (list Z) :=
  match b with
  | Bytes bs => Return bs
  | Text _ => Throw "malformed"
  end.

Definition readSubChunk (cx cy cz : Z) (dimension : Dimension) (d : Leveldb)
  : SubChunk B :=
  let key := buildSubChunkKey cx cy cz (dim_index dimension) in
  match (buffer ← Leveldb_get key d;
         bytes ← bytes_of_buffer buffer;
         SubChunk_from bytes) with
  | Return subchunk => set_index cy subchunk
  | Throw _ => set_index cy new_SubChunk
  end.

Definition put (key : list Z) (b : Buffer) : M Leveldb unit :=
  fun d =>
    match Leveldb_put key b d with
    | Return d' => (Return (), d')
    | Throw e => (Throw e, d)
    end.

Definition writeChunkVersion (cx cz : Z) (dimension : Dimension) (version : Z)
  : M Leveldb unit :=
  let key := buildChunkVersionKey cx cz (dim_index dimension) in
  put key (Bytes [version]).

(** [writeSubChunk]: the index of the subchunk is set, then its bytes are
    put.  The subchunk as the call leaves it is given back with the
    store. *)
Definition writeSubChunk (subchunk : SubChunk B) (cx cy cz : Z)
    (dimension : Dimension) : M Leveldb (SubChunk B) :=
  let key := buildSubChunkKey cx cy cz (dim_index dimension) in
  let subchunk := set_index cy subchunk in
  put key (Bytes (SubChunk_serialize subchunk)) ≫= fun _ => mret subchunk.

(** The state of [writeChunk]: the chunk it is given and the store. *)
Definition on_db {A : Type} (m : M Leveldb A) : M (Chunk * Leveldb) A :=
  fun s =>
    match m (snd s) with
    | (r, d') => (r, (fst s, d'))
    end.

Definition on_chunk (f : Chunk -> Chunk) : M (Chunk * Leveldb) unit :=
  modify (fun s => (f (fst s), snd s)).

Definition writeChunk_slot (dimension : Dimension) (cy : Z)
  : M (Chunk * Leveldb) unit :=
  fun s =>
    let chunk := fst s in
    match Chunk_getSubChunk (cy + 4) chunk with
    | None => (Return (), s)
    | Some subchunk =>
      if SubChunk_isEmpty subchunk then (Return (), s)
      else
        match writeSubChunk subchunk (chunk_x chunk) cy (chunk_z chunk)
                dimension (snd s) with
        | (Return subchunk', d') =>
          (Return (), (set_subchunk (cy + 4) subchunk' chunk, d'))
        | (Throw e, d') =>
          (Throw e, (set_subchunk (cy + 4) (set_index cy subchunk) chunk, d'))
        end
    end.

Definition writeChunk (dimension : Dimension) : M (Chunk * Leveldb) unit :=
  fun s =>
    let chunk := fst s in
    if Chunk_isEmpty chunk || negb (dirty chunk) then (Return (), s)
    else
      (_ ← on_db (writeChunkVersion (chunk_x chunk) (chunk_z chunk) dimension 40);
       _ ← for_each (writeChunk_slot dimension) subchunk_range;
       on_chunk (set_dirty false)) s.

(** [readChunk(cx, cz, dimension)]. *)
Definition readChunk (cx cz : Z) (dimension : Dimension)
  : M LevelDBProvider Chunk :=
  fun p =>
    let p :=
      match chunks p !! dim_index dimension with
      | None => set_chunks (<[dim_index dimension := ∅]> (chunks p)) p
      | Some _ => p
      end in
    let cache := default ∅ (chunks p !! dim_index dimension) in
    let hash := ChunkCoords_hash cx cz in
    let store chunk :=
      set_chunks (<[dim_index dimension := <[hash := chunk]> cache]> (chunks p)) p in
    match cache !! hash with
    | Some chunk => (Return chunk, p)
    | None =>
      if hasChunk cx cz dimension (db p) then
        let slots :=
          map (fun cy => readSubChunk cx cy cz dimension (db p)) subchunk_range in
        let chunk := new_Chunk cx cz (dim_type dimension) slots in
        (Return chunk, store chunk)
      else
        let chunk := dim_generator dimension cx cz (dim_type dimension) in
        (Return chunk, store chunk)
    end.

(** The chunk that the cache of a dimension holds for a coordinate. *)
Definition cached (cx cz : Z) (dimension : Dimension) (p : LevelDBProvider)
  : option Chunk :=
  default ∅ (chunks p !! dim_index dimension) !! ChunkCoords_hash cx cz.

(** *** What [writeChunk] leaves behind, slot by slot *)

(** The subchunk that the loop of [writeChunk] writes for [cy]: the slot
    [cy + 4] with its index set, when there is such a slot and it is not
    empty. *)
Definition slot_to_write (c : Chunk) (cy : Z) : option (SubChunk B) :=
  match Chunk_getSubChunk (cy + 4) c with
  | Some s => if SubChunk_isEmpty s then None else Some (set_index cy s)
  | None => None
  end.

(** One turn of the loop on an open store, as a function of the chunk and
    the entries of the store. *)
Definition write_slot (dimension : Dimension) (s : Chunk * Leveldb) (cy : Z)
  : Chunk * Leveldb :=
  match slot_to_write (fst s) cy with
  | Some s' =>
    (set_subchunk (cy + 4) s' (fst s),
     {| entries_of :=
          <[buildSubChunkKey (chunk_x (fst s)) cy (chunk_z (fst s))
              (dim_index dimension) := Bytes (SubChunk_serialize s')]>
            (entries_of (snd s));
        closed := false |})
  | None => s
  end.

End Chunks.

(** ** Entities *)

(** A [Map] with its insertion order, as the list of its entries. *)
Section JSMap.

Context {K V : Type} `{EqDecision K}.

Fixpoint Map_get (k : K) (m : list (K * V)) : option V :=
  match m with
  | [] => None
  | (k', v) :: m' => if decide (k' = k) then Some v else Map_get k m'
  end.

Definition Map_has (k : K) (m : list (K * V)) : bool :=
  match Map_get k m with Some _ => true | None => false end.

Fixpoint Map_set (k : K) (v : V) (m : list (K * V)) : list (K * V) :=
  match m with
  | [] => [(k, v)]
  | (k', v') :: m' =>
    if decide (k' = k) then (k', v) :: m' else (k', v') :: Map_set k v m'
  end.

(** [for (const [key, value] of entries) if (!map.has(key)) map.set(key,
    value)]. *)
Definition Map_add_missing (new_entries : list (K * V)) (m : list (K * V))
  : list (K * V) :=
  fold_left (fun m p => if Map_has (fst p) m then m else Map_set (fst p) (snd p) m)
    new_entries m.

End JSMap.

(** Modelled from the spec: [EntityType], declared outside the files at
    hand: the identifier of a type of entity and its network id. *)
Record EntityType := { type_identifier : string; type_network : Z }.

Module Entity.

(** The fields of an entity that the provider and [load] read or write.
    [traits] holds the identifiers under which traits are attached, in the
    order of attachment; [dimension] is the index of the dimension. *)
Record t := {
  runtimeId : Z;
  uniqueId : Z;
  type : EntityType;
  position : Vector3f;
  rotation : Rotation;
  traits : list string;
  components : list (string * JSON.value);
  metadata : list (Z * JSON.value);
  flags : list (Z * JSON.value);
  attributes : list (string * JSON.value);
  dimension : Z;
  isAlive : bool
}.

Definition set_position (v : Vector3f) (e : t) : t :=
  {| runtimeId := runtimeId e; uniqueId := uniqueId e; type := type e;
     position := v; rotation := rotation e; traits := traits e;
     components := components e; metadata := metadata e; flags := flags e;
     attributes := attributes e; dimension := dimension e;
     isAlive := isAlive e |}.

Definition set_rotation (r : Rotation) (e : t) : t :=
  {| runtimeId := runtimeId e; uniqueId := uniqueId e; type := type e;
     position := position e; rotation := r; traits := traits e;
     components := components e; metadata := metadata e; flags := flags e;
     attributes := attributes e; dimension := dimension e;
     isAlive := isAlive e |}.

Definition set_traits (l : list string) (e : t) : t :=
  {| runtimeId := runtimeId e; uniqueId := uniqueId e; type := type e;
     position := position e; rotation := rotation e; traits := l;
     components := components e; metadata := metadata e; flags := flags e;
     attributes := attributes e; dimension := dimension e;
     isAlive := isAlive e |}.

Definition set_components (m : list (string * JSON.value)) (e : t) : t :=
  {| runtimeId := runtimeId e; uniqueId := uniqueId e; type := type e;
     position := position e; rotation := rotation e; traits := traits e;
     components := m; metadata := metadata e; flags := flags e;
     attributes := attributes e; dimension := dimension e;
     isAlive := isAlive e |}.

Definition set_metadata (m : list (Z * JSON.value)) (e : t) : t :=
  {| runtimeId := runtimeId e; uniqueId := uniqueId e; type := type e;
     position := position e; rotation := rotation e; traits := traits e;
     components := components e; metadata := m; flags := flags e;
     attributes := attributes e; dimension := dimension e;
     isAlive := isAlive e |}.

Definition set_flags (m : list (Z * JSON.value)) (e : t) : t :=
  {| runtimeId := runtimeId e; uniqueId := uniqueId e; type := type e;
     position := position e; rotation := rotation e; traits := traits e;
     components := components e; metadata := metadata e; flags := m;
     attributes := attributes e; dimension := dimension e;
     isAlive := isAlive e |}.

Definition set_attributes (m : list (string * JSON.value)) (e : t) : t :=
  {| runtimeId := runtimeId e; uniqueId := uniqueId e; type := type e;
     position := position e; rotation := rotation e; traits := traits e;
     components := components e; metadata := metadata e; flags := flags e;
     attributes := m; dimension := dimension e; isAlive := isAlive e |}.

Definition set_isAlive (b : bool) (e : t) : t :=
  {| runtimeId := runtimeId e; uniqueId := uniqueId e; type := type e;
     position := position e; rotation := rotation e; traits := traits e;
     components := components e; metadata := metadata e; flags := flags e;
     attributes := attributes e; dimension := dimension e; isAlive := b |}.

(** Modelled from the spec: the trait classes are declared outside the
    files at hand.  A trait is consumed through its identifier, through
    [new trait(entity)], which attaches the trait to the entity or throws,
    and through its hook [onSpawn], which may throw too. *)
Record TraitType := {
  trait_identifier : string;
  trait_new : t -> result t;
  trait_onSpawn : t -> result t
}.

(** Modelled from the spec: what a world knows of entity types and traits:
    [EntityType.get], the map [entityPalette.traits] (its values, each under
    its own identifier) and [entityPalette.getRegistryFor]. *)
Record Palette := {
  entity_types : list EntityType;
  palette_traits : list TraitType;
  getRegistryFor : string -> list TraitType
}.

Definition EntityType_get (palette : Palette) (identifier : string)
  : option EntityType :=
  find (fun ty => String.eqb (type_identifier ty) identifier)
    (entity_types palette).

Definition traits_get (palette : Palette) (identifier : string)
  : option TraitType :=
  find (fun tr => String.eqb (trait_identifier tr) identifier)
    (palette_traits palette).

(** The entity that a method runs on, and the logger that it writes to. *)
Record Self := { this : t; logger : list string }.

Definition on_this (f : t -> t) : M Self unit :=
  modify (fun s => {| this := f (this s); logger := logger s |}).

Definition log (line : string) : M Self unit :=
  modify (fun s => {| this := this s; logger := logger s ++ [line] |}).

Definition isPlayer (e : t) : bool :=
  String.eqb (type_identifier (type e)) "minecraft:player".

Definition hasTrait (identifier : string) (e : t) : bool :=
  existsb (String.eqb identifier) (traits e).

(** [addTrait(trait)]. *)
Definition addTrait (palette : Palette) (trait : TraitType) : M Self unit :=
  e ← gets this;
  if hasTrait (trait_identifier trait) e then mret ()
  else
    (match traits_get palette (trait_identifier trait) with
     | Some _ => mret ()
     | None =>
       log ("Trait " +:+ trait_identifier trait
            +:+ " was added to entity but does not exist in the palette.")
     end) ≫= fun _ =>
    try_catch
      (fun s =>
         match trait_new trait (this s) with
         | Return e' => (Return (), {| this := e'; logger := logger s |})
         | Throw reason => (Throw reason, s)
         end)
      (fun reason =>
         log ("Failed to add trait " +:+ trait_identifier trait
              +:+ " to entity")).

(** The body of the loop of [load] over [entry.traits]. *)
Definition load_trait (palette : Palette) (trait : string) : M Self unit :=
  match traits_get palette trait with
  | None =>
    log ("Failed to load trait " +:+ trait
         +:+ " for entity as it does not exist in the palette")
  | Some traitType => addTrait palette traitType
  end.

(** [load(entry, overwrite)]. *)
Definition load (palette : Palette) (entry : EntityEntry) (overwrite : bool)
  : M Self unit :=
  e ← gets this;
  if decide (entry_uniqueId entry <> uniqueId e) then
    throw "Failed to load entity entry as the unique id does not match the entity's unique id!"
  else if negb (String.eqb (entry_identifier entry) (type_identifier (type e))) then
    throw "Failed to load entity entry as the identifier does not match the entity's identifier!"
  else
    on_this (set_position (entry_position entry)) ≫= fun _ =>
    on_this (set_rotation (entry_rotation entry)) ≫= fun _ =>
    (if overwrite
     then on_this (fun e => set_traits [] (set_components [] e))
     else mret ()) ≫= fun _ =>
    on_this (fun e =>
      set_components (Map_add_missing (entry_components entry) (components e)) e)
    ≫= fun _ =>
    for_each (load_trait palette) (entry_traits entry) ≫= fun _ =>
    on_this (fun e =>
      set_metadata (Map_add_missing (entry_metadata entry) (metadata e)) e)
    ≫= fun _ =>
    on_this (fun e =>
      set_flags (Map_add_missing (entry_flags entry) (flags e)) e)
    ≫= fun _ =>
    on_this (fun e =>
      set_attributes (Map_add_missing (entry_attributes entry) (attributes e)) e).

(** Modelled from the spec: the classes [Vector3f], [Rotation],
    [MetadataMap], [ActorFlagMap] and [AttributeMap] are declared outside
    the files at hand, and the fields of an entity hold here values of the
    types that they declare.  What the rest of [load], from
    [position.set] on, makes of an object whose fields have not the types
    that [EntityEntry] declares is left open: [load_untyped] stands for
    it. *)
Class UntypedFields := {
  load_untyped : JSON.value -> bool -> M Self unit
}.

(** The body of the loop of [load] over [entry.traits], for a trait of a
    parsed entry: [traits.get] finds nothing for a value that is no
    string. *)
Definition load_trait_parsed (palette : Palette) (trait : ParsedTrait)
  : M Self unit :=
  match trait with
  | TraitName name => load_trait palette name
  | NotAName text =>
    log ("Failed to load trait " +:+ text
         +:+ " for entity as it does not exist in the palette")
  end.

(** [load] from [position.set] on, for fields of the declared types. *)
Definition load_fields (palette : Palette) (fields : ParsedFields)
    (overwrite : bool) : M Self unit :=
  on_this (set_position (parsed_position fields)) ≫= fun _ =>
  on_this (set_rotation (parsed_rotation fields)) ≫= fun _ =>
  (if overwrite
   then on_this (fun e => set_traits [] (set_components [] e))
   else mret ()) ≫= fun _ =>
  on_this (fun e =>
    set_components (Map_add_missing (parsed_components fields) (components e)) e)
  ≫= fun _ =>
  for_each (load_trait_parsed palette) (parsed_traits fields) ≫= fun _ =>
  on_this (fun e =>
    set_metadata (Map_add_missing (parsed_metadata fields) (metadata e)) e)
  ≫= fun _ =>
  on_this (fun e =>
    set_flags (Map_add_missing (parsed_flags fields) (flags e)) e)
  ≫= fun _ =>
  on_this (fun e =>
    set_attributes (Map_add_missing (parsed_attributes fields) (attributes e)) e).

(** [load(entry, overwrite)] on the object that [readEntity] returns: the
    fields are read as they are.  [entry.uniqueId !== this.uniqueId] holds
    unless the field is the bigint of the entity, and
    [entry.identifier !== this.type.identifier] unless the field is the
    string of its type. *)
Definition load_parsed `{UntypedFields} (palette : Palette)
    (entry : JSON.value) (overwrite : bool) : M Self unit :=
  fun self =>
    let e := this self in
    match get FieldUniqueId entry with
    | Throw reason => (Throw reason, self)
    | Return field =>
      if match field with
         | Some (JSON.Bigint n) => bool_decide (n <> uniqueId e)
         | _ => true
         end
      then (Throw "Failed to load entity entry as the unique id does not match the entity's unique id!", self)
      else
        match get FieldIdentifier entry with
        | Throw reason => (Throw reason, self)
        | Return field =>
          if match field with
             | Some (JSON.Str s) => negb (String.eqb s (type_identifier (type e)))
             | _ => true
             end
          then (Throw "Failed to load entity entry as the identifier does not match the entity's identifier!", self)
          else
            match as_ParsedFields entry with
            | Some fields => load_fields palette fields overwrite self
            | None => load_untyped entry overwrite self
            end
        end
    end.

(** The part of the process that building and spawning entities reads and
    changes: the store of the provider, the entities of every dimension
    (by the index of the dimension, then by unique id), the static counter
    [Entity.runtimeId], the logger, and the clock [Date.now()]. *)
Record World := {
  world_db : Leveldb;
  dimension_entities : gmap Z (gmap Z t);
  static_runtimeId : Z;
  world_logger : list string;
  clock : Z
}.

(** Runs a method of the entity [e] against the logger of the world. *)
Definition method {A : Type} (e : t) (m : M Self A) : M World (A * t) :=
  fun w =>
    match m {| this := e; logger := world_logger w |} with
    | (r, s) =>
      (match r with Return a => Return (a, this s) | Throw reason => Throw reason end,
       {| world_db := world_db w; dimension_entities := dimension_entities w;
          static_runtimeId := static_runtimeId w; world_logger := logger s;
          clock := clock w |})
    end.

(** [partial<EntityProperties>], as [onStartup] fills it. *)
Record EntityProperties := {
  properties_uniqueId : option Z;
  properties_entry : option EntityEntry
}.

Definition next_runtimeId : M World Z :=
  fun w =>
    let n := static_runtimeId w + 1 in
    (Return n,
     {| world_db := world_db w; dimension_entities := dimension_entities w;
        static_runtimeId := n; world_logger := world_logger w;
        clock := clock w |}).

(** [new Entity(dimension, type, properties)] with the identifier of a
    type.  An identifier that [EntityType.get] does not know leaves the
    field [type] undefined, and the first use of it throws. *)
Definition new (palette : Palette) (dimension_index : Z) (type_name : string)
    (properties : EntityProperties) : M World t :=
  rid ← next_runtimeId;
  match EntityType_get palette type_name with
  | None => throw "TypeError: Cannot read properties of undefined"
  | Some ty =>
    now ← gets clock;
    let uid :=
      match properties_uniqueId properties with
      | Some u => if decide (u = 0) then createUniqueId now (type_network ty) rid else u
      | None => createUniqueId now (type_network ty) rid
      end in
    let e :=
      {| runtimeId := rid; uniqueId := uid; type := ty;
         position := origin; rotation := no_rotation; traits := [];
         components := []; metadata := []; flags := []; attributes := [];
         dimension := dimension_index; isAlive := false |} in
    if isPlayer e then mret e
    else
      '(_, e) ← method e
        ((match properties_entry properties with
          | Some entry => load palette entry true
          | None => mret ()
          end) ≫= fun _ =>
         for_each (addTrait palette) (getRegistryFor palette (type_identifier ty)));
      mret e
  end.

(** [new Entity(dimension, type, { uniqueId, entry })] as [onStartup] calls
    it, with the value of [entry.identifier] for the type and the object
    that [readEntity] returns for the entry.  [EntityType.get] knows
    strings alone; a unique id of zero counts as not given. *)
Definition new_parsed `{UntypedFields} (palette : Palette) (dimension_index : Z)
    (type_name : option JSON.value) (uniqueId : Z) (entry : JSON.value)
  : M World t :=
  rid ← next_runtimeId;
  match match type_name with
        | Some (JSON.Str name) => EntityType_get palette name
        | _ => None
        end with
  | None => throw "TypeError: Cannot read properties of undefined"
  | Some ty =>
    now ← gets clock;
    let uid :=
      if decide (uniqueId = 0) then createUniqueId now (type_network ty) rid
      else uniqueId in
    let e :=
      {| runtimeId := rid; uniqueId := uid; type := ty;
         position := origin; rotation := no_rotation; traits := [];
         components := []; metadata := []; flags := []; attributes := [];
         dimension := dimension_index; isAlive := false |} in
    if isPlayer e then mret e
    else
      '(_, e) ← method e
        ((if truthy entry then load_parsed palette entry true else mret ())
         ≫= fun _ =>
         for_each (addTrait palette) (getRegistryFor palette (type_identifier ty)));
      mret e
  end.

(** The class of a trait attached to an entity, by its identifier. *)
Definition attached_trait (palette : Palette) (e : t) (identifier : string)
  : option TraitType :=
  find (fun tr => String.eqb (trait_identifier tr) identifier)
    (palette_traits palette ++ getRegistryFor palette (type_identifier (type e))).

(** The body of the loop of [spawn] over the traits. *)
Definition spawn_trait (palette : Palette) (identifier : string) : M Self unit :=
  e ← gets this;
  match attached_trait palette e identifier with
  | None => mret ()
  | Some trait =>
    try_catch
      (fun s =>
         match trait_onSpawn trait (this s) with
         | Return e' => (Return (), {| this := e'; logger := logger s |})
         | Throw reason => (Throw reason, s)
         end)
      (fun reason =>
         log "Failed to trigger onSpawn trait event for entity" ≫= fun _ =>
         on_this (fun e => set_traits (filter (fun i => i <> identifier) (traits e)) e))
  end.

(** [spawn()]: the entity is put among the entities of its dimension and
    set alive, and the hooks of its traits are run.  The dimension holds
    the entity itself, so it holds it as the method leaves it. *)
Definition spawn (palette : Palette) (e : t) : M World unit :=
  '(_, e) ← method (set_isAlive true e)
             (for_each (spawn_trait palette) (traits e));
  modify (fun w =>
    let of_dimension := default ∅ (dimension_entities w !! dimension e) in
    {| world_db := world_db w;
       dimension_entities :=
         <[dimension e := <[uniqueId e := e]> of_dimension]> (dimension_entities w);
       static_runtimeId := static_runtimeId w; world_logger := world_logger w;
       clock := clock w |}).

End Entity.

(** ** WorldProvider lifecycle: [onStartup] *)

(** The body of the inner loop of [onStartup], for one unique id. *)
Definition startup_entity `{Entity.UntypedFields} (palette : Entity.Palette)
    (dimension_index : Z) (uniqueId : Z) : M Entity.World unit :=
  entry ← (fun w => (readEntity uniqueId dimension_index (Entity.world_db w), w));
  identifier ← (fun w => (get FieldIdentifier entry, w));
  entity ← Entity.new_parsed palette dimension_index identifier uniqueId entry;
  Entity.spawn palette entity.

(** The body of the outer loop, for one dimension. *)
Definition startup_dimension `{Entity.UntypedFields} (palette : Entity.Palette)
    (dimension_index : Z) : M Entity.World unit :=
  entities ← gets (fun w => readAvailableEntities dimension_index (Entity.world_db w));
  if decide (length entities = 0%nat) then mret ()
  else for_each (startup_entity palette dimension_index) entities.

(** [onStartup()], on the indices of [world.dimensions]. *)
Definition onStartup `{Entity.UntypedFields} (palette : Entity.Palette)
    (dimensions : list Z) : M Entity.World unit :=
  for_each (startup_dimension palette) dimensions.

(** ** The list of ids as the specification words it *)

(** The little-endian 64-bit integers that a buffer holds in full, in
    order; bytes left over at the end make no integer. *)
Fixpoint int64_le_sequence (bs : list Z) : list Z :=
  match bs with
  | b0 :: b1 :: b2 :: b3 :: b4 :: b5 :: b6 :: b7 :: rest =>
    BinaryStream.signed 64 (BinaryStream.unsigned_le [b0; b1; b2; b3; b4; b5; b6; b7])
    :: int64_le_sequence rest
  | _ => []
  end.

(** ** More of the provider and of the entity *)

(** A value that JSON text can hold: no bigint, and no number that is not
    finite. *)
Fixpoint json_native (v : JSON.value) : bool :=
  match v with
  | JSON.Bigint _ => false
  | JSON.Number (JSON.Finite _ _) => true
  | JSON.Number _ => false
  | JSON.Array xs => forallb json_native xs
  | JSON.Object ps => forallb (fun p => json_native (snd p)) ps
  | _ => true
  end.

(** The entity that a dimension holds under a unique id. *)
Definition spawned (w : Entity.World) (dimension_index uniqueId : Z)
  : option Entity.t :=
  default ∅ (Entity.dimension_entities w !! dimension_index) !! uniqueId.

Module EntityLife.

Import Entity.

(** [removeTrait(trait)]: [traits.delete(identifier)]. *)
Definition removeTrait (identifier : string) (e : t) : t :=
  set_traits (filter (fun i => i <> identifier) (traits e)) e.

(** The entry that [save()] builds from the fields of the entity. *)
Definition save_entry (e : t) : EntityEntry :=
  {| entry_uniqueId := uniqueId e;
     entry_identifier := type_identifier (type e);
     entry_position := position e;
     entry_rotation := rotation e;
     entry_components := components e;
     entry_traits := traits e;
     entry_metadata := metadata e;
     entry_flags := flags e;
     entry_attributes := attributes e |}.

(** [save()]: the entry is written through the provider of the world. *)
Definition save (e : t) : M World unit :=
  fun w =>
    match writeEntity (save_entry e) (dimension e) (world_db w) with
    | Return d' =>
      (Return (),
       {| world_db := d'; dimension_entities := dimension_entities w;
          static_runtimeId := static_runtimeId w;
          world_logger := world_logger w; clock := clock w |})
    | Throw reason => (Throw reason, w)
    end.

(** The body of the loop of [despawn] over the traits.  [onDespawn] gives
    the hook of a trait class, which may throw. *)
Definition despawn_trait (palette : Palette)
    (onDespawn : TraitType -> t -> result t) (identifier : string)
  : M Self unit :=
  fun s =>
    match attached_trait palette (this s) identifier with
    | None => (Return (), s)
    | Some trait =>
      match onDespawn trait (this s) with
      | Return e' => (Return (), {| this := e'; logger := logger s |})
      | Throw reason =>
        (Return (),
         {| this := removeTrait identifier (this s);
            logger := logger s
                      ++ ["Failed to trigger onDespawn trait event for entity"] |})
      end
    end.

(** [despawn()]: the entity is set not alive and taken out of the entities
    of its dimension, and the hooks of its traits are run.  The entity as
    the method leaves it is given back. *)
Definition despawn (palette : Palette) (onDespawn : TraitType -> t -> result t)
    (e : t) : M World t :=
  fun w =>
    let of_dimension := default ∅ (dimension_entities w !! dimension e) in
    let w :=
      {| world_db := world_db w;
         dimension_entities :=
           <[dimension e := delete (uniqueId e) of_dimension]> (dimension_entities w);
         static_runtimeId := static_runtimeId w;
         world_logger := world_logger w; clock := clock w |} in
    match method (set_isAlive false e)
            (for_each (despawn_trait palette onDespawn) (traits e)) w with
    | (Return (_, e'), w') => (Return e', w')
    | (Throw reason, w') => (Throw reason, w')
    end.

End EntityLife.

(** ** Sample data *)

(** An entry with nothing but its identity. *)
Definition bare_entry (uniqueId : Z) (identifier : string) : EntityEntry :=
  {| entry_uniqueId := uniqueId; entry_identifier := identifier;
     entry_position := origin; entry_rotation := no_rotation;
     entry_components := []; entry_traits := []; entry_metadata := [];
     entry_flags := []; entry_attributes := [] |}.

Definition empty_db : Leveldb := {| entries_of := ∅; closed := false |}.

(** The entry of the specification's example: a unique id of more than 32
    bits, an attribute whose value is infinite, and two traits. *)
Definition example_entry : EntityEntry :=
  {| entry_uniqueId := 0x100000001; entry_identifier := "minecraft:cow";
     entry_position := origin; entry_rotation := no_rotation;
     entry_components := [("name", JSON.Str "Daisy")];
     entry_traits := ["gravity"; "health"];
     entry_metadata := []; entry_flags := [];
     entry_attributes := [("minecraft:health", JSON.Number JSON.Infinity)] |}.

(** An entry with a component whose value is a string that ends in the tag
    of bigints, and what is read back for it. *)
Definition tagged_entry : EntityEntry :=
  {| entry_uniqueId := 7; entry_identifier := "minecraft:cow";
     entry_position := origin; entry_rotation := no_rotation;
     entry_components := [("name", JSON.Str "100BigInt_t")];
     entry_traits := []; entry_metadata := []; entry_flags := [];
     entry_attributes := [] |}.

Definition tagged_entry_read_back : EntityEntry :=
  {| entry_uniqueId := 7; entry_identifier := "minecraft:cow";
     entry_position := origin; entry_rotation := no_rotation;
     entry_components := [("name", JSON.Bigint 100)];
     entry_traits := []; entry_metadata := []; entry_flags := [];
     entry_attributes := [] |}.


(** A palette with one type of entity and no traits. *)
Definition cow : EntityType :=
  {| type_identifier := "minecraft:cow"; type_network := 11 |}.

Definition sample_palette : Entity.Palette :=
  {| Entity.entity_types := [cow]; Entity.palette_traits := [];
     Entity.getRegistryFor := fun _ => [] |}.

(** An entity of unique id 5 that has moved and carries a component. *)
Definition sample_entity : Entity.t :=
  {| Entity.runtimeId := 3; Entity.uniqueId := 5; Entity.type := cow;
     Entity.position :=
       {| x := JSON.Finite 1 0; y := JSON.Finite 64 0; z := JSON.Finite 1 0 |};
     Entity.rotation := no_rotation; Entity.traits := [];
     Entity.components := [("name", JSON.Str "Daisy")];
     Entity.metadata := []; Entity.flags := []; Entity.attributes := [];
     Entity.dimension := 0; Entity.isAlive := true |}.

(** The document that [writeEntity] stores for an entry. *)
Definition stored (entry : EntityEntry) : Buffer :=
  match JSON.stringify (EntityEntry_value entry) with
  | Return doc => Text doc
  | Throw _ => Bytes []
  end.

(** A store whose dimension 0 lists the ids 1 and 2 and holds the record
    of 2 alone, and the same store with both records. *)
Definition store_without_record_1 : Leveldb :=
  {| entries_of :=
       <[buildActorListKey 0 :=
           Bytes (BinaryStream.bytes_of Little 8 1 ++ BinaryStream.bytes_of Little 8 2)]>
       (<[buildActorDataKey 2 := stored (bare_entry 2 "minecraft:cow")]> ∅);
     closed := false |}.

Definition store_with_both_records : Leveldb :=
  {| entries_of :=
       <[buildActorDataKey 1 := stored (bare_entry 1 "minecraft:cow")]>
         (entries_of store_without_record_1);
     closed := false |}.

(** The store that lists 1 and 2 and holds the record of 1 alone. *)
Definition store_without_record_2 : Leveldb :=
  {| entries_of :=
       <[buildActorListKey 0 :=
           Bytes (BinaryStream.bytes_of Little 8 1 ++ BinaryStream.bytes_of Little 8 2)]>
       (<[buildActorDataKey 1 := stored (bare_entry 1 "minecraft:cow")]> ∅);
     closed := false |}.

Definition world_of (d : Leveldb) : Entity.World :=
  {| Entity.world_db := d; Entity.dimension_entities := ∅;
     Entity.static_runtimeId := 0; Entity.world_logger := [];
     Entity.clock := 1730000000000 |}.

(** A block storage for the examples: the block data of a subchunk is a
    list of bytes, empty for a subchunk without blocks, and it is stored
    as it is. *)
#[export] Instance sample_storage : BlockStorage (list Z) := {|
  no_blocks := [];
  blocks_isEmpty := fun bs => match bs with [] => true | _ => false end;
  SubChunk_serialize := fun s => layers s;
  SubChunk_from := fun bs =>
    match bs with
    | [] => Throw "Offset is out of bounds"
    | _ => Return {| index := 0; layers := bs |}
    end
|}.

(** A generator of chunks without blocks, twenty slots high. *)
Definition flat_generator (cx cz type : Z) : Chunk (B := list Z) :=
  new_Chunk cx cz type (replicate 20 new_SubChunk).

Definition overworld : Dimension (B := list Z) :=
  {| dim_index := 0; dim_identifier := "overworld"; dim_type := 0;
     dim_generator := flat_generator |}.

(** The chunk (5, 5) once a block has been set in its lowest slot. *)
Definition built_chunk : Chunk (B := list Z) :=
  {| chunk_x := 5; chunk_z := 5; chunk_type := 0;
     subchunks := {| index := 0; layers := [7] |} :: replicate 19 new_SubChunk;
     dirty := true |}.

(** A provider with nothing in its store and [built_chunk] in its cache. *)
Definition provider_with_built_chunk : LevelDBProvider (B := list Z) :=
  {| db := empty_db;
     chunks := {[ 0 := {[ ChunkCoords_hash 5 5 := built_chunk ]} ]} |}.

Definition empty_provider : LevelDBProvider (B := list Z) :=
  {| db := empty_db; chunks := ∅ |}.

(** A provider whose store holds the version marker of the chunk (0, 0) of
    dimension 0 and the bytes of its slot 0. *)
Definition provider_with_stored_chunk : LevelDBProvider (B := list Z) :=
  {| db := {| entries_of :=
                <[buildChunkVersionKey 0 0 0 := Bytes [40]]>
                  (<[buildSubChunkKey 0 0 0 0 := Bytes [7]]> ∅);
              closed := false |};
     chunks := ∅ |}.

(** For the examples: fields that have not their types make [load] throw
    a TypeError. *)
#[export] Instance sample_untyped_fields : Entity.UntypedFields :=
  {| Entity.load_untyped := fun _ _ =>
       throw "TypeError: the fields of the entry have not their types" |}.

(** An entry with a trait whose name ends in the tag of bigints, and a
    store whose dimension 0 lists its id and holds its record. *)
Definition tagged_trait_entry : EntityEntry :=
  {| entry_uniqueId := 5; entry_identifier := "minecraft:cow";
     entry_position := origin; entry_rotation := no_rotation;
     entry_components := []; entry_traits := ["5BigInt_t"];
     entry_metadata := []; entry_flags := []; entry_attributes := [] |}.

Definition store_with_tagged_trait : Leveldb :=
  {| entries_of :=
       <[buildActorListKey 0 := Bytes (BinaryStream.bytes_of Little 8 5)]>
       (<[buildActorDataKey 5 := stored tagged_trait_entry]> ∅);
     closed := false |}.


(** A store whose dimension 0 lists the ids 1 and 2 and holds the record of
    a cow for 1 and the record of an entity of a type that
    [sample_palette] does not know for 2; the world once [onStartup] has
    loaded the entity 1, and the world as the constructor then leaves it
    for the id 2. *)
Definition store_with_unknown_type : Leveldb :=
  {| entries_of :=
       <[buildActorListKey 0 :=
           Bytes (BinaryStream.bytes_of Little 8 1 ++ BinaryStream.bytes_of Little 8 2)]>
       (<[buildActorDataKey 1 := stored (bare_entry 1 "minecraft:cow")]>
        (<[buildActorDataKey 2 := stored (bare_entry 2 "minecraft:pig")]> ∅));
     closed := false |}.

Definition world_with_entity_1 : Entity.World :=
  snd (for_each (startup_entity sample_palette 0) [1]
         (world_of store_with_unknown_type)).

Definition world_after_failed_2 : Entity.World :=
  snd (Entity.new_parsed sample_palette 0 (Some (JSON.Str "minecraft:pig")) 2
         (EntityEntry_value (bare_entry 2 "minecraft:pig")) world_with_entity_1).

(** A store whose dimension 0 lists the ids 1 and 2 and holds no record,
    and a player entry. *)
Definition store_listing_1_2 : Leveldb :=
  {| entries_of :=
       {[ buildActorListKey 0 :=
            Bytes (BinaryStream.bytes_of Little 8 1
                   ++ BinaryStream.bytes_of Little 8 2) ]};
     closed := false |}.

Definition example_player : PlayerEntry :=
  {| player_uuid := "6c1e1f0a-0001"; player_entry := example_entry |}.

(** An entry for [sample_entity] with a component and a flag of its own. *)
Definition entry_for_sample : EntityEntry :=
  {| entry_uniqueId := 5; entry_identifier := "minecraft:cow";
     entry_position := origin; entry_rotation := no_rotation;
     entry_components := [("name", JSON.Str "Bella"); ("age", integer 3)];
     entry_traits := []; entry_metadata := [];
     entry_flags := [(1, JSON.Boolean true)]; entry_attributes := [] |}.

(** An entity of unique id 2, the second id that [store_listing_1_2]
    lists, that has moved and carries a component and a flag. *)
Definition listed_entity : Entity.t :=
  {| Entity.runtimeId := 9; Entity.uniqueId := 2; Entity.type := cow;
     Entity.position :=
       {| x := JSON.Finite 3 0; y := JSON.Finite 70 0; z := JSON.Finite (-5) 0 |};
     Entity.rotation :=
       {| yaw := JSON.Finite 90 0; pitch := JSON.Finite 0 0;
          headYaw := JSON.Finite 90 0 |};
     Entity.traits := [];
     Entity.components := [("name", JSON.Str "Daisy")];
     Entity.metadata := []; Entity.flags := [(1, JSON.Boolean true)];
     Entity.attributes := [];
     Entity.dimension := 0; Entity.isAlive := true |}.

(** * Properties *)

(** ** The key builders *)

Lemma byte_at_div (v : Z) (i : nat) :
  BinaryStream.byte_at v i = (v / 2 ^ (8 * Z.of_nat i)) mod 256.
Proof.
  unfold BinaryStream.byte_at.
  rewrite Z.shiftr_div_pow2 by lia.
  change 255 with (Z.ones 8). rewrite Z.land_ones by lia. reflexivity.
Qed.

Lemma mod_2_32_byte (v k : Z) :
  0 <= k <= 24 -> ((v mod 2 ^ 32) / 2 ^ k) mod 256 = (v / 2 ^ k) mod 256.
Proof.
  intros Hk.
  rewrite <- (Z.land_ones v 32) by lia.
  rewrite <- !Z.shiftr_div_pow2 by lia.
  change 256 with (2 ^ 8). rewrite <- !Z.land_ones by lia.
  apply Z.bits_inj'. intros n Hn.
  rewrite !Z.land_spec, !Z.shiftr_spec, Z.land_spec by lia.
  destruct (Z.ltb_spec n 8).
  - rewrite (Z.ones_spec_low 32 (n + k)) by lia. now rewrite andb_true_r.
  - rewrite (Z.ones_spec_high 8 n) by lia. now rewrite !andb_false_r.
Qed.

Lemma writeInt32_le_layout (v : Z) :
  BinaryStream.bytes_of Little 4 v = int32_le v.
Proof.
  unfold BinaryStream.bytes_of, BinaryStream.bytes_le, int32_le. simpl map.
  rewrite !byte_at_div.
  change (8 * Z.of_nat 0) with 0. change (8 * Z.of_nat 1) with 8.
  change (8 * Z.of_nat 2) with 16. change (8 * Z.of_nat 3) with 24.
  pose proof (mod_2_32_byte v 0) as H0. pose proof (mod_2_32_byte v 8) as H1.
  pose proof (mod_2_32_byte v 16) as H2. pose proof (mod_2_32_byte v 24) as H3.
  change (2 ^ 0) with 1 in *. change (2 ^ 8) with 256 in *.
  change (2 ^ 16) with 65536 in *. change (2 ^ 24) with 16777216 in *.
  rewrite !Z.div_1_r in *.
  rewrite H0, H1, H2, H3 by lia. reflexivity.
Qed.

Lemma writeByte_layout (v : Z) : BinaryStream.byte_at v 0 = signed_byte v.
Proof.
  rewrite byte_at_div. change (2 ^ (8 * Z.of_nat 0)) with 1.
  now rewrite Z.div_1_r.
Qed.

(** Runs the writes of a stream down to the buffer they leave. *)
Ltac stream_steps :=
  unfold BinaryStream.getBuffer, BinaryStream.writeByte,
    BinaryStream.writeInt32, BinaryStream.writeInt64,
    BinaryStream.writeBuffer, BinaryStream.write, BinaryStream.empty;
  cbn [BinaryStream.binary BinaryStream.offset app].

Lemma buildSubChunkKey_layout (cx cy cz index : Z) :
  buildSubChunkKey cx cy cz index = subchunk_key_layout cx cz cy index.
Proof.
  unfold buildSubChunkKey, subchunk_key_layout, dim_index_field.
  destruct (decide (index = 0)) as [->|Hne];
    [destruct (decide (0 <> 0)); [contradiction|]
    |destruct (decide (index <> 0)); [|contradiction]];
    stream_steps; rewrite !writeInt32_le_layout, !writeByte_layout;
    rewrite <- ?app_assoc; reflexivity.
Qed.

Lemma buildChunkVersionKey_layout (cx cz index : Z) :
  buildChunkVersionKey cx cz index = chunk_version_key_layout cx cz index.
Proof.
  unfold buildChunkVersionKey, chunk_version_key_layout, dim_index_field.
  destruct (decide (index = 0)) as [->|Hne];
    [destruct (decide (0 <> 0)); [contradiction|]
    |destruct (decide (index <> 0)); [|contradiction]];
    stream_steps; rewrite !writeInt32_le_layout;
    rewrite <- ?app_assoc; reflexivity.
Qed.

(** C8. The key builders produce exactly the layouts of section 4.1:
    [buildSubChunkKey] is little-endian int32 cx, int32 cz, the int32
    dimension index only when it is nonzero, byte 0x2F, then cy as a signed
    byte; [buildChunkVersionKey] is the same prefix followed by byte 0x2C.
    For dimension index 0 the four-byte index field is absent (the version
    key has 9 bytes, the subchunk key 10), for any other index it is present
    (13 and 14 bytes).  The builders are functions of their arguments, so
    equal arguments give identical bytes; the call of the specification's
    example, [subchunk_key(1, -2, 0, 0)], is shown byte for byte. *)
Theorem key_builders_layout (cx cy cz index : Z) :
  buildSubChunkKey cx cy cz index = subchunk_key_layout cx cz cy index
  /\ buildChunkVersionKey cx cz index = chunk_version_key_layout cx cz index
  /\ buildChunkVersionKey cx cz 0 = int32_le cx ++ int32_le cz ++ [0x2C]
  /\ buildSubChunkKey cx cy cz 0
     = int32_le cx ++ int32_le cz ++ [0x2F; signed_byte cy]
  /\ length (buildChunkVersionKey cx cz index)
     = (if decide (index = 0%Z) then 9 else 13)%nat
  /\ length (buildSubChunkKey cx cy cz index)
     = (if decide (index = 0%Z) then 10 else 14)%nat
  /\ buildSubChunkKey 1 0 (-2) 0 = [1; 0; 0; 0; 254; 255; 255; 255; 0x2F; 0]
  /\ buildChunkVersionKey 1 (-2) 1
     = [1; 0; 0; 0; 254; 255; 255; 255; 1; 0; 0; 0; 0x2C].
Proof.
  rewrite !buildSubChunkKey_layout, !buildChunkVersionKey_layout.
  unfold subchunk_key_layout, chunk_version_key_layout, dim_index_field.
  repeat split; try reflexivity; destruct (decide (index = 0)); reflexivity.
Qed.

(** ** Unique ids *)


Lemma jitter_range (now : Z) : 0 <= jitter now < 512.
Proof.
  unfold jitter, number_and. change (ToInt32 511) with (Z.ones 9).
  rewrite Z.land_ones by lia. apply Z.mod_pos_bound. lia.
Qed.




Lemma small_high_bits (r n : Z) : 0 <= r < 1024 -> 10 <= n -> Z.testbit r n = false.
Proof.
  intros Hr Hn. destruct (Z.eq_dec r 0) as [->|Hne].
  - apply Z.bits_0.
  - apply Z.bits_above_log2; [lia|].
    assert (Z.log2 r < 10) by (apply Z.log2_lt_pow2; lia). lia.
Qed.




(** ** The record codec *)

Section StringFacts.

Lemma substring_0_append (a b : string) :
  String.substring 0 (String.length a) (a +:+ b) = a.
Proof. induction a as [|c a IH]; simpl; [now destruct b|now rewrite IH]. Qed.

Lemma substring_skip_append (a b : string) :
  String.substring (String.length a) (String.length b) (a +:+ b) = b.
Proof.
  induction a as [|c a IH]; [|exact IH].
  change (String.substring 0 (String.length b) b = b).
  induction b as [|c b IH]; simpl; [reflexivity|now rewrite IH].
Qed.

Lemma length_append (a b : string) :
  String.length (a +:+ b) = (String.length a + String.length b)%nat.
Proof. induction a as [|c a IH]; simpl; [reflexivity|now rewrite IH]. Qed.

Lemma endsWith_append (a suffix : string) : endsWith (a +:+ suffix) suffix = true.
Proof.
  unfold endsWith. rewrite length_append.
  replace (String.length a + String.length suffix - String.length suffix)%nat
    with (String.length a) by lia.
  rewrite substring_skip_append, String.eqb_refl, andb_true_r.
  apply Nat.leb_le. lia.
Qed.

Lemma slice_0_neg_append (a suffix : string) :
  slice_0_neg (String.length suffix) (a +:+ suffix) = a.
Proof.
  unfold slice_0_neg. rewrite length_append.
  replace (String.length a + String.length suffix - String.length suffix)%nat
    with (String.length a) by lia.
  apply substring_0_append.
Qed.

End StringFacts.

Section BigIntFacts.

Lemma string_of_uint_digits (d : Decimal.uint) :
  all_digits (NilEmpty.string_of_uint d) = true.
Proof. induction d; simpl; auto. Qed.

Lemma string_of_uint_nonempty (d : Decimal.uint) :
  d <> Decimal.Nil -> NilEmpty.string_of_uint d <> EmptyString.
Proof. destruct d; simpl; congruence. Qed.

Lemma digit_not_white_space (c : ascii) :
  is_digit c = true -> is_white_space c = false /\ (N_of_ascii c < 194)%N.
Proof.
  destruct c as [[] [] [] [] [] [] [] []]; vm_compute; split; congruence.
Qed.

(** A byte below 194 that is no white space starts no white space. *)
Lemma trim_start_keeps (c : ascii) (s : string) :
  is_white_space c = false -> (N_of_ascii c < 194)%N ->
  trim_start (String c s) = String c s.
Proof.
  intros Hws Hlt. simpl trim_start. rewrite Hws.
  destruct s as [|c2 s2]; [reflexivity|].
  unfold is_white_space_2.
  destruct (N.eqb_spec (N_of_ascii c) 194) as [Heq | _]; [lia|]. cbn [andb].
  destruct s2 as [|c3 s3]; [reflexivity|].
  unfold is_white_space_3. cbn zeta.
  repeat match goal with
         | |- context [(N_of_ascii c =? ?k)%N] =>
           destruct (N.eqb_spec (N_of_ascii c) k) as [Heq | _]; [lia|]
         end.
  reflexivity.
Qed.

Lemma trim_end_cons (c : ascii) (s : string) :
  trim_end (String c s)
  = match trim_start (String c s) with
    | EmptyString => EmptyString
    | _ => String c (trim_end s)
    end.
Proof. reflexivity. Qed.

Lemma trim_end_keeps (c : ascii) (s : string) :
  is_white_space c = false -> (N_of_ascii c < 194)%N ->
  trim_end (String c s) = String c (trim_end s).
Proof.
  intros Hws Hlt. rewrite trim_end_cons.
  now rewrite (trim_start_keeps c s Hws Hlt).
Qed.

Lemma trim_end_digits (s : string) : all_digits s = true -> trim_end s = s.
Proof.
  induction s as [|c s IH]; [reflexivity|].
  cbn [all_digits]. intros [Hc Hs]%andb_true_iff.
  destruct (digit_not_white_space c Hc) as [Hws Hlt].
  now rewrite (trim_end_keeps c s Hws Hlt), (IH Hs).
Qed.

Lemma trim_digits (s : string) : all_digits s = true -> trim s = s.
Proof.
  intros Hs. unfold trim. destruct s as [|c s]; [reflexivity|].
  pose proof Hs as Hall. cbn [all_digits] in Hs.
  apply andb_true_iff in Hs as [Hc Hs].
  destruct (digit_not_white_space c Hc) as [Hws Hlt].
  rewrite (trim_start_keeps c s Hws Hlt). now apply trim_end_digits.
Qed.

Lemma StrIntegerLiteral_digits (s : string) :
  s <> EmptyString -> all_digits s = true ->
  StrIntegerLiteral s = decimal_literal s.
Proof.
  destruct s as [|c s]; [congruence|]. intros _ Hs.
  simpl in Hs. apply andb_true_iff in Hs as [Hc Hs].
  destruct c as [[] [] [] [] [] [] [] []]; try discriminate Hc;
    try reflexivity.
  destruct s as [|c' s]; [reflexivity|].
  simpl in Hs. apply andb_true_iff in Hs as [Hc' _].
  destruct c' as [[] [] [] [] [] [] [] []]; try discriminate Hc';
    reflexivity.
Qed.

Lemma decimal_literal_string_of_uint (d : Decimal.uint) :
  d <> Decimal.Nil ->
  decimal_literal (NilEmpty.string_of_uint d) = Some (Z.of_uint d).
Proof.
  intros Hd. unfold decimal_literal, NilZero.uint_of_string.
  pose proof (string_of_uint_nonempty d Hd) as Hne.
  destruct (NilEmpty.string_of_uint d) eqn:E; [congruence|].
  rewrite <- E, NilEmpty.usu. reflexivity.
Qed.

Lemma trim_minus_digits (s : string) :
  s <> EmptyString -> all_digits s = true ->
  trim (String "-" s) = String "-" s.
Proof.
  intros Hne Hs. unfold trim.
  rewrite (trim_start_keeps "-" s) by (vm_compute; congruence).
  rewrite (trim_end_keeps "-" s) by (vm_compute; congruence).
  now rewrite (trim_end_digits s Hs).
Qed.

(** A bigint is read back from its decimal text. *)
Lemma BigInt_toString_inv (n : Z) : BigInt (BigInt_toString n) = Return n.
Proof.
  unfold BigInt, BigInt_toString.
  destruct n as [|p|p]; [reflexivity| |].
  - pose proof (DecimalPos.Unsigned.to_uint_nonnil p) as Hd.
    simpl Z.to_int. simpl NilZero.string_of_int.
    replace (NilZero.string_of_uint (Pos.to_uint p))
      with (NilEmpty.string_of_uint (Pos.to_uint p))
      by (unfold NilZero.string_of_uint; now destruct (Pos.to_uint p)).
    rewrite trim_digits by apply string_of_uint_digits.
    rewrite StrIntegerLiteral_digits
      by (auto using string_of_uint_nonempty, string_of_uint_digits).
    rewrite decimal_literal_string_of_uint by assumption.
    change (Z.of_uint (Pos.to_uint p)) with (Z.of_int (Z.to_int (Z.pos p))).
    now rewrite DecimalZ.of_to.
  - pose proof (DecimalPos.Unsigned.to_uint_nonnil p) as Hd.
    simpl Z.to_int. simpl NilZero.string_of_int.
    replace (NilZero.string_of_uint (Pos.to_uint p))
      with (NilEmpty.string_of_uint (Pos.to_uint p))
      by (unfold NilZero.string_of_uint; now destruct (Pos.to_uint p)).
    rewrite trim_minus_digits
      by (auto using string_of_uint_nonempty, string_of_uint_digits).
    change (StrIntegerLiteral (String "-" (NilEmpty.string_of_uint (Pos.to_uint p))))
      with (Z.opp <$> decimal_literal (NilEmpty.string_of_uint (Pos.to_uint p))).
    rewrite decimal_literal_string_of_uint by assumption.
    change (Z.opp <$> Some (Z.of_uint (Pos.to_uint p)))
      with (Some (Z.of_int (Z.to_int (Z.neg p)))).
    now rewrite DecimalZ.of_to.
Qed.

End BigIntFacts.

Section Codec.

(** Induction on a value, with the elements of an array and the values of
    the properties of an object as induction hypotheses. *)
Lemma value_ind (P : JSON.value -> Prop) :
  P JSON.Null ->
  (forall b, P (JSON.Boolean b)) ->
  (forall n, P (JSON.Number n)) ->
  (forall n, P (JSON.Bigint n)) ->
  (forall s, P (JSON.Str s)) ->
  (forall xs, Forall P xs -> P (JSON.Array xs)) ->
  (forall ps, Forall (fun p => P (snd p)) ps -> P (JSON.Object ps)) ->
  forall v, P v.
Proof.
  intros Hnull Hbool Hnum Hbig Hstr Harr Hobj.
  fix IH 1. intros [| b | n | n | s | xs | ps].
  - exact Hnull.
  - apply Hbool.
  - apply Hnum.
  - apply Hbig.
  - apply Hstr.
  - apply Harr. induction xs as [|v xs IHxs]; constructor; [apply IH|exact IHxs].
  - apply Hobj. induction ps as [|[k v] ps IHps]; constructor;
      [apply IH|exact IHps].
Qed.

Lemma mapM_cons {A B : Type} (f : A -> result B) (a : A) (l : list A) :
  mapM f (a :: l) = (b ← f a; k ← mapM f l; Return (b :: k)).
Proof. reflexivity. Qed.

(** What the reviver leaves alone. *)
Lemma reviver_plain (s : string) :
  JSON.is_tagged s = false -> JSON.reviver (JSON.Str s) = Return (JSON.Str s).
Proof.
  unfold JSON.is_tagged, JSON.reviver. intros H.
  repeat (apply orb_false_iff in H as [H ?]).
  repeat match goal with E : _ = false |- _ => rewrite E; clear E end.
  reflexivity.
Qed.

Lemma reviver_bigint (n : Z) :
  JSON.reviver (JSON.Str (BigInt_toString n +:+ "BigInt_t"))
  = Return (JSON.Bigint n).
Proof.
  unfold JSON.reviver. rewrite endsWith_append.
  pose proof (slice_0_neg_append (BigInt_toString n) "BigInt_t") as H.
  change (String.length "BigInt_t") with 8%nat in H.
  now rewrite H, BigInt_toString_inv.
Qed.

(** The two walks are inverse on a value without tagged strings: the
    document of the value is written, and the value is read back from it. *)
Lemma stringify_parse (v : JSON.value) :
  JSON.plain_strings v = true ->
  exists doc, JSON.stringify v = Return doc /\ JSON.parse doc = Return v.
Proof.
  induction v as [| b | n | n | s | xs IH | ps IH] using value_ind; intros Hv.
  - exists JSON.Null. split; reflexivity.
  - exists (JSON.Boolean b). split; reflexivity.
  - destruct n.
    + eexists. split; reflexivity.
    + exists (JSON.Str "Infinity_t"). split; reflexivity.
    + exists (JSON.Str "-Infinity_t"). split; reflexivity.
    + exists (JSON.Str "NaN_t"). split; reflexivity.
  - eexists. split; [reflexivity|]. apply reviver_bigint.
  - exists (JSON.Str s). split; [reflexivity|].
    apply reviver_plain. simpl in Hv. now apply negb_true_iff.
  - assert (exists docs, mapM JSON.stringify xs = Return docs
                         /\ mapM JSON.parse docs = Return xs) as (docs & H1 & H2).
    { simpl in Hv. induction IH as [|v xs Hx _ IHxs].
      - exists []. split; reflexivity.
      - simpl in Hv. apply andb_true_iff in Hv as [Hv1 Hv2].
        destruct (Hx Hv1) as (d & Hd1 & Hd2).
        destruct (IHxs Hv2) as (ds & Hds1 & Hds2).
        exists (d :: ds). rewrite !mapM_cons, Hd1, Hd2, Hds1, Hds2.
        split; reflexivity. }
    exists (JSON.Array docs). split.
    + simpl. fold (mapM JSON.stringify xs). now rewrite H1.
    + simpl. fold (mapM JSON.parse docs). now rewrite H2.
  - set (f := fun p : string * JSON.value =>
                x ← JSON.stringify (snd p); Return (fst p, x)).
    set (g := fun p : string * JSON.value =>
                x ← JSON.parse (snd p); Return (fst p, x)).
    assert (exists docs, mapM f ps = Return docs
                         /\ mapM g docs = Return ps) as (docs & H1 & H2).
    { simpl in Hv. induction IH as [|[k v] ps Hx _ IHps].
      - exists []. split; reflexivity.
      - simpl in Hv. apply andb_true_iff in Hv as [Hv1 Hv2].
        destruct (Hx Hv1) as (d & Hd1 & Hd2). cbn [snd] in Hd1, Hd2.
        destruct (IHps Hv2) as (ds & Hds1 & Hds2).
        exists ((k, d) :: ds). rewrite !mapM_cons.
        change (f (k, v)) with (x ← JSON.stringify v; Return (k, x)).
        change (g (k, d)) with (x ← JSON.parse d; Return (k, x)).
        rewrite Hd1, Hd2, Hds1, Hds2.
        split; reflexivity. }
    exists (JSON.Object docs). split.
    + simpl. fold f. fold (mapM f ps). now rewrite H1.
    + simpl. fold g. fold (mapM g docs). now rewrite H2.
Qed.

End Codec.

(** C3, as amended.  Decoding what was encoded gives the value back, for
    every value (so for every EntityEntry and PlayerEntry) made of JSON
    values, bigints and numbers that are not finite, in which no string
    ends in the tag [BigInt_t] or is one of the three sentinels. *)
Theorem record_codec_round_trip (v : JSON.value) :
  JSON.plain_strings v = true ->
  (doc ← JSON.stringify v; JSON.parse doc) = Return v.
Proof.
  intros Hv. destruct (stringify_parse v Hv) as (doc & H1 & H2).
  rewrite H1. exact H2.
Qed.

Lemma record_codec_round_trip_witness :
  (doc ← JSON.stringify (EntityEntry_value example_entry); JSON.parse doc)
  = Return (EntityEntry_value example_entry).
Proof.
  apply (record_codec_round_trip (EntityEntry_value example_entry)).
  vm_compute. reflexivity.
Defined.

(** C3 as stated fails: a string is a JSON value, and one that ends in the
    tag is read back as a bigint. *)
Lemma record_codec_tagged_string :
  (doc ← JSON.stringify (EntityEntry_value tagged_entry); JSON.parse doc)
  = Return (EntityEntry_value tagged_entry_read_back)
  /\ EntityEntry_value tagged_entry_read_back <> EntityEntry_value tagged_entry.
Proof. split; [vm_compute; reflexivity|discriminate]. Qed.

(** The view of an entry's object as an entry is the entry. *)
Lemma as_entries_entries {K : Type} (key : K -> JSON.value)
    (view : JSON.value -> option K) (m : list (K * JSON.value)) :
  (forall k, view (key k) = Some k) ->
  as_entries view (entries key m) = Some m.
Proof.
  intros Hview. unfold as_entries, entries. cbn [as_array mbind option_bind].
  induction m as [|[k v] m IH]; [reflexivity|].
  cbn [map fst snd]. cbn [mapM]. rewrite Hview. cbn [mbind option_bind].
  cbn [mapM] in IH. rewrite IH. reflexivity.
Qed.

Lemma mapM_as_string (l : list string) : mapM as_string (map JSON.Str l) = Some l.
Proof.
  induction l as [|s l IH]; [reflexivity|].
  cbn [map]. cbn [mapM as_string mbind option_bind]. cbn [mapM] in IH.
  rewrite IH. reflexivity.
Qed.

Lemma as_EntityEntry_value (e : EntityEntry) :
  as_EntityEntry (EntityEntry_value e) = Some e.
Proof.
  destruct e as [uid ident [px py pz] [ryaw rpitch rhead] comps trs meta flgs attrs].
  unfold as_EntityEntry, EntityEntry_value, EntityEntry_properties.
  cbn [as_object mbind option_bind property String.eqb Ascii.eqb Bool.eqb
       entry_uniqueId entry_identifier entry_position entry_rotation
       entry_components entry_traits entry_metadata entry_flags
       entry_attributes as_bigint as_string as_array].
  unfold as_Vector3f, as_Rotation, Vector3f_value, Rotation_value.
  cbn [as_object mbind option_bind property String.eqb Ascii.eqb Bool.eqb
       as_number x y z yaw pitch headYaw].
  rewrite !(as_entries_entries JSON.Str as_string) by reflexivity.
  rewrite !(as_entries_entries integer as_integer) by reflexivity.
  rewrite mapM_as_string. reflexivity.
Qed.

(** ** The entity store *)

Lemma stringify_total (v : JSON.value) : exists doc, JSON.stringify v = Return doc.
Proof.
  induction v as [| b | n | n | s | xs IH | ps IH] using value_ind.
  - eexists; reflexivity.
  - eexists; reflexivity.
  - destruct n; eexists; reflexivity.
  - eexists; reflexivity.
  - eexists; reflexivity.
  - assert (exists docs, mapM JSON.stringify xs = Return docs) as [docs Hd].
    { induction IH as [|v xs [d Hd] _ [ds Hds]]; [eexists; reflexivity|].
      exists (d :: ds). now rewrite mapM_cons, Hd, Hds. }
    exists (JSON.Array docs). simpl. fold (mapM JSON.stringify xs).
    now rewrite Hd.
  - set (f := fun p : string * JSON.value =>
                x ← JSON.stringify (snd p); Return (fst p, x)).
    assert (exists docs, mapM f ps = Return docs) as [docs Hd].
    { induction IH as [|[k v] ps [d Hd] _ [ds Hds]]; [eexists; reflexivity|].
      exists ((k, d) :: ds). rewrite mapM_cons.
      change (f (k, v)) with (x ← JSON.stringify v; Return (k, x)).
      cbn [snd] in Hd. now rewrite Hd, Hds. }
    exists (JSON.Object docs). simpl. fold f. fold (mapM f ps).
    now rewrite Hd.
Qed.

Lemma bytes_of_length (e : Endianness) (w : nat) (v : Z) :
  length (BinaryStream.bytes_of e w v) = w.
Proof.
  unfold BinaryStream.bytes_of, BinaryStream.bytes_le.
  destruct e; rewrite ?length_rev, length_map, length_seq; reflexivity.
Qed.

Lemma buildActorDataKey_length (uniqueId : Z) :
  length (buildActorDataKey uniqueId) = 19%nat.
Proof.
  unfold buildActorDataKey. stream_steps.
  rewrite length_app, bytes_of_length. reflexivity.
Qed.

Lemma buildActorListKey_length (index : Z) :
  length (buildActorListKey index) = if decide (index = 0) then 4%nat else 8%nat.
Proof.
  unfold buildActorListKey.
  destruct (decide (index = 0)) as [->|Hne];
    [destruct (decide (0 <> 0)); [contradiction|]
    |destruct (decide (index <> 0)); [|contradiction]];
    stream_steps; rewrite ?length_app, !bytes_of_length; reflexivity.
Qed.

(** The key of a record is never the key of a list of ids. *)
Lemma actor_keys_differ (uniqueId index : Z) :
  buildActorDataKey uniqueId <> buildActorListKey index.
Proof.
  intros Heq. apply (f_equal length) in Heq.
  rewrite buildActorDataKey_length, buildActorListKey_length in Heq.
  destruct (decide (index = 0)); discriminate.
Qed.

(** The list of ids depends on the store through its key alone. *)
Lemma readAvailableEntities_put (index : Z) (key : list Z) (b : Buffer)
    (d d' : Leveldb) :
  key <> buildActorListKey index ->
  Leveldb_put key b d = Return d' ->
  readAvailableEntities index d' = readAvailableEntities index d.
Proof.
  intros Hne Hput. unfold Leveldb_put in Hput.
  destruct (closed d) eqn:Hc; [discriminate|]. injection Hput as <-.
  unfold readAvailableEntities, Leveldb_get. cbn [closed entries_of].
  rewrite Hc, lookup_insert_ne by assumption. reflexivity.
Qed.

(** [writeEntity] stores the record and leaves the list of ids as it found
    it: an id that was missing from the list is still missing. *)
Lemma writeEntity_leaves_list (entity : EntityEntry) (index : Z) (d : Leveldb) :
  closed d = false ->
  exists d' doc,
    writeEntity entity index d = Return d'
    /\ entries_of d' !! buildActorDataKey (entry_uniqueId entity) = Some (Text doc)
    /\ readAvailableEntities index d' = readAvailableEntities index d.
Proof.
  intros Hopen. unfold writeEntity.
  destruct (stringify_total (EntityEntry_value entity)) as [doc Hdoc].
  rewrite Hdoc. cbn [mbind result_bind].
  assert (Hput : Leveldb_put (buildActorDataKey (entry_uniqueId entity))
                   (Text doc) d
                 = Return {| entries_of :=
                               <[buildActorDataKey (entry_uniqueId entity) := Text doc]>
                                 (entries_of d);
                             closed := false |})
    by (unfold Leveldb_put; now rewrite Hopen).
  eexists _, doc. split; [exact Hput|]. split.
  - cbn [entries_of]. apply lookup_insert_eq.
  - eapply readAvailableEntities_put; [apply actor_keys_differ|exact Hput].
Qed.

(** One turn of the loop of [readAvailableEntities] after another: the
    array holds the integers that the rest of the buffer holds in full, and
    the fuel is never used up. *)
Lemma read_unique_ids_spec (fuel : nat) (stream : BinaryStream.t) (acc : list Z) :
  (length (drop (BinaryStream.offset stream) (BinaryStream.binary stream)) < fuel)%nat ->
  snd (read_unique_ids fuel stream acc)
  = acc ++ int64_le_sequence
             (drop (BinaryStream.offset stream) (BinaryStream.binary stream))
  /\ fst (read_unique_ids fuel stream acc) <> Throw "out of fuel".
Proof.
  revert stream acc. induction fuel as [|fuel IH]; intros [binary offset] acc Hfuel;
    [lia|].
  cbn [BinaryStream.offset BinaryStream.binary] in *.
  cbn [read_unique_ids]. unfold BinaryStream.readInt64, BinaryStream.read.
  cbn [BinaryStream.offset BinaryStream.binary].
  remember (drop offset binary) as rest eqn:Hrest.
  destruct (Nat.leb_spec 8 (length rest)) as [Hlen | Hlen].
  - destruct rest as [|b0 [|b1 [|b2 [|b3 [|b4 [|b5 [|b6 [|b7 rest']]]]]]]];
      try (cbn [length] in Hlen; lia).
    cbn [mbind result_bind take].
    unfold BinaryStream.cursorAtEnd. cbn [BinaryStream.offset BinaryStream.binary].
    assert (Hrest' : drop (offset + 8) binary = rest').
    { rewrite <- drop_drop, <- Hrest. reflexivity. }
    destruct (Nat.leb_spec (length binary) (offset + 8)) as [Hend | Hmore].
    + cbn [negb snd fst]. rewrite drop_ge in Hrest' by exact Hend. subst rest'.
      rewrite take_0. split; [reflexivity|discriminate].
    + cbn [negb].
      specialize (IH {| BinaryStream.binary := binary;
                        BinaryStream.offset := offset + 8 |}
                     (acc ++ [BinaryStream.signed 64
                                (BinaryStream.unsigned_le
                                   [b0; b1; b2; b3; b4; b5; b6; b7])])).
      cbn [BinaryStream.offset BinaryStream.binary] in IH.
      rewrite Hrest' in IH. cbn [length] in Hfuel.
      destruct IH as [IH1 IH2]; [lia|].
      rewrite take_0. split; [|exact IH2]. rewrite IH1, <- app_assoc. reflexivity.
  - cbn [snd fst].
    assert (Hnone : int64_le_sequence rest = []).
    { destruct rest as [|b0 [|b1 [|b2 [|b3 [|b4 [|b5 [|b6 [|b7 rest']]]]]]]];
        try reflexivity. cbn [length] in Hlen. lia. }
    rewrite Hnone, app_nil_r. split; [reflexivity|discriminate].
Qed.

(** On an open store, the list read is the sequence of the integers that
    the stored bytes hold in full.  For bytes that hold whole integers,
    at least one, that is the stored sequence; for bytes with a tail of
    fewer than eight bytes it is the integers before the tail. *)
Lemma readAvailableEntities_bytes (index : Z) (d : Leveldb) (bs : list Z) :
  closed d = false ->
  entries_of d !! buildActorListKey index = Some (Bytes bs) ->
  readAvailableEntities index d = int64_le_sequence bs.
Proof.
  intros Hopen Hbytes. unfold readAvailableEntities, Leveldb_get.
  rewrite Hopen, Hbytes. cbn [mbind result_bind stream_of].
  pose proof (read_unique_ids_spec
                (S (length (BinaryStream.binary (BinaryStream.from bs))))
                (BinaryStream.from bs) []) as [Hspec _].
  { cbn [BinaryStream.from BinaryStream.offset BinaryStream.binary].
    rewrite drop_0. lia. }
  destruct (read_unique_ids _ _ _) as [[u|e] ids]; cbn [snd] in Hspec;
    rewrite Hspec; reflexivity.
Qed.

(** The bytes of a value are the value modulo the width. *)
Lemma unsigned_le_bytes (v : Z) (k w : nat) :
  BinaryStream.unsigned_le (map (BinaryStream.byte_at v) (seq k w))
  = Z.land (Z.shiftr v (8 * Z.of_nat k)) (Z.ones (8 * Z.of_nat w)).
Proof.
  revert k. induction w as [|w IH]; intros k.
  - cbn [seq map BinaryStream.unsigned_le]. now rewrite Z.land_0_r.
  - cbn [seq map BinaryStream.unsigned_le]. rewrite IH.
    unfold BinaryStream.byte_at. change 255 with (Z.ones 8).
    apply Z.bits_inj'. intros n Hn.
    rewrite Z.lor_spec, !Z.land_spec, !Z.shiftr_spec by lia.
    destruct (Z.ltb_spec n 8).
    + rewrite Z.shiftl_spec_low by lia.
      rewrite !Z.ones_spec_low by lia. now rewrite orb_false_r.
    + rewrite (Z.ones_spec_high 8 n) by lia. rewrite andb_false_r, orb_false_l.
      rewrite Z.shiftl_spec, Z.land_spec, Z.shiftr_spec by lia.
      replace (n - 8 + 8 * Z.of_nat (S k)) with (n + 8 * Z.of_nat k) by lia.
      f_equal.
      destruct (Z.ltb_spec n (8 * Z.of_nat (S w))).
      * rewrite !Z.ones_spec_low by lia. reflexivity.
      * rewrite !Z.ones_spec_high by lia. reflexivity.
Qed.

(** A 64-bit integer is read back from its eight bytes. *)
Lemma int64_bytes_inv (v : Z) :
  - 2 ^ 63 <= v < 2 ^ 63 ->
  BinaryStream.signed 64
    (BinaryStream.unsigned_le (BinaryStream.bytes_of Little 8 v)) = v.
Proof.
  intros Hv. unfold BinaryStream.bytes_of, BinaryStream.bytes_le.
  rewrite unsigned_le_bytes. change (8 * Z.of_nat 0) with 0.
  change (8 * Z.of_nat 8) with 64.
  rewrite Z.shiftr_0_r, Z.land_ones by lia.
  unfold BinaryStream.signed. change (64 - 1) with 63.
  change (Z.shiftl 1 64) with (2 ^ 64).
  change (2 ^ 64) with 18446744073709551616 in *.
  change (2 ^ 63) with 9223372036854775808 in *.
  destruct (Z.testbit (v mod 18446744073709551616) 63) eqn:Hbit.
  - apply Z.testbit_true in Hbit; [|lia].
    change (2 ^ 63) with 9223372036854775808 in Hbit.
    destruct (Z.neg_nonneg_cases v) as [Hneg | Hpos].
    + rewrite <- (Z.mod_add v 1 18446744073709551616) by lia.
      rewrite Z.mod_small by lia. lia.
    + rewrite (Z.mod_small v) in Hbit by lia.
      rewrite Z.div_small in Hbit by lia. discriminate.
  - destruct (Z.neg_nonneg_cases v) as [Hneg | Hpos];
      [|apply Z.mod_small; lia].
    exfalso. assert (Hone : Z.testbit (v mod 18446744073709551616) 63 = true);
      [|congruence].
    apply Z.testbit_true; [lia|].
    change (2 ^ 63) with 9223372036854775808.
    rewrite <- (Z.mod_add v 1 18446744073709551616) by lia.
    rewrite (Z.mod_small (v + 1 * 18446744073709551616)) by lia.
    replace (v + 1 * 18446744073709551616)
      with ((v + 9223372036854775808) + 1 * 9223372036854775808) by lia.
    rewrite Z.div_add by lia. rewrite Z.div_small by lia. reflexivity.
Qed.

Lemma int64_le_sequence_cons (v : Z) (rest : list Z) :
  int64_le_sequence (BinaryStream.bytes_of Little 8 v ++ rest)
  = BinaryStream.signed 64
      (BinaryStream.unsigned_le (BinaryStream.bytes_of Little 8 v))
    :: int64_le_sequence rest.
Proof. reflexivity. Qed.

Lemma writeInt64_fold (ids : list Z) (s : BinaryStream.t) :
  BinaryStream.getBuffer
    (fold_left (fun stream uniqueId =>
                  BinaryStream.writeInt64 uniqueId Little stream) ids s)
  = BinaryStream.binary s ++ concat (map (BinaryStream.bytes_of Little 8) ids).
Proof.
  revert s. induction ids as [|v ids IH]; intros s.
  - cbn [fold_left map concat]. now rewrite app_nil_r.
  - cbn [fold_left map concat]. rewrite IH.
    unfold BinaryStream.writeInt64, BinaryStream.write.
    cbn [BinaryStream.binary]. now rewrite <- app_assoc.
Qed.

Lemma int64_le_sequence_concat (ids : list Z) :
  Forall (fun v => - 2 ^ 63 <= v < 2 ^ 63) ids ->
  int64_le_sequence (concat (map (BinaryStream.bytes_of Little 8) ids)) = ids.
Proof.
  induction 1 as [|v ids Hv _ IH]; [reflexivity|].
  cbn [map concat]. rewrite int64_le_sequence_cons, IH.
  now rewrite int64_bytes_inv.
Qed.

(** The list of ids that [writeAvailableEntities] stores is the list that
    [readAvailableEntities] reads, for ids of 64 bits. *)
Lemma readAvailableEntities_after_write (index : Z) (ids : list Z)
    (d d' : Leveldb) :
  Forall (fun v => - 2 ^ 63 <= v < 2 ^ 63) ids ->
  writeAvailableEntities index ids d = Return d' ->
  readAvailableEntities index d' = ids.
Proof.
  intros Hids Hwrite. unfold writeAvailableEntities, Leveldb_put in Hwrite.
  destruct (closed d) eqn:Hopen; [discriminate|]. injection Hwrite as <-.
  rewrite (readAvailableEntities_bytes index _
             (concat (map (BinaryStream.bytes_of Little 8) ids))).
  - now apply int64_le_sequence_concat.
  - reflexivity.
  - cbn [entries_of]. rewrite lookup_insert_eq, writeInt64_fold. reflexivity.
Qed.

(** Where the list already holds the id, the entry written is the entry
    read: the record itself is stored as the claim says, it is the list that
    [writeEntity] leaves behind. *)
Lemma readEntity_after_writeEntity (entity : EntityEntry) (index : Z)
    (d d' : Leveldb) :
  includes (entry_uniqueId entity) (readAvailableEntities index d) = true ->
  JSON.plain_strings (EntityEntry_value entity) = true ->
  writeEntity entity index d = Return d' ->
  readEntity (entry_uniqueId entity) index d' = Return (EntityEntry_value entity).
Proof.
  intros Hlisted Hplain Hwrite.
  destruct (stringify_parse _ Hplain) as (doc & Hdoc & Hparse).
  unfold writeEntity in Hwrite. rewrite Hdoc in Hwrite.
  cbn [mbind result_bind] in Hwrite.
  pose proof (readAvailableEntities_put index _ _ d d'
                (actor_keys_differ (entry_uniqueId entity) index) Hwrite) as Hlist.
  unfold Leveldb_put in Hwrite. destruct (closed d) eqn:Hopen; [discriminate|].
  injection Hwrite as <-.
  unfold readEntity. rewrite Hlist, Hlisted. cbn [negb].
  unfold Leveldb_get. cbn [closed entries_of]. rewrite lookup_insert_eq.
  cbn [mbind result_bind document_of]. exact Hparse.
Qed.

(** C1, on a store that holds nothing: [writeEntity] returns, the record is
    under its key, but the list of ids is still empty and [readEntity] of
    the id that was just written throws its not-found error. *)
Theorem writeEntity_then_readEntity_not_found :
  exists d',
    writeEntity (bare_entry 1 "minecraft:cow") 0 empty_db = Return d'
    /\ is_Some (entries_of d' !! buildActorDataKey 1)
    /\ readAvailableEntities 0 d' = []
    /\ readEntity 1 0 d' = Throw "Entity with unique id 1 not found!".
Proof.
  eexists. split; [vm_compute; reflexivity|].
  split; [eexists; vm_compute; reflexivity|].
  split; vm_compute; reflexivity.
Qed.

(** C7, on a store whose list of ids holds twelve bytes, the id 1 and half
    of another one: the first read succeeds, the second throws, and the
    [catch] block returns the array with the id 1 already in it, not the
    empty list. *)
Theorem readAvailableEntities_malformed_tail :
  readAvailableEntities 0
    {| entries_of :=
         {[ buildActorListKey 0 := Bytes [1; 0; 0; 0; 0; 0; 0; 0; 2; 0; 0; 0] ]};
       closed := false |}
  = [1].
Proof. vm_compute. reflexivity. Qed.

(** Nothing is read from a store that has been closed. *)
Lemma get_after_close (key : list Z) (d : Leveldb) :
  throws (Leveldb_get key (Leveldb_close d)) = true.
Proof. reflexivity. Qed.

(** Where the list of ids is absent, or the store fails, the list read is
    empty. *)
Lemma readAvailableEntities_absent (index : Z) (d : Leveldb) :
  entries_of d !! buildActorListKey index = None \/ closed d = true ->
  readAvailableEntities index d = [].
Proof.
  intros Hd. unfold readAvailableEntities, Leveldb_get.
  destruct (closed d); [reflexivity|].
  destruct Hd as [-> | Hd]; [reflexivity|discriminate].
Qed.

(** ** Entities *)

(** C10. A rejected [load] changes nothing.  When the unique id or the
    identifier of the entry differs from the entity's, [load] throws and
    the entity (position, rotation, components, traits, metadata, flags,
    attributes and every other field) and the logger are what they were
    before the call. *)
Theorem load_rejected_leaves_entity (palette : Entity.Palette)
    (entry : EntityEntry) (overwrite : bool) (self : Entity.Self) :
  entry_uniqueId entry <> Entity.uniqueId (Entity.this self)
  \/ entry_identifier entry
     <> type_identifier (Entity.type (Entity.this self)) ->
  exists message, Entity.load palette entry overwrite self = (Throw message, self).
Proof.
  intros Hmismatch. unfold Entity.load, mbind, M_bind, gets. cbn beta iota.
  destruct (decide (entry_uniqueId entry <> Entity.uniqueId (Entity.this self)))
    as [Hid | Hid]; [eexists; reflexivity|].
  destruct Hmismatch as [Hm | Hm]; [contradiction|].
  destruct (String.eqb_spec (entry_identifier entry)
              (type_identifier (Entity.type (Entity.this self))))
    as [Heq | Hne]; [contradiction|].
  eexists; reflexivity.
Qed.

Lemma load_rejected_leaves_entity_witness :
  exists message,
    Entity.load sample_palette (bare_entry 6 "minecraft:cow") true
      {| Entity.this := sample_entity; Entity.logger := [] |}
    = (Throw message, {| Entity.this := sample_entity; Entity.logger := [] |}).
Proof.
  apply (load_rejected_leaves_entity sample_palette
           (bare_entry 6 "minecraft:cow") true
           {| Entity.this := sample_entity; Entity.logger := [] |}).
  left. simpl. lia.
Defined.

(** An accepted [load] does change the entity: the theorem above is not
    about a method that never writes. *)
Example load_accepted_changes_entity :
  exists self',
    Entity.load sample_palette (bare_entry 5 "minecraft:cow") true
      {| Entity.this := sample_entity; Entity.logger := [] |}
    = (Return (), self')
    /\ Entity.position (Entity.this self') = origin
    /\ Entity.components (Entity.this self') = [].
Proof. eexists. split; [vm_compute; reflexivity|]. split; reflexivity. Qed.

(** ** Startup *)

Lemma for_each_app {S A : Type} (body : A -> M S unit) (l1 l2 : list A) (s : S) :
  for_each body (l1 ++ l2) s
  = match for_each body l1 s with
    | (Return _, s1) => for_each body l2 s1
    | (Throw e, s1) => (Throw e, s1)
    end.
Proof.
  revert s. induction l1 as [|a l1 IH]; intros s; [reflexivity|].
  cbn [app for_each]. unfold mbind, M_bind.
  destruct (body a s) as [[[]|e] s']; [apply IH|reflexivity].
Qed.

(** A method of an entity reaches the world through the logger alone. *)
Lemma method_frame {A : Type} (e : Entity.t) (m : M Entity.Self A)
    (w : Entity.World) :
  Entity.dimension_entities (snd (Entity.method e m w)) = Entity.dimension_entities w
  /\ Entity.world_db (snd (Entity.method e m w)) = Entity.world_db w.
Proof. unfold Entity.method. destruct (m _) as [r s]. split; reflexivity. Qed.

(** Building an entity spawns nothing and writes nothing to the store. *)
Lemma new_frame (palette : Entity.Palette) (index : Z) (name : string)
    (properties : Entity.EntityProperties) (w : Entity.World) :
  Entity.dimension_entities (snd (Entity.new palette index name properties w))
  = Entity.dimension_entities w
  /\ Entity.world_db (snd (Entity.new palette index name properties w))
     = Entity.world_db w.
Proof.
  unfold Entity.new, mbind, M_bind, Entity.next_runtimeId. cbn beta iota.
  destruct (Entity.EntityType_get palette name) as [ty|]; [|split; reflexivity].
  unfold gets. cbn beta iota.
  match goal with |- context [if Entity.isPlayer ?e then _ else _] =>
    destruct (Entity.isPlayer e) end; [split; reflexivity|].
  match goal with |- context [Entity.method ?e ?m ?w'] =>
    pose proof (method_frame e m w') as [H1 H2];
    destruct (Entity.method e m w') as [[[u e']|reason] w''] end;
    cbn [snd] in *; split; assumption.
Qed.

(** The hooks of the traits are run inside [try] blocks: the loop over them
    returns. *)
Lemma spawn_traits_return (palette : Entity.Palette) (l : list string)
    (self : Entity.Self) :
  exists self', for_each (Entity.spawn_trait palette) l self = (Return (), self').
Proof.
  revert self. induction l as [|i l IH]; intros self; [eexists; reflexivity|].
  cbn [for_each]. unfold mbind, M_bind.
  assert (exists s1, Entity.spawn_trait palette i self = (Return (), s1)) as [s1 ->].
  { unfold Entity.spawn_trait, mbind, M_bind, gets. cbn beta iota.
    destruct (Entity.attached_trait palette (Entity.this self) i) as [trait|];
      [|eexists; reflexivity].
    unfold try_catch.
    destruct (Entity.trait_onSpawn trait (Entity.this self));
      eexists; reflexivity. }
  apply IH.
Qed.

Lemma spawn_returns (palette : Entity.Palette) (e : Entity.t) (w : Entity.World) :
  exists w', Entity.spawn palette e w = (Return (), w').
Proof.
  unfold Entity.spawn, mbind, M_bind, Entity.method.
  destruct (spawn_traits_return palette (Entity.traits e)
              {| Entity.this := Entity.set_isAlive true e;
                 Entity.logger := Entity.world_logger w |}) as [self' ->].
  eexists. reflexivity.
Qed.

(** The traits never make a method throw, and the log only grows. *)
Lemma addTrait_log (palette : Entity.Palette) (trait : Entity.TraitType)
    (self : Entity.Self) :
  exists self' lines,
    Entity.addTrait palette trait self = (Return (), self')
    /\ Entity.logger self' = Entity.logger self ++ lines.
Proof.
  unfold Entity.addTrait, mbind, M_bind, gets. cbn beta iota.
  destruct (Entity.hasTrait _ _).
  { exists self, []. now rewrite app_nil_r. }
  destruct (Entity.traits_get palette _); cbn beta iota;
    unfold try_catch, Entity.log, modify, mret, M_ret;
    cbn [Entity.this Entity.logger];
    destruct (Entity.trait_new trait (Entity.this self));
    eexists _, _; (split; [reflexivity|]); cbn [Entity.logger];
    rewrite <- ?app_assoc; try reflexivity.
  symmetry. apply app_nil_r.
Qed.

Lemma addTrait_returns (palette : Entity.Palette) (trait : Entity.TraitType)
    (self : Entity.Self) :
  exists self', Entity.addTrait palette trait self = (Return (), self').
Proof. destruct (addTrait_log palette trait self) as (s & l & Hs & _). eauto. Qed.

Lemma load_trait_log (palette : Entity.Palette) (trait : string)
    (self : Entity.Self) :
  exists self' lines,
    Entity.load_trait palette trait self = (Return (), self')
    /\ Entity.logger self' = Entity.logger self ++ lines.
Proof.
  unfold Entity.load_trait.
  destruct (Entity.traits_get palette trait); [apply addTrait_log|].
  eexists _, _. split; reflexivity.
Qed.

Lemma for_each_log {A : Type} (body : A -> M Entity.Self unit) (l : list A) :
  (forall a self, exists self' lines,
      body a self = (Return (), self')
      /\ Entity.logger self' = Entity.logger self ++ lines) ->
  forall self, exists self' lines,
    for_each body l self = (Return (), self')
    /\ Entity.logger self' = Entity.logger self ++ lines.
Proof.
  intros Hbody. induction l as [|a l IH]; intros self.
  { exists self, []. split; [reflexivity|]. now rewrite app_nil_r. }
  cbn [for_each]. unfold mbind, M_bind.
  destruct (Hbody a self) as (s1 & l1 & -> & Hl1).
  destruct (IH s1) as (s2 & l2 & -> & Hl2).
  exists s2, (l1 ++ l2). split; [reflexivity|].
  now rewrite Hl2, Hl1, app_assoc.
Qed.

Lemma load_traits_return (palette : Entity.Palette) (l : list string)
    (self : Entity.Self) :
  exists self', for_each (Entity.load_trait palette) l self = (Return (), self').
Proof.
  destruct (for_each_log (Entity.load_trait palette) l (load_trait_log palette) self)
    as (s & lines & Hs & _).
  eauto.
Qed.

Lemma addTraits_return (palette : Entity.Palette) (l : list Entity.TraitType)
    (self : Entity.Self) :
  exists self', for_each (Entity.addTrait palette) l self = (Return (), self').
Proof.
  destruct (for_each_log (Entity.addTrait palette) l (addTrait_log palette) self)
    as (s & lines & Hs & _).
  eauto.
Qed.

Lemma load_trait_parsed_log (palette : Entity.Palette) (trait : ParsedTrait)
    (self : Entity.Self) :
  exists self' lines,
    Entity.load_trait_parsed palette trait self = (Return (), self')
    /\ Entity.logger self' = Entity.logger self ++ lines.
Proof.
  destruct trait as [name | text]; [apply load_trait_log|].
  eexists _, _. split; reflexivity.
Qed.

(** Once the identity of the entry is checked and its fields have their
    types, nothing in [load] throws. *)
Lemma load_fields_returns (palette : Entity.Palette) (fields : ParsedFields)
    (overwrite : bool) (self : Entity.Self) :
  exists self', Entity.load_fields palette fields overwrite self = (Return (), self').
Proof.
  unfold Entity.load_fields, mbind, M_bind, Entity.on_this, modify, mret, M_ret.
  cbn beta iota.
  destruct overwrite; cbn beta iota;
    match goal with
    | |- context [for_each (Entity.load_trait_parsed palette) ?l ?s] =>
      destruct (for_each_log (Entity.load_trait_parsed palette) l
                  (load_trait_parsed_log palette) s) as (s' & lines & -> & _)
    end;
    eexists; reflexivity.
Qed.

Section Startup.

Context `{Entity.UntypedFields}.

(** Building an entity from a parsed object spawns nothing and writes
    nothing to the store; the counter of runtime ids advances by one. *)
Lemma new_parsed_frame (palette : Entity.Palette) (index : Z)
    (identifier : option JSON.value) (uniqueId : Z) (entry : JSON.value)
    (w : Entity.World) :
  let w' := snd (Entity.new_parsed palette index identifier uniqueId entry w) in
  Entity.dimension_entities w' = Entity.dimension_entities w
  /\ Entity.world_db w' = Entity.world_db w
  /\ Entity.static_runtimeId w' = Entity.static_runtimeId w + 1
  /\ Entity.clock w' = Entity.clock w.
Proof.
  cbn zeta.
  unfold Entity.new_parsed, mbind, M_bind, Entity.next_runtimeId. cbn beta iota.
  destruct (match identifier with
            | Some (JSON.Str name) => Entity.EntityType_get palette name
            | _ => None
            end) as [ty|]; [|repeat split].
  unfold gets. cbn beta iota.
  match goal with |- context [if Entity.isPlayer ?e then _ else _] =>
    destruct (Entity.isPlayer e) end; [repeat split|].
  match goal with |- context [Entity.method ?e ?m ?w'] =>
    unfold Entity.method;
    destruct (m {| Entity.this := e; Entity.logger := Entity.world_logger w' |})
      as [[u|reason] s] end;
    repeat split.
Qed.

(** A constructor that throws has logged nothing, unless the error is that
    of the part of [load] that is left open: every other throw comes
    before [load] reaches the traits. *)
Lemma new_parsed_throw_logger (palette : Entity.Palette) (index : Z)
    (identifier : option JSON.value) (uniqueId : Z) (entry : JSON.value)
    (w w' : Entity.World) (message : string) :
  Entity.new_parsed palette index identifier uniqueId entry w = (Throw message, w') ->
  Entity.world_logger w' = Entity.world_logger w
  \/ (as_ParsedFields entry = None
      /\ exists self, fst (Entity.load_untyped entry true self) = Throw message).
Proof.
  unfold Entity.new_parsed, mbind, M_bind, Entity.next_runtimeId. cbn beta iota.
  destruct (match identifier with
            | Some (JSON.Str name) => Entity.EntityType_get palette name
            | _ => None
            end) as [ty|]; [|intros [= _ <-]; now left].
  unfold gets. cbn beta iota.
  match goal with |- context [if Entity.isPlayer ?e then _ else _] =>
    destruct (Entity.isPlayer e) end; [discriminate|].
  unfold Entity.method. cbn [Entity.world_logger].
  destruct (truthy entry).
  - unfold Entity.load_parsed at 1. cbn [Entity.this Entity.logger].
    destruct (get FieldUniqueId entry) as [field|reason];
      [|intros [= _ <-]; now left].
    match goal with |- context [if ?b then (Throw _, _) else _] =>
      destruct b end; [intros [= _ <-]; now left|].
    destruct (get FieldIdentifier entry) as [field'|reason];
      [|intros [= _ <-]; now left].
    match goal with |- context [if ?b then (Throw _, _) else _] =>
      destruct b end; [intros [= _ <-]; now left|].
    destruct (as_ParsedFields entry) as [fields|].
    + match goal with |- context [Entity.load_fields palette fields true ?s] =>
        destruct (load_fields_returns palette fields true s) as [s1 ->] end.
      match goal with |- context [for_each (Entity.addTrait palette) ?l s1] =>
        destruct (addTraits_return palette l s1) as [s2 ->] end.
      discriminate.
    + match goal with |- context [Entity.load_untyped entry true ?s] =>
        destruct (Entity.load_untyped entry true s) as [[[]|reason] s1] eqn:Hopen
      end.
      * match goal with |- context [for_each (Entity.addTrait palette) ?l s1] =>
          destruct (addTraits_return palette l s1) as [s2 ->] end.
        discriminate.
      * intros [= -> _]. right. split; [reflexivity|].
        eexists. now rewrite Hopen.
  - unfold mret at 1, M_ret at 1.
    match goal with |- context [for_each (Entity.addTrait palette) ?l ?s] =>
      destruct (addTraits_return palette l s) as [s2 ->] end.
    discriminate.
Qed.

(** The body of the loop for an id whose entry cannot be read or whose
    entity cannot be built: it throws the error of the failing call and
    leaves the world as that call left it. *)
Lemma startup_entity_fails (palette : Entity.Palette) (index uniqueId : Z)
    (w w' : Entity.World) (message : string) :
  (readEntity uniqueId index (Entity.world_db w) = Throw message /\ w' = w)
  \/ (exists entry,
        readEntity uniqueId index (Entity.world_db w) = Return entry
        /\ ((get FieldIdentifier entry = Throw message /\ w' = w)
            \/ exists identifier,
                 get FieldIdentifier entry = Return identifier
                 /\ Entity.new_parsed palette index identifier uniqueId entry w
                    = (Throw message, w'))) ->
  startup_entity palette index uniqueId w = (Throw message, w').
Proof.
  intros [[Hread ->] | (entry & Hread & [[Hget ->] | (identifier & Hget & Hnew)])];
    unfold startup_entity, mbind, M_bind; cbn beta iota; rewrite Hread.
  - reflexivity.
  - now rewrite Hget.
  - now rewrite Hget, Hnew.
Qed.

(** C2, as amended.  [onStartup] has no [try] block and logs nothing of
    its own.  When the dimensions before some dimension and, in that
    dimension, the ids before some id have been loaded, and [readEntity]
    throws for that id, or reading [entry.identifier] or the constructor
    throws on the object it returned, then [onStartup] throws that very
    error and leaves the world as the failing call left it: the entities
    spawned are those spawned before that id, so neither that id, nor the
    ids after it, nor the dimensions after it are loaded; the store is
    untouched; and nothing has been logged for the id, unless the error is
    that of [load] on fields that have not their types. *)
Theorem onStartup_stops_at_failing_id (palette : Entity.Palette)
    (earlier later : list Z) (index : Z) (w0 w w1 w2 : Entity.World)
    (before after : list Z) (failing : Z) (message : string) :
  for_each (startup_dimension palette) earlier w0 = (Return (), w) ->
  readAvailableEntities index (Entity.world_db w) = before ++ failing :: after ->
  for_each (startup_entity palette index) before w = (Return (), w1) ->
  (readEntity failing index (Entity.world_db w1) = Throw message /\ w2 = w1)
  \/ (exists entry,
        readEntity failing index (Entity.world_db w1) = Return entry
        /\ ((get FieldIdentifier entry = Throw message /\ w2 = w1)
            \/ exists identifier,
                 get FieldIdentifier entry = Return identifier
                 /\ Entity.new_parsed palette index identifier failing entry w1
                    = (Throw message, w2))) ->
  onStartup palette (earlier ++ index :: later) w0 = (Throw message, w2)
  /\ Entity.dimension_entities w2 = Entity.dimension_entities w1
  /\ Entity.world_db w2 = Entity.world_db w1
  /\ (Entity.world_logger w2 = Entity.world_logger w1
      \/ exists entry self,
           readEntity failing index (Entity.world_db w1) = Return entry
           /\ as_ParsedFields entry = None
           /\ fst (Entity.load_untyped entry true self) = Throw message).
Proof.
  intros Hearlier Hlist Hbefore Hfails.
  pose proof (startup_entity_fails palette index failing w1 w2 message Hfails)
    as Hbody.
  split.
  { unfold onStartup. rewrite for_each_app, Hearlier.
    cbn [for_each]. unfold mbind at 1, M_bind at 1.
    assert (Hdim : startup_dimension palette index w = (Throw message, w2)).
    { unfold startup_dimension, mbind, M_bind, gets. cbn beta iota.
      rewrite Hlist.
      destruct (decide (length (before ++ failing :: after) = 0%nat)) as [Hlen|_].
      - rewrite length_app in Hlen. simpl in Hlen. lia.
      - rewrite for_each_app, Hbefore. cbn [for_each].
        unfold mbind, M_bind. now rewrite Hbody. }
    now rewrite Hdim. }
  destruct Hfails
    as [[Hread ->] | (entry & Hread & [[Hget ->] | (identifier & Hget & Hnew)])].
  - split; [reflexivity|]. split; [reflexivity|]. now left.
  - split; [reflexivity|]. split; [reflexivity|]. now left.
  - pose proof (new_parsed_frame palette index identifier failing entry w1)
      as Hframe.
    cbn zeta in Hframe. rewrite Hnew in Hframe. cbn [snd] in Hframe.
    destruct Hframe as (Hentities & Hdb & _ & _).
    split; [exact Hentities|]. split; [exact Hdb|].
    destruct (new_parsed_throw_logger palette index identifier failing entry
                w1 w2 message Hnew) as [Hlog | (Hfields & self & Hopen)];
      [now left|right].
    exists entry, self. repeat split; assumption.
Qed.

End Startup.

Lemma onStartup_stops_at_failing_id_witness :
  onStartup sample_palette [0] (world_of store_with_unknown_type)
  = (Throw "TypeError: Cannot read properties of undefined", world_after_failed_2)
  /\ Entity.dimension_entities world_after_failed_2
     = Entity.dimension_entities world_with_entity_1
  /\ Entity.world_db world_after_failed_2 = Entity.world_db world_with_entity_1
  /\ (Entity.world_logger world_after_failed_2
      = Entity.world_logger world_with_entity_1
      \/ exists entry self,
           readEntity 2 0 (Entity.world_db world_with_entity_1) = Return entry
           /\ as_ParsedFields entry = None
           /\ fst (Entity.load_untyped entry true self)
              = Throw "TypeError: Cannot read properties of undefined").
Proof.
  apply (onStartup_stops_at_failing_id sample_palette [] [] 0
           (world_of store_with_unknown_type) (world_of store_with_unknown_type)
           world_with_entity_1 world_after_failed_2 [1] [] 2
           "TypeError: Cannot read properties of undefined").
  - reflexivity.
  - vm_compute. reflexivity.
  - vm_compute. reflexivity.
  - right. exists (EntityEntry_value (bare_entry 2 "minecraft:pig")).
    split; [vm_compute; reflexivity|].
    right. exists (Some (JSON.Str "minecraft:pig")).
    split; vm_compute; reflexivity.
Defined.

(** C2 as stated fails.  Dimension 0 lists the ids 1 and 2; the record of 1
    is missing and the record of 2 is sound.  [onStartup] throws the error
    of the store, logs nothing, and has not loaded the entity 2.  With both
    records in the store it loads both. *)
Lemma onStartup_aborted_by_one_id :
  readAvailableEntities 0 store_without_record_1 = [1; 2]
  /\ returns (readEntity 2 0 store_without_record_1) = true
  /\ (let after := onStartup sample_palette [0] (world_of store_without_record_1) in
      fst after = Throw "NotFound"
      /\ Entity.world_logger (snd after) = []
      /\ Entity.dimension_entities (snd after) !! 0 = None)
  /\ (let after := onStartup sample_palette [0] (world_of store_with_both_records) in
      fst after = Return ()
      /\ (fun m => map fst (map_to_list m))
           <$> Entity.dimension_entities (snd after) !! 0 = Some [2; 1]).
Proof. repeat split; vm_compute; reflexivity. Qed.

(** A record whose trait the reviver has turned into a bigint is no
    failure: [readEntity] returns the object with the bigint among its
    traits, [load] logs the trait and goes on, and the entity is
    spawned. *)
Example onStartup_loads_revived_trait :
  match readEntity 5 0 store_with_tagged_trait with
  | Return data => parsed_traits <$> as_ParsedFields data
  | Throw _ => None
  end = Some [NotAName "5"]
  /\ (let after := onStartup sample_palette [0] (world_of store_with_tagged_trait) in
      fst after = Return ()
      /\ Entity.world_logger (snd after)
         = ["Failed to load trait 5 for entity as it does not exist in the palette"]
      /\ (fun m => map fst (map_to_list m))
           <$> Entity.dimension_entities (snd after) !! 0 = Some [5]).
Proof. repeat split; vm_compute; reflexivity. Qed.

(** ** Chunks *)

Section ChunkFacts.

Context {B : Type} `{BlockStorage B}.

Local Abbreviation chunk_state := (Chunk (B := B) * Leveldb)%type.

Implicit Types (c : Chunk (B := B)) (d : Leveldb)
  (dimension : Dimension (B := B)) (s : chunk_state).

Lemma subchunk_range_spec (cy : Z) : cy ∈ subchunk_range <-> -4 <= cy < 16.
Proof. unfold subchunk_range. rewrite elem_of_seqZ. lia. Qed.

Lemma subchunk_range_NoDup : NoDup subchunk_range.
Proof. apply NoDup_seqZ. Qed.

(** Within the range, different subchunk indices have different keys, and
    no subchunk key is a version key. *)
Lemma buildSubChunkKey_inj (cx cz index cy cy' : Z) :
  -4 <= cy < 16 -> -4 <= cy' < 16 ->
  buildSubChunkKey cx cy cz index = buildSubChunkKey cx cy' cz index -> cy = cy'.
Proof.
  intros Hcy Hcy'. rewrite !buildSubChunkKey_layout. unfold subchunk_key_layout.
  intros Heq. do 3 apply app_inv_head in Heq. injection Heq as Heq.
  unfold signed_byte in Heq.
  assert (Hm : (cy - cy') mod 256 = 0)
    by (rewrite Zminus_mod, Heq, Z.sub_diag; reflexivity).
  apply Z.mod_divide in Hm; [|lia]. destruct Hm as [k Hk]. lia.
Qed.

Lemma version_key_not_subchunk_key (cx cz index cy : Z) :
  buildChunkVersionKey cx cz index <> buildSubChunkKey cx cy cz index.
Proof.
  rewrite buildSubChunkKey_layout, buildChunkVersionKey_layout.
  unfold subchunk_key_layout, chunk_version_key_layout.
  intros Heq. do 3 apply app_inv_head in Heq. discriminate.
Qed.

Lemma getSubChunk_set_ne (i j : Z) (s : SubChunk B) c :
  0 <= j -> i <> j ->
  Chunk_getSubChunk i (set_subchunk j s c) = Chunk_getSubChunk i c.
Proof.
  intros Hj Hne. unfold Chunk_getSubChunk, set_subchunk. cbn [subchunks].
  destruct (i <? 0) eqn:Hi; [reflexivity|]. apply Z.ltb_ge in Hi.
  apply list_lookup_insert_ne. lia.
Qed.

Lemma slot_to_write_set_ne (cy cy' : Z) (s : SubChunk B) c :
  -4 <= cy' -> cy <> cy' ->
  slot_to_write (set_subchunk (cy' + 4) s c) cy = slot_to_write c cy.
Proof.
  intros Hcy' Hne. unfold slot_to_write.
  rewrite getSubChunk_set_ne by lia. reflexivity.
Qed.

(** One turn of the loop on an open store. *)
Lemma writeChunk_slot_open dimension (cy : Z) s :
  closed (snd s) = false ->
  writeChunk_slot dimension cy s = (Return (), write_slot dimension s cy)
  /\ closed (snd (write_slot dimension s cy)) = false.
Proof.
  intros Hopen. unfold writeChunk_slot, write_slot, slot_to_write.
  destruct s as [c d]. cbn [fst snd] in *.
  destruct (Chunk_getSubChunk (cy + 4) c) as [sub|]; [|split; [reflexivity|assumption]].
  destruct (SubChunk_isEmpty sub); [split; [reflexivity|assumption]|].
  unfold writeSubChunk, mbind, M_bind, put, Leveldb_put. rewrite Hopen.
  split; reflexivity.
Qed.

Lemma writeChunk_slots_open dimension (l : list Z) s :
  closed (snd s) = false ->
  for_each (writeChunk_slot dimension) l s
  = (Return (), fold_left (write_slot dimension) l s)
  /\ closed (snd (fold_left (write_slot dimension) l s)) = false.
Proof.
  revert s. induction l as [|cy l IH]; intros s Hopen;
    [split; [reflexivity|assumption]|].
  cbn [for_each fold_left]. unfold mbind, M_bind.
  destruct (writeChunk_slot_open dimension cy s Hopen) as [-> Hopen'].
  apply IH, Hopen'.
Qed.

(** What the loop leaves: the chunk keeps its coordinates and its flag; a
    key that is not a subchunk key of the loop keeps its entry; the key of
    every slot of the loop that is there and not empty holds the bytes of
    that slot. *)
Lemma write_slots_spec dimension (l : list Z) c d :
  NoDup l -> (forall cy, cy ∈ l -> -4 <= cy < 16) ->
  exists c' d',
    fold_left (write_slot dimension) l (c, d) = (c', d')
    /\ chunk_x c' = chunk_x c
    /\ chunk_z c' = chunk_z c
    /\ dirty c' = dirty c
    /\ (forall cy, cy ∉ l -> -4 <= cy ->
          slot_to_write c' cy = slot_to_write c cy)
    /\ (forall key,
          (forall cy, cy ∈ l ->
             key <> buildSubChunkKey (chunk_x c) cy (chunk_z c)
                      (dim_index dimension)) ->
          entries_of d' !! key = entries_of d !! key)
    /\ (forall cy sub, cy ∈ l -> slot_to_write c cy = Some sub ->
          entries_of d'
            !! buildSubChunkKey (chunk_x c) cy (chunk_z c) (dim_index dimension)
          = Some (Bytes (SubChunk_serialize sub))).
Proof.
  revert c d. induction l as [|a l IH]; intros c d Hnd Hrange.
  - exists c, d. cbn [fold_left]. repeat split; try reflexivity.
    intros cy sub Hin. inversion Hin.
  - cbn [fold_left]. apply NoDup_cons in Hnd as [Ha Hnd].
    assert (Hrange' : forall cy, cy ∈ l -> -4 <= cy < 16)
      by (intros cy Hcy; apply Hrange; now right).
    assert (Harange : -4 <= a < 16) by (apply Hrange; now left).
    destruct (write_slot dimension (c, d) a) as [c1 d1] eqn:Hstep.
    assert (Hstep' : (c1, d1) =
              match slot_to_write c a with
              | Some s' =>
                (set_subchunk (a + 4) s' c,
                 {| entries_of :=
                      <[buildSubChunkKey (chunk_x c) a (chunk_z c)
                          (dim_index dimension) := Bytes (SubChunk_serialize s')]>
                        (entries_of d);
                    closed := false |})
              | None => (c, d)
              end) by (rewrite <- Hstep; reflexivity).
    assert (Hx : chunk_x c1 = chunk_x c)
      by (destruct (slot_to_write c a); injection Hstep' as -> ->; reflexivity).
    assert (Hz : chunk_z c1 = chunk_z c)
      by (destruct (slot_to_write c a); injection Hstep' as -> ->; reflexivity).
    assert (Hd : dirty c1 = dirty c)
      by (destruct (slot_to_write c a); injection Hstep' as -> ->; reflexivity).
    assert (Hslot1 : forall cy, cy <> a -> slot_to_write c1 cy = slot_to_write c cy).
    { intros cy Hne. destruct (slot_to_write c a); injection Hstep' as -> ->;
        [apply slot_to_write_set_ne; lia|reflexivity]. }
    assert (Hother : forall key,
              key <> buildSubChunkKey (chunk_x c) a (chunk_z c) (dim_index dimension) ->
              entries_of d1 !! key = entries_of d !! key).
    { intros key Hne. destruct (slot_to_write c a); injection Hstep' as -> ->;
        [cbn [entries_of]; apply lookup_insert_ne; congruence|reflexivity]. }
    assert (Hthis : forall sub, slot_to_write c a = Some sub ->
              entries_of d1
                !! buildSubChunkKey (chunk_x c) a (chunk_z c) (dim_index dimension)
              = Some (Bytes (SubChunk_serialize sub))).
    { intros sub Hsub. rewrite Hsub in Hstep'. injection Hstep' as -> ->.
      cbn [entries_of]. apply lookup_insert_eq. }
    clear Hstep Hstep'.
    destruct (IH c1 d1 Hnd Hrange')
      as (c' & d' & Hfold & IHx & IHz & IHd & IHslot & IHkey & IHput).
    rewrite Hx, Hz in IHkey, IHput.
    exists c', d'. split; [exact Hfold|].
    split; [congruence|]. split; [congruence|]. split; [congruence|].
    split; [|split].
    + intros cy Hnotin Hcy. apply not_elem_of_cons in Hnotin as [Hne Hnotin].
      rewrite IHslot by assumption. now apply Hslot1.
    + intros key Hkey. rewrite IHkey by (intros cy Hcy; apply Hkey; now right).
      apply Hother, Hkey. now left.
    + intros cy sub Hin Hsub. apply elem_of_cons in Hin as [-> | Hin].
      * rewrite IHkey; [now apply Hthis|].
        intros cy Hcy Heq. apply buildSubChunkKey_inj in Heq; auto.
        subst. contradiction.
      * apply IHput; [assumption|]. rewrite Hslot1; [assumption|].
        intros ->. contradiction.
Qed.

End ChunkFacts.

Section ChunkClaims.

Context {B : Type} `{BlockStorage B}.

Local Abbreviation chunk_state := (Chunk (B := B) * Leveldb)%type.

Implicit Types (c : Chunk (B := B)) (d : Leveldb)
  (dimension : Dimension (B := B)) (s : chunk_state)
  (p : LevelDBProvider (B := B)).

(** A version marker that is absent, or a store that fails, is a chunk that
    does not exist. *)
Lemma hasChunk_absent (cx cz : Z) dimension d :
  entries_of d !! buildChunkVersionKey cx cz (dim_index dimension) = None
  \/ closed d = true ->
  hasChunk cx cz dimension d = false.
Proof.
  intros Hd. unfold hasChunk, Leveldb_get.
  destruct (closed d); [reflexivity|].
  destruct Hd as [-> | Hd]; [reflexivity|discriminate].
Qed.

Lemma cached_set_chunks (cx cz : Z) dimension p (cache : gmap Z Chunk)
    (m : gmap Z (gmap Z Chunk)) c :
  cached cx cz dimension
    (set_chunks (<[dim_index dimension := <[ChunkCoords_hash cx cz := c]> cache]> m) p)
  = Some c.
Proof.
  unfold cached, set_chunks. cbn [chunks].
  rewrite lookup_insert_eq. cbn [default]. apply lookup_insert_eq.
Qed.

(** C5, as amended.  For a coordinate that has no chunk in the cache and
    no version marker in the store (or whose marker cannot be read because
    the store fails), [readChunk] returns: its result is the chunk that the
    generator of the dimension makes for (cx, cz, type), the store is
    untouched, and the chunk is the one cached for the coordinate from then
    on. *)
Theorem readChunk_generates (cx cz : Z) dimension p :
  cached cx cz dimension p = None ->
  entries_of (db p) !! buildChunkVersionKey cx cz (dim_index dimension) = None
  \/ closed (db p) = true ->
  exists p',
    readChunk cx cz dimension p
    = (Return (dim_generator dimension cx cz (dim_type dimension)), p')
    /\ db p' = db p
    /\ cached cx cz dimension p'
       = Some (dim_generator dimension cx cz (dim_type dimension)).
Proof.
  intros Hmiss Habsent. unfold cached in Hmiss. unfold readChunk.
  destruct (chunks p !! dim_index dimension) as [cache|] eqn:Hcache.
  - rewrite Hcache. cbn [default] in *. rewrite Hmiss.
    rewrite (hasChunk_absent cx cz dimension (db p) Habsent).
    eexists. split; [reflexivity|]. split; [reflexivity|].
    apply cached_set_chunks.
  - cbn [set_chunks chunks db]. rewrite lookup_insert_eq.
    cbn [default from_option id]. rewrite lookup_empty.
    rewrite (hasChunk_absent cx cz dimension (db p) Habsent).
    eexists. split; [reflexivity|]. split; [reflexivity|].
    apply cached_set_chunks.
Qed.

Lemma writeChunk_noop dimension c d :
  Chunk_isEmpty c || negb (dirty c) = true ->
  writeChunk dimension (c, d) = (Return (), (c, d)).
Proof. intros Hnoop. unfold writeChunk. cbn [fst]. now rewrite Hnoop. Qed.

Lemma writeChunk_closed dimension c d :
  Chunk_isEmpty c || negb (dirty c) = false -> closed d = true ->
  exists message, writeChunk dimension (c, d) = (Throw message, (c, d)).
Proof.
  intros Hnoop Hclosed. unfold writeChunk. cbn [fst]. rewrite Hnoop.
  unfold mbind, M_bind, on_db, writeChunkVersion, put, Leveldb_put.
  cbn [snd fst]. rewrite Hclosed. eexists. reflexivity.
Qed.

(** The writes of a call on a dirty chunk that is not empty. *)
Lemma writeChunk_dirty dimension c d c' d' :
  closed d = false -> Chunk_isEmpty c = false -> dirty c = true ->
  fold_left (write_slot dimension) subchunk_range
    (c, {| entries_of :=
             <[buildChunkVersionKey (chunk_x c) (chunk_z c) (dim_index dimension)
                 := Bytes [40]]> (entries_of d);
           closed := false |}) = (c', d') ->
  writeChunk dimension (c, d) = (Return (), (set_dirty false c', d')).
Proof.
  intros Hopen Hne Hdirty Hfold. unfold writeChunk. cbn [fst snd].
  rewrite Hne, Hdirty. cbn [orb negb].
  unfold mbind at 1, M_bind at 1.
  unfold on_db, writeChunkVersion, put, Leveldb_put. cbn [fst snd].
  rewrite Hopen.
  unfold mbind, M_bind.
  match goal with |- context [for_each _ _ ?s0] =>
    destruct (writeChunk_slots_open dimension subchunk_range s0 eq_refl)
      as [-> _] end.
  rewrite Hfold. reflexivity.
Qed.


(** What a call of [writeChunk] can change in the store: the version key of
    the chunk, and subchunk keys of the chunk for indices from -4 to 15. *)
Lemma writeChunk_writes_in_range dimension c d (key : list Z) :
  entries_of (snd (snd (writeChunk dimension (c, d)))) !! key
    <> entries_of d !! key ->
  key = buildChunkVersionKey (chunk_x c) (chunk_z c) (dim_index dimension)
  \/ exists cy, -4 <= cy <= 15
       /\ key = buildSubChunkKey (chunk_x c) cy (chunk_z c) (dim_index dimension).
Proof.
  destruct (Chunk_isEmpty c || negb (dirty c)) eqn:Hnoop.
  { rewrite (writeChunk_noop dimension c d Hnoop). intros Hchanged.
    now contradiction Hchanged. }
  destruct (closed d) eqn:Hopen.
  { destruct (writeChunk_closed dimension c d Hnoop Hopen) as [message ->].
    intros Hchanged. now contradiction Hchanged. }
  apply orb_false_iff in Hnoop as [Hne Hdirty]. apply negb_false_iff in Hdirty.
  destruct (write_slots_spec dimension subchunk_range c
              {| entries_of :=
                   <[buildChunkVersionKey (chunk_x c) (chunk_z c)
                       (dim_index dimension) := Bytes [40]]> (entries_of d);
                 closed := false |} subchunk_range_NoDup)
    as (c' & d' & Hfold & _ & _ & _ & _ & Hkey & _).
  { intros cy. apply subchunk_range_spec. }
  cbn [entries_of] in Hkey.
  rewrite (writeChunk_dirty dimension c d c' d' Hopen Hne Hdirty Hfold).
  cbn [snd]. intros Hchanged.
  destruct (decide (key = buildChunkVersionKey (chunk_x c) (chunk_z c)
                            (dim_index dimension))) as [Hv | Hv];
    [now left|right].
  destruct (decide (Exists (fun cy =>
              key = buildSubChunkKey (chunk_x c) cy (chunk_z c)
                      (dim_index dimension)) subchunk_range)) as [Hex | Hnex].
  - apply Exists_exists in Hex as (cy & Hcy & ->).
    apply subchunk_range_spec in Hcy. exists cy. split; [lia|reflexivity].
  - exfalso. apply Hchanged. rewrite Hkey.
    + apply lookup_insert_ne. congruence.
    + intros cy Hcy ->. apply Hnex, Exists_exists. eauto.
Qed.

(** C9, as amended.  The range of a chunk is the 20 subchunk indices from
    -4 to 15.  For a coordinate with a version marker and no cached chunk,
    [readChunk] builds the chunk from exactly these 20 slots, each read
    under its subchunk key and in this order; and whatever [writeChunk]
    changes in the store is the version key or a subchunk key of an index
    from -4 to 15. *)
Theorem chunk_range_is_20_slots (cx cz : Z) dimension p c d :
  subchunk_range
  = [-4; -3; -2; -1; 0; 1; 2; 3; 4; 5; 6; 7; 8; 9; 10; 11; 12; 13; 14; 15]
  /\ (cached cx cz dimension p = None ->
      hasChunk cx cz dimension (db p) = true ->
      exists p',
        readChunk cx cz dimension p
        = (Return (new_Chunk cx cz (dim_type dimension)
                     (map (fun cy => readSubChunk cx cy cz dimension (db p))
                        subchunk_range)), p')
        /\ length (subchunks (new_Chunk cx cz (dim_type dimension)
                     (map (fun cy => readSubChunk cx cy cz dimension (db p))
                        subchunk_range))) = 20%nat
        /\ map index (map (fun cy => readSubChunk cx cy cz dimension (db p))
                        subchunk_range) = subchunk_range)
  /\ (forall key,
        entries_of (snd (snd (writeChunk dimension (c, d)))) !! key
          <> entries_of d !! key ->
        key = buildChunkVersionKey (chunk_x c) (chunk_z c) (dim_index dimension)
        \/ exists cy, -4 <= cy <= 15
             /\ key = buildSubChunkKey (chunk_x c) cy (chunk_z c)
                        (dim_index dimension)).
Proof.
  split; [reflexivity|]. split.
  - intros Hmiss Hhas. unfold cached in Hmiss. unfold readChunk.
    assert (Hidx : forall l : list Z,
              map index (map (fun cy => readSubChunk cx cy cz dimension (db p)) l) = l).
    { induction l as [|cy l IH]; [reflexivity|]. cbn [map]. rewrite IH.
      f_equal. unfold readSubChunk.
      destruct (_ ← Leveldb_get _ _; _); reflexivity. }
    destruct (chunks p !! dim_index dimension) as [cache|] eqn:Hcache.
    + rewrite Hcache. cbn [default] in *. rewrite Hmiss, Hhas.
      eexists. split; [reflexivity|]. split; [reflexivity|apply Hidx].
    + cbn [set_chunks chunks db]. rewrite lookup_insert_eq.
      cbn [default from_option id]. rewrite lookup_empty, Hhas.
      eexists. split; [reflexivity|]. split; [reflexivity|apply Hidx].
  - apply writeChunk_writes_in_range.
Qed.

End ChunkClaims.

(** *** The chunk theorems at work *)

Lemma readChunk_generates_witness :
  exists p',
    readChunk 5 5 overworld empty_provider
    = (Return (dim_generator overworld 5 5 (dim_type overworld)), p')
    /\ db p' = db empty_provider
    /\ cached 5 5 overworld p'
       = Some (dim_generator overworld 5 5 (dim_type overworld)).
Proof.
  apply (readChunk_generates 5 5 overworld empty_provider).
  - reflexivity.
  - left. reflexivity.
Defined.

(** C5 as stated fails for a coordinate whose chunk is in the cache.  The
    store holds no version marker for (5, 5), yet [readChunk] does not
    return what the generator makes: it returns the cached chunk, which has
    been built on since it was generated, and leaves the provider as it
    is. *)
Lemma readChunk_cached_not_generated :
  entries_of (db provider_with_built_chunk) !! buildChunkVersionKey 5 5 0 = None
  /\ readChunk 5 5 overworld provider_with_built_chunk
     = (Return built_chunk, provider_with_built_chunk)
  /\ built_chunk <> dim_generator overworld 5 5 (dim_type overworld).
Proof.
  split; [reflexivity|]. split; [vm_compute; reflexivity|discriminate].
Qed.



Lemma chunk_range_is_20_slots_witness :
  exists p',
    readChunk 0 0 overworld provider_with_stored_chunk
    = (Return (new_Chunk 0 0 (dim_type overworld)
                 (map (fun cy => readSubChunk 0 cy 0 overworld
                                   (db provider_with_stored_chunk))
                    subchunk_range)), p')
    /\ length (subchunks (new_Chunk 0 0 (dim_type overworld)
                 (map (fun cy => readSubChunk 0 cy 0 overworld
                                   (db provider_with_stored_chunk))
                    subchunk_range))) = 20%nat
    /\ map index (map (fun cy => readSubChunk 0 cy 0 overworld
                                   (db provider_with_stored_chunk))
                    subchunk_range) = subchunk_range.
Proof.
  apply (proj1 (proj2 (chunk_range_is_20_slots 0 0 overworld
                         provider_with_stored_chunk built_chunk empty_db)));
    reflexivity.
Defined.

(** C9 as stated fails on the number of slots: the chunk that [readChunk]
    builds from the store has 20 slots, for the indices -4 to 15, not 16;
    so has the loop of [writeChunk], which stores the slot of index 15, the
    twentieth. *)
Lemma readChunk_reads_20_slots :
  exists chunk p',
    readChunk 0 0 overworld provider_with_stored_chunk = (Return chunk, p')
    /\ length (subchunks chunk) = 20%nat
    /\ map index (subchunks chunk)
       = [-4; -3; -2; -1; 0; 1; 2; 3; 4; 5; 6; 7; 8; 9; 10; 11; 12; 13; 14; 15]
    /\ length (subchunks chunk) <> 16%nat.
Proof.
  eexists _, _. split; [vm_compute; reflexivity|].
  split; [reflexivity|]. split; [reflexivity|discriminate].
Qed.

(** * Further properties of the provider and of the entity *)

(** ** The entity store *)

(** X1.  On an open store whose list key holds bytes, the list read is the
    sequence of the little-endian 64-bit integers that the bytes hold in
    full, in order: a tail of fewer than eight bytes is dropped, and fewer
    than eight bytes in all give the empty list. *)
Theorem readAvailableEntities_whole_integers (index : Z) (d : Leveldb)
    (bs : list Z) :
  closed d = false ->
  entries_of d !! buildActorListKey index = Some (Bytes bs) ->
  readAvailableEntities index d = int64_le_sequence bs
  /\ ((length bs < 8)%nat -> readAvailableEntities index d = []).
Proof.
  intros Hopen Hbytes.
  pose proof (readAvailableEntities_bytes index d bs Hopen Hbytes) as Hread.
  split; [exact Hread|].
  intros Hshort. rewrite Hread.
  destruct bs as [|b0 [|b1 [|b2 [|b3 [|b4 [|b5 [|b6 [|b7 rest]]]]]]]];
    try reflexivity.
  cbn [length] in Hshort. lia.
Qed.

Lemma readAvailableEntities_whole_integers_witness :
  readAvailableEntities 0 store_listing_1_2
  = int64_le_sequence (BinaryStream.bytes_of Little 8 1
                       ++ BinaryStream.bytes_of Little 8 2)
  /\ ((length (BinaryStream.bytes_of Little 8 1
               ++ BinaryStream.bytes_of Little 8 2) < 8)%nat ->
      readAvailableEntities 0 store_listing_1_2 = []).
Proof.
  apply (readAvailableEntities_whole_integers 0 store_listing_1_2);
    reflexivity.
Defined.

(** X2.  [writeAvailableEntities] replaces the list in full: on an open
    store it returns, the list read afterwards is the list written (for ids
    of 64 bits), whatever was listed before, and no other key of the store
    is touched. *)
Theorem writeAvailableEntities_replaces_list (index : Z) (ids : list Z)
    (d : Leveldb) :
  closed d = false ->
  Forall (fun v => - 2 ^ 63 <= v < 2 ^ 63) ids ->
  exists d',
    writeAvailableEntities index ids d = Return d'
    /\ closed d' = false
    /\ readAvailableEntities index d' = ids
    /\ (forall key, key <> buildActorListKey index ->
          entries_of d' !! key = entries_of d !! key).
Proof.
  intros Hopen Hids.
  assert (Hwrite : exists d', writeAvailableEntities index ids d = Return d'
                              /\ closed d' = false
                              /\ forall key, key <> buildActorListKey index ->
                                   entries_of d' !! key = entries_of d !! key).
  { unfold writeAvailableEntities, Leveldb_put. rewrite Hopen.
    eexists. split; [reflexivity|]. split; [reflexivity|].
    intros key Hne. cbn [entries_of]. apply lookup_insert_ne. congruence. }
  destruct Hwrite as (d' & Hwrite & Hopen' & Hframe).
  exists d'. split; [exact Hwrite|]. split; [exact Hopen'|].
  split; [|exact Hframe].
  exact (readAvailableEntities_after_write index ids d d' Hids Hwrite).
Qed.

Lemma writeAvailableEntities_replaces_list_witness :
  exists d',
    writeAvailableEntities 0 [7; -1] store_listing_1_2 = Return d'
    /\ closed d' = false
    /\ readAvailableEntities 0 d' = [7; -1]
    /\ (forall key, key <> buildActorListKey 0 ->
          entries_of d' !! key = entries_of store_listing_1_2 !! key).
Proof.
  apply (writeAvailableEntities_replaces_list 0 [7; -1] store_listing_1_2).
  - reflexivity.
  - repeat constructor; lia.
Defined.

(** X3.  An entry written by [writeEntity] is the entry that [readEntity]
    reads, when the list of the dimension holds its id and none of its
    strings is tagged. *)
Theorem entity_record_round_trip (entity : EntityEntry) (index : Z)
    (d : Leveldb) :
  closed d = false ->
  includes (entry_uniqueId entity) (readAvailableEntities index d) = true ->
  JSON.plain_strings (EntityEntry_value entity) = true ->
  exists d',
    writeEntity entity index d = Return d'
    /\ readEntity (entry_uniqueId entity) index d'
       = Return (EntityEntry_value entity).
Proof.
  intros Hopen Hlisted Hplain.
  destruct (writeEntity_leaves_list entity index d Hopen) as (d' & doc & Hwrite & _).
  exists d'. split; [exact Hwrite|].
  exact (readEntity_after_writeEntity entity index d d' Hlisted Hplain Hwrite).
Qed.

Lemma entity_record_round_trip_witness :
  exists d',
    writeEntity (bare_entry 2 "minecraft:cow") 0 store_listing_1_2 = Return d'
    /\ readEntity (entry_uniqueId (bare_entry 2 "minecraft:cow")) 0 d'
       = Return (EntityEntry_value (bare_entry 2 "minecraft:cow")).
Proof.
  apply (entity_record_round_trip (bare_entry 2 "minecraft:cow") 0
           store_listing_1_2); reflexivity.
Defined.

(** X4.  [writeEntity] puts one key, the key of the record: on an open
    store every other key keeps its entry, so the list of ids of every
    dimension reads as before the call. *)
Theorem writeEntity_puts_one_key (entity : EntityEntry) (index : Z)
    (d : Leveldb) :
  closed d = false ->
  exists d',
    writeEntity entity index d = Return d'
    /\ is_Some (entries_of d' !! buildActorDataKey (entry_uniqueId entity))
    /\ (forall key, key <> buildActorDataKey (entry_uniqueId entity) ->
          entries_of d' !! key = entries_of d !! key)
    /\ (forall other, readAvailableEntities other d'
                      = readAvailableEntities other d).
Proof.
  intros Hopen. unfold writeEntity.
  destruct (stringify_total (EntityEntry_value entity)) as [doc ->].
  cbn [mbind result_bind]. unfold Leveldb_put. rewrite Hopen.
  eexists. split; [reflexivity|]. cbn [entries_of]. split; [|split].
  - rewrite lookup_insert_eq. eexists. reflexivity.
  - intros key Hne. apply lookup_insert_ne. congruence.
  - intros other. unfold readAvailableEntities, Leveldb_get.
    cbn [closed entries_of]. rewrite Hopen.
    rewrite lookup_insert_ne by apply actor_keys_differ. reflexivity.
Qed.

Lemma writeEntity_puts_one_key_witness :
  exists d',
    writeEntity example_entry 0 store_listing_1_2 = Return d'
    /\ is_Some (entries_of d' !! buildActorDataKey (entry_uniqueId example_entry))
    /\ (forall key, key <> buildActorDataKey (entry_uniqueId example_entry) ->
          entries_of d' !! key = entries_of store_listing_1_2 !! key)
    /\ (forall other, readAvailableEntities other d'
                      = readAvailableEntities other store_listing_1_2).
Proof.
  apply (writeEntity_puts_one_key example_entry 0 store_listing_1_2).
  reflexivity.
Defined.

(** X5.  A player entry written by [writePlayer] is the entry that
    [readPlayer] reads under the same uuid and dimension identifier, when
    none of its strings is tagged; and [readPlayer] gives null, not an
    error, where the key is absent or the store is closed. *)
Theorem player_record_round_trip (player : PlayerEntry)
    (dimension_identifier : string) (d : Leveldb) :
  (closed d = false ->
   JSON.plain_strings (PlayerEntry_value player) = true ->
   exists d',
     writePlayer player dimension_identifier d = Return d'
     /\ readPlayer (player_uuid player) dimension_identifier d'
        = Some (PlayerEntry_value player))
  /\ (entries_of d
        !! buildPlayerKey (player_uuid player) dimension_identifier = None
      \/ closed d = true ->
      readPlayer (player_uuid player) dimension_identifier d = None).
Proof.
  split.
  - intros Hopen Hplain.
    destruct (stringify_parse _ Hplain) as (doc & Hdoc & Hparse).
    unfold writePlayer. rewrite Hdoc. cbn [mbind result_bind].
    unfold Leveldb_put. rewrite Hopen. eexists. split; [reflexivity|].
    unfold readPlayer, Leveldb_get. cbn [closed entries_of].
    rewrite lookup_insert_eq. cbn [mbind result_bind document_of].
    rewrite Hparse. reflexivity.
  - intros Habsent. unfold readPlayer, Leveldb_get.
    destruct (closed d); [reflexivity|].
    destruct Habsent as [-> | Hc]; [reflexivity|discriminate].
Qed.

Lemma player_record_round_trip_witness :
  (exists d',
     writePlayer example_player "overworld" empty_db = Return d'
     /\ readPlayer (player_uuid example_player) "overworld" d'
        = Some (PlayerEntry_value example_player))
  /\ readPlayer (player_uuid example_player) "overworld" empty_db = None.
Proof.
  split.
  - apply (proj1 (player_record_round_trip example_player "overworld" empty_db));
      reflexivity.
  - apply (proj2 (player_record_round_trip example_player "overworld" empty_db)).
    left. reflexivity.
Defined.

(** ** Chunks *)

Section MoreChunkFacts.

Context {B : Type} `{BlockStorage B}.

Implicit Types (c : Chunk (B := B)) (d : Leveldb)
  (dimension : Dimension (B := B)) (p : LevelDBProvider (B := B)).

Lemma readChunk_cached (cx cz : Z) dimension p c :
  cached cx cz dimension p = Some c ->
  readChunk cx cz dimension p = (Return c, p).
Proof.
  unfold cached, readChunk. intros Hhit.
  destruct (chunks p !! dim_index dimension) as [cache|] eqn:Hcache.
  - rewrite Hcache. cbn [default from_option id] in *. now rewrite Hhit.
  - cbn [default from_option id] in Hhit. rewrite lookup_empty in Hhit.
    discriminate.
Qed.

(** What a call of [readChunk] that misses the cache leaves: the chunk it
    returns, put into the cache of the dimension. *)
Lemma readChunk_miss (cx cz : Z) dimension p :
  cached cx cz dimension p = None ->
  exists c (m : gmap Z (gmap Z Chunk)),
    readChunk cx cz dimension p
    = (Return c,
       set_chunks
         (<[dim_index dimension :=
              <[ChunkCoords_hash cx cz := c]>
                (default ∅ (chunks p !! dim_index dimension))]> m) p)
    /\ (forall i, i <> dim_index dimension -> m !! i = chunks p !! i).
Proof.
  unfold cached, readChunk. intros Hmiss.
  destruct (chunks p !! dim_index dimension) as [cache|] eqn:Hcache.
  - rewrite Hcache. cbn [default from_option id] in *. rewrite Hmiss.
    destruct (hasChunk cx cz dimension (db p));
      eexists _, (chunks p); split; reflexivity || (intros; reflexivity).
  - cbn [set_chunks chunks db]. rewrite lookup_insert_eq.
    cbn [default from_option id]. rewrite lookup_empty.
    destruct (hasChunk cx cz dimension (db p));
      eexists _, (<[dim_index dimension := ∅]> (chunks p));
      (split; [reflexivity|]); intros i Hi; apply lookup_insert_ne; congruence.
Qed.

(** X6.  [readChunk] always returns, never touches the store, and is
    stable: the chunk it returns is the chunk cached for the coordinate
    afterwards, and reading the coordinate again returns the same chunk and
    changes nothing. *)
Theorem readChunk_stable (cx cz : Z) dimension p :
  exists c p',
    readChunk cx cz dimension p = (Return c, p')
    /\ db p' = db p
    /\ cached cx cz dimension p' = Some c
    /\ readChunk cx cz dimension p' = (Return c, p').
Proof.
  destruct (cached cx cz dimension p) as [c|] eqn:Hcached.
  - exists c, p. rewrite (readChunk_cached cx cz dimension p c Hcached).
    repeat split; assumption.
  - destruct (readChunk_miss cx cz dimension p Hcached) as (c & m & -> & _).
    eexists c, _. split; [reflexivity|]. split; [reflexivity|].
    split; [apply cached_set_chunks|].
    apply readChunk_cached, cached_set_chunks.
Qed.

(** X7.  [readChunk] changes the cache at its own coordinate only: the
    chunk cached for any other dimension index or coordinate hash is what
    it was. *)
Theorem readChunk_other_coordinates (cx cz cx' cz' : Z) dimension
    (dimension' : Dimension (B := B)) p :
  dim_index dimension' <> dim_index dimension
  \/ ChunkCoords_hash cx' cz' <> ChunkCoords_hash cx cz ->
  cached cx' cz' dimension' (snd (readChunk cx cz dimension p))
  = cached cx' cz' dimension' p.
Proof.
  intros Hother.
  destruct (cached cx cz dimension p) as [c|] eqn:Hcached.
  - now rewrite (readChunk_cached cx cz dimension p c Hcached).
  - destruct (readChunk_miss cx cz dimension p Hcached) as (c & m & -> & Hm).
    unfold cached. cbn [snd set_chunks chunks].
    destruct (decide (dim_index dimension' = dim_index dimension)) as [Heq | Hne].
    + destruct Hother as [Hd | Hh]; [contradiction|].
      rewrite Heq, lookup_insert_eq. cbn [default from_option id].
      apply lookup_insert_ne. congruence.
    + rewrite lookup_insert_ne by congruence. now rewrite Hm.
Qed.

Lemma write_slot_layers dimension (s : Chunk (B := B) * Leveldb) (cy : Z) :
  map layers (subchunks (fst (write_slot dimension s cy)))
  = map layers (subchunks (fst s))
  /\ chunk_type (fst (write_slot dimension s cy)) = chunk_type (fst s)
  /\ chunk_x (fst (write_slot dimension s cy)) = chunk_x (fst s)
  /\ chunk_z (fst (write_slot dimension s cy)) = chunk_z (fst s).
Proof.
  unfold write_slot, slot_to_write, Chunk_getSubChunk.
  destruct (cy + 4 <? 0); [repeat split; reflexivity|].
  destruct (subchunks (fst s) !! Z.to_nat (cy + 4)) as [sub|] eqn:Hsub;
    [|repeat split; reflexivity].
  destruct (SubChunk_isEmpty sub); [repeat split; reflexivity|].
  cbn [fst set_subchunk subchunks chunk_type chunk_x chunk_z].
  repeat split; try reflexivity.
  rewrite list_fmap_insert. apply list_insert_id.
  rewrite list_lookup_fmap, Hsub. reflexivity.
Qed.

Lemma write_slots_layers dimension (l : list Z) (s : Chunk (B := B) * Leveldb) :
  map layers (subchunks (fst (fold_left (write_slot dimension) l s)))
  = map layers (subchunks (fst s))
  /\ chunk_type (fst (fold_left (write_slot dimension) l s)) = chunk_type (fst s)
  /\ chunk_x (fst (fold_left (write_slot dimension) l s)) = chunk_x (fst s)
  /\ chunk_z (fst (fold_left (write_slot dimension) l s)) = chunk_z (fst s).
Proof.
  revert s. induction l as [|cy l IH]; intros s; [repeat split; reflexivity|].
  cbn [fold_left].
  destruct (IH (write_slot dimension s cy)) as (IH1 & IH2 & IH3 & IH4).
  destruct (write_slot_layers dimension s cy) as (H1 & H2 & H3 & H4).
  repeat split; congruence.
Qed.

(** X8.  [writeChunk] never changes the blocks of a chunk: whether it
    returns or throws, the chunk it leaves has the same coordinates and
    type, and slot by slot the same block data; what it changes is the
    dirty flag and the indices of slots. *)
Theorem writeChunk_keeps_blocks dimension c d :
  let c' := fst (snd (writeChunk dimension (c, d))) in
  map layers (subchunks c') = map layers (subchunks c)
  /\ chunk_x c' = chunk_x c
  /\ chunk_z c' = chunk_z c
  /\ chunk_type c' = chunk_type c.
Proof.
  cbn zeta.
  destruct (Chunk_isEmpty c || negb (dirty c)) eqn:Hnoop.
  { rewrite (writeChunk_noop dimension c d Hnoop). repeat split; reflexivity. }
  destruct (closed d) eqn:Hopen.
  { destruct (writeChunk_closed dimension c d Hnoop Hopen) as [message ->].
    repeat split; reflexivity. }
  apply orb_false_iff in Hnoop as [Hne Hdirty]. apply negb_false_iff in Hdirty.
  pose proof (write_slots_layers dimension subchunk_range
                (c, {| entries_of :=
                         <[buildChunkVersionKey (chunk_x c) (chunk_z c)
                             (dim_index dimension) := Bytes [40]]> (entries_of d);
                       closed := false |})) as Hfold.
  destruct (fold_left (write_slot dimension) subchunk_range _) as [c' d'] eqn:Hsteps.
  rewrite (writeChunk_dirty dimension c d c' d' Hopen Hne Hdirty Hsteps).
  cbn [fst snd set_dirty subchunks chunk_x chunk_z chunk_type] in *.
  exact (conj (proj1 Hfold)
           (conj (proj1 (proj2 (proj2 Hfold)))
              (conj (proj2 (proj2 (proj2 Hfold))) (proj1 (proj2 Hfold))))).
Qed.

(** X9.  What [writeChunk] stores, [hasChunk] and [readSubChunk] find.
    After [writeChunk] of a dirty chunk that is not empty, on an open
    store, [hasChunk] holds for the coordinates of the chunk, and for every
    slot of the range that is there and not empty [readSubChunk] gives what
    [SubChunk.from] reads from the bytes of the slot, under the index of
    the slot (the slot itself, where [SubChunk.from] gives back the blocks
    that [SubChunk.serialize] wrote). *)
Theorem chunk_write_then_read dimension c d c' d' :
  closed d = false -> Chunk_isEmpty c = false -> dirty c = true ->
  (forall s : SubChunk B, SubChunk_isEmpty s = false ->
     exists s', SubChunk_from (SubChunk_serialize s) = Return s'
                /\ layers s' = layers s) ->
  writeChunk dimension (c, d) = (Return (), (c', d')) ->
  hasChunk (chunk_x c) (chunk_z c) dimension d' = true
  /\ forall cy sub, -4 <= cy < 16 ->
       Chunk_getSubChunk (cy + 4) c = Some sub ->
       SubChunk_isEmpty sub = false ->
       readSubChunk (chunk_x c) cy (chunk_z c) dimension d' = set_index cy sub.
Proof.
  intros Hopen Hne Hdirty Hcodec Hwrite.
  destruct (write_slots_spec dimension subchunk_range c
              {| entries_of :=
                   <[buildChunkVersionKey (chunk_x c) (chunk_z c)
                       (dim_index dimension) := Bytes [40]]> (entries_of d);
                 closed := false |} subchunk_range_NoDup)
    as (c1 & d1 & Hfold & _ & _ & _ & _ & Hkey & Hput).
  { intros cy. apply subchunk_range_spec. }
  cbn [entries_of] in Hkey.
  destruct (writeChunk_slots_open dimension subchunk_range
              (c, {| entries_of :=
                       <[buildChunkVersionKey (chunk_x c) (chunk_z c)
                           (dim_index dimension) := Bytes [40]]> (entries_of d);
                     closed := false |}) eq_refl) as [_ Hopen1].
  rewrite Hfold in Hopen1. cbn [snd] in Hopen1.
  rewrite (writeChunk_dirty dimension c d c1 d1 Hopen Hne Hdirty Hfold) in Hwrite.
  injection Hwrite as <- <-.
  split.
  - unfold hasChunk, Leveldb_get. rewrite Hopen1.
    rewrite Hkey by (intros cy _; apply version_key_not_subchunk_key).
    now rewrite lookup_insert_eq.
  - intros cy sub Hcy Hsub Hsubne.
    assert (Hstored : entries_of d1
                        !! buildSubChunkKey (chunk_x c) cy (chunk_z c)
                             (dim_index dimension)
                      = Some (Bytes (SubChunk_serialize (set_index cy sub)))).
    { apply Hput; [now apply subchunk_range_spec|].
      unfold slot_to_write. now rewrite Hsub, Hsubne. }
    unfold readSubChunk, Leveldb_get. rewrite Hopen1, Hstored.
    cbn [mbind result_bind bytes_of_buffer].
    destruct (Hcodec (set_index cy sub)) as (s' & -> & Hlayers);
      [exact Hsubne|].
    unfold set_index. cbn [layers] in *. now rewrite Hlayers.
Qed.

End MoreChunkFacts.

Lemma chunk_write_then_read_witness :
  exists c' d',
    writeChunk overworld (built_chunk, empty_db) = (Return (), (c', d'))
    /\ hasChunk (chunk_x built_chunk) (chunk_z built_chunk) overworld d' = true
    /\ forall cy sub, -4 <= cy < 16 ->
         Chunk_getSubChunk (cy + 4) built_chunk = Some sub ->
         SubChunk_isEmpty sub = false ->
         readSubChunk (chunk_x built_chunk) cy (chunk_z built_chunk) overworld d'
         = set_index cy sub.
Proof.
  eexists _, _. split; [vm_compute; reflexivity|].
  eapply (chunk_write_then_read overworld built_chunk empty_db).
  - reflexivity.
  - reflexivity.
  - reflexivity.
  - intros [i [|b l]] Hs; [discriminate|]. eexists. split; reflexivity.
  - vm_compute. reflexivity.
Defined.

Lemma readChunk_other_coordinates_witness :
  cached 0 0 overworld (snd (readChunk 5 5 overworld provider_with_built_chunk))
  = cached 0 0 overworld provider_with_built_chunk.
Proof.
  apply (readChunk_other_coordinates 5 5 0 0 overworld overworld
           provider_with_built_chunk).
  right. vm_compute. discriminate.
Defined.

(** ** Keys *)

Lemma int32_le_inj (a b : Z) :
  - 2 ^ 31 <= a < 2 ^ 31 -> - 2 ^ 31 <= b < 2 ^ 31 ->
  int32_le a = int32_le b -> a = b.
Proof.
  intros Ha Hb Heq. rewrite <- !writeInt32_le_layout in Heq.
  apply (f_equal BinaryStream.unsigned_le) in Heq.
  unfold BinaryStream.bytes_of, BinaryStream.bytes_le in Heq.
  rewrite !unsigned_le_bytes in Heq.
  change (8 * Z.of_nat 0) with 0 in Heq. change (8 * Z.of_nat 4) with 32 in Heq.
  rewrite !Z.shiftr_0_r, !Z.land_ones in Heq by lia.
  change (2 ^ 31) with 2147483648 in *. change (2 ^ 32) with 4294967296 in *.
  assert (Hm : (a - b) mod 4294967296 = 0)
    by (rewrite Zminus_mod, Heq, Z.sub_diag; reflexivity).
  apply Z.mod_divide in Hm; [|lia]. destruct Hm as [k Hk]. lia.
Qed.

Lemma signed_byte_inj (a b : Z) :
  - 128 <= a < 128 -> - 128 <= b < 128 -> signed_byte a = signed_byte b -> a = b.
Proof.
  unfold signed_byte. intros Ha Hb Heq.
  assert (Hm : (a - b) mod 256 = 0)
    by (rewrite Zminus_mod, Heq, Z.sub_diag; reflexivity).
  apply Z.mod_divide in Hm; [|lia]. destruct Hm as [k Hk]. lia.
Qed.

Lemma dim_index_field_inj (a b : Z) (l k : list Z) :
  - 2 ^ 31 <= a < 2 ^ 31 -> - 2 ^ 31 <= b < 2 ^ 31 ->
  length l = length k ->
  dim_index_field a ++ l = dim_index_field b ++ k -> a = b /\ l = k.
Proof.
  intros Ha Hb Hlen Heq. unfold dim_index_field in Heq.
  destruct (decide (a = 0)) as [-> | Hane], (decide (b = 0)) as [-> | Hbne].
  - split; [reflexivity|exact Heq].
  - apply (f_equal length) in Heq. rewrite length_app in Heq.
    cbn [length int32_le app] in Heq. lia.
  - apply (f_equal length) in Heq. rewrite length_app in Heq.
    cbn [length int32_le app] in Heq. lia.
  - apply app_inj_1 in Heq as [Hab Hlk]; [|reflexivity].
    split; [now apply int32_le_inj|exact Hlk].
Qed.

(** X10.  The chunk keys are free of collisions.  For coordinates and
    dimension indices of 32 bits and subchunk indices of one signed byte,
    equal subchunk keys have equal arguments and equal version keys have
    equal arguments; and a subchunk key is never a version key. *)
Theorem chunk_keys_collision_free (cx cy cz index cx' cy' cz' index' : Z) :
  - 2 ^ 31 <= cx < 2 ^ 31 -> - 2 ^ 31 <= cx' < 2 ^ 31 ->
  - 2 ^ 31 <= cz < 2 ^ 31 -> - 2 ^ 31 <= cz' < 2 ^ 31 ->
  - 2 ^ 31 <= index < 2 ^ 31 -> - 2 ^ 31 <= index' < 2 ^ 31 ->
  - 128 <= cy < 128 -> - 128 <= cy' < 128 ->
  (buildSubChunkKey cx cy cz index = buildSubChunkKey cx' cy' cz' index' ->
   cx = cx' /\ cy = cy' /\ cz = cz' /\ index = index')
  /\ (buildChunkVersionKey cx cz index = buildChunkVersionKey cx' cz' index' ->
      cx = cx' /\ cz = cz' /\ index = index')
  /\ buildSubChunkKey cx cy cz index <> buildChunkVersionKey cx' cz' index'.
Proof.
  intros Hx Hx' Hz Hz' Hi Hi' Hy Hy'.
  rewrite !buildSubChunkKey_layout, !buildChunkVersionKey_layout.
  unfold subchunk_key_layout, chunk_version_key_layout.
  split; [|split].
  - intros Heq.
    apply app_inj_1 in Heq as [Hcx Heq]; [|reflexivity].
    apply app_inj_1 in Heq as [Hcz Heq]; [|reflexivity].
    apply dim_index_field_inj in Heq as [Hidx Heq]; [|assumption..|reflexivity].
    injection Heq as Hcy.
    repeat split; auto using int32_le_inj, signed_byte_inj.
  - intros Heq.
    apply app_inj_1 in Heq as [Hcx Heq]; [|reflexivity].
    apply app_inj_1 in Heq as [Hcz Heq]; [|reflexivity].
    apply dim_index_field_inj in Heq as [Hidx _]; [|assumption..|reflexivity].
    repeat split; auto using int32_le_inj.
  - intros Heq. apply (f_equal length) in Heq.
    rewrite !length_app in Heq. unfold dim_index_field in Heq.
    destruct (decide (index = 0)), (decide (index' = 0));
      cbn [length int32_le] in Heq; lia.
Qed.

Lemma chunk_keys_collision_free_witness :
  (buildSubChunkKey 1 0 (-2) 0 = buildSubChunkKey 1 0 (-2) 0 ->
   1 = 1 /\ 0 = 0 /\ -2 = -2 /\ 0 = 0)
  /\ (buildChunkVersionKey 1 (-2) 0 = buildChunkVersionKey 1 (-2) 0 ->
      1 = 1 /\ -2 = -2 /\ 0 = 0)
  /\ buildSubChunkKey 1 0 (-2) 0 <> buildChunkVersionKey 1 (-2) 0.
Proof.
  apply (chunk_keys_collision_free 1 0 (-2) 0 1 0 (-2) 0); lia.
Defined.

(** X11.  The actor keys are free of collisions.  Equal record keys have
    equal unique ids (of 64 bits), equal list keys have equal dimension
    indices (of 32 bits), and a record key is never a list key. *)
Theorem actor_keys_collision_free (uniqueId uniqueId' index index' : Z) :
  - 2 ^ 63 <= uniqueId < 2 ^ 63 -> - 2 ^ 63 <= uniqueId' < 2 ^ 63 ->
  - 2 ^ 31 <= index < 2 ^ 31 -> - 2 ^ 31 <= index' < 2 ^ 31 ->
  (buildActorDataKey uniqueId = buildActorDataKey uniqueId' ->
   uniqueId = uniqueId')
  /\ (buildActorListKey index = buildActorListKey index' -> index = index')
  /\ buildActorDataKey uniqueId <> buildActorListKey index.
Proof.
  intros Hu Hu' Hi Hi'. split; [|split].
  - unfold buildActorDataKey. stream_steps. intros Heq.
    apply app_inv_head in Heq.
    rewrite <- (int64_bytes_inv uniqueId), <- (int64_bytes_inv uniqueId')
      by assumption.
    now rewrite Heq.
  - intros Heq.
    assert (Hkey : forall i, buildActorListKey i
              = BinaryStream.bytes_of Big 4 0x64696770 ++ dim_index_field i).
    { intros i. unfold buildActorListKey, dim_index_field.
      destruct (decide (i = 0)) as [-> | Hne];
        [destruct (decide (0 <> 0)); [contradiction|]
        |destruct (decide (i <> 0)); [|contradiction]];
        stream_steps; rewrite ?writeInt32_le_layout, ?app_nil_r; reflexivity. }
    rewrite !Hkey in Heq. apply app_inv_head in Heq.
    rewrite <- (app_nil_r (dim_index_field index)) in Heq.
    rewrite <- (app_nil_r (dim_index_field index')) in Heq.
    now apply dim_index_field_inj in Heq as [Hidx _].
  - apply actor_keys_differ.
Qed.

Lemma actor_keys_collision_free_witness :
  (buildActorDataKey 1 = buildActorDataKey 1 -> 1 = 1)
  /\ (buildActorListKey 0 = buildActorListKey 0 -> 0 = 0)
  /\ buildActorDataKey 1 <> buildActorListKey 0.
Proof.
  apply (actor_keys_collision_free 1 1 0 0);
    change (2 ^ 63) with 9223372036854775808;
    change (2 ^ 31) with 2147483648; lia.
Defined.

(** ** Entities *)

Section MapFacts.

Context {K V : Type} `{EqDecision K}.

Lemma Map_get_set_missing (k k0 : K) (v0 : V) (m : list (K * V)) :
  Map_get k0 m = None ->
  Map_get k (Map_set k0 v0 m) = if decide (k0 = k) then Some v0 else Map_get k m.
Proof.
  induction m as [|[k1 v1] m IH]; intros Hmiss; cbn [Map_set Map_get] in *.
  - reflexivity.
  - destruct (decide (k1 = k0)) as [-> | Hne]; [discriminate|].
    cbn [Map_get]. destruct (decide (k1 = k)) as [-> | Hne1].
    + destruct (decide (k0 = k)); [congruence|reflexivity].
    + now apply IH.
Qed.

(** The loops [if (!map.has(key)) map.set(key, value)]: a key that the map
    holds keeps its value, a key that it lacks gets the first value that
    the new entries list for it. *)
Lemma Map_get_add_missing (k : K) (new_entries m : list (K * V)) :
  Map_get k (Map_add_missing new_entries m)
  = match Map_get k m with
    | Some v => Some v
    | None => Map_get k new_entries
    end.
Proof.
  unfold Map_add_missing. revert m.
  induction new_entries as [|[k0 v0] l IH]; intros m; cbn [fold_left fst snd].
  - now destruct (Map_get k m).
  - rewrite IH. unfold Map_has. cbn [Map_get].
    destruct (Map_get k0 m) as [v|] eqn:Hk0.
    + destruct (Map_get k m) eqn:Hk; [reflexivity|].
      destruct (decide (k0 = k)) as [-> | Hne]; [congruence|reflexivity].
    + rewrite Map_get_set_missing by assumption.
      destruct (decide (k0 = k)) as [-> | Hne].
      * now rewrite Hk0.
      * reflexivity.
Qed.

End MapFacts.

Lemma load_match_returns (palette : Entity.Palette) (entry : EntityEntry)
    (overwrite : bool) (self : Entity.Self) :
  entry_uniqueId entry = Entity.uniqueId (Entity.this self) ->
  entry_identifier entry = type_identifier (Entity.type (Entity.this self)) ->
  exists self', Entity.load palette entry overwrite self = (Return (), self').
Proof.
  intros Hid Hident.
  unfold Entity.load, mbind, M_bind, gets. cbn beta iota.
  destruct (decide (entry_uniqueId entry <> Entity.uniqueId (Entity.this self)))
    as [Hne | _]; [contradiction|].
  rewrite Hident, String.eqb_refl. cbn [negb].
  unfold Entity.on_this, modify, mret, M_ret. cbn beta iota.
  destruct overwrite; cbn beta iota;
    match goal with |- context [for_each (Entity.load_trait palette) ?l ?s] =>
      destruct (load_traits_return palette l s) as [s' ->] end;
    eexists; reflexivity.
Qed.

Lemma load_mismatch_throws (palette : Entity.Palette) (entry : EntityEntry)
    (overwrite : bool) (self : Entity.Self) :
  entry_uniqueId entry <> Entity.uniqueId (Entity.this self)
  \/ entry_identifier entry <> type_identifier (Entity.type (Entity.this self)) ->
  exists reason, Entity.load palette entry overwrite self = (Throw reason, self).
Proof.
  intros Hmis.
  unfold Entity.load, mbind, M_bind, gets. cbn beta iota.
  destruct (decide (entry_uniqueId entry <> Entity.uniqueId (Entity.this self)))
    as [Hne | Hid]; [eexists; reflexivity|].
  apply dec_stable in Hid.
  destruct (String.eqb_spec (entry_identifier entry)
              (type_identifier (Entity.type (Entity.this self))))
    as [Heq | Hne]; cbn [negb]; [|eexists; reflexivity].
  destruct Hmis; contradiction.
Qed.

(** What [load] does once the identity of the entry is checked: it returns,
    and its log is the log of the loop over the traits. *)
Lemma load_match_log (palette : Entity.Palette) (entry : EntityEntry)
    (overwrite : bool) (self : Entity.Self) :
  entry_uniqueId entry = Entity.uniqueId (Entity.this self) ->
  entry_identifier entry = type_identifier (Entity.type (Entity.this self)) ->
  exists s0 s1 self',
    Entity.load palette entry overwrite self = (Return (), self')
    /\ Entity.logger s0 = Entity.logger self
    /\ for_each (Entity.load_trait palette) (entry_traits entry) s0
       = (Return (), s1)
    /\ Entity.logger self' = Entity.logger s1.
Proof.
  intros Hid Hident.
  unfold Entity.load, mbind, M_bind, gets. cbn beta iota.
  destruct (decide (entry_uniqueId entry <> Entity.uniqueId (Entity.this self)))
    as [Hne | _]; [contradiction|].
  rewrite Hident, String.eqb_refl. cbn [negb].
  unfold Entity.on_this, modify, mret, M_ret. cbn beta iota.
  destruct overwrite; cbn beta iota;
    match goal with |- context [for_each (Entity.load_trait palette) ?l ?s] =>
      destruct (load_traits_return palette l s) as [s' Hloop];
      exists s, s'; rewrite Hloop
    end;
    eexists; repeat split.
Qed.

(** The loop of [load] over the traits logs every trait that the palette
    does not know. *)
Lemma load_traits_unknown_logged (palette : Entity.Palette) (l : list string)
    (self self' : Entity.Self) (trait : string) :
  for_each (Entity.load_trait palette) l self = (Return (), self') ->
  trait ∈ l -> Entity.traits_get palette trait = None ->
  ("Failed to load trait " +:+ trait
   +:+ " for entity as it does not exist in the palette")
  ∈ Entity.logger self'.
Proof.
  revert self. induction l as [|name l IH]; intros self Hloop Hin Hunknown.
  { now apply not_elem_of_nil in Hin. }
  cbn [for_each] in Hloop. unfold mbind, M_bind in Hloop.
  destruct (load_trait_log palette name self) as (s1 & lines1 & Hstep & Hlog1).
  rewrite Hstep in Hloop.
  apply elem_of_cons in Hin as [-> | Hin]; [|exact (IH s1 Hloop Hin Hunknown)].
  destruct (for_each_log (Entity.load_trait palette) l (load_trait_log palette) s1)
    as (s2 & lines2 & Hrest & Hlog2).
  rewrite Hrest in Hloop. injection Hloop as <-.
  rewrite Hlog2. apply elem_of_app. left.
  unfold Entity.load_trait in Hstep. rewrite Hunknown in Hstep.
  unfold Entity.log, modify in Hstep. injection Hstep as <-.
  cbn [Entity.logger]. apply elem_of_app. right. apply list_elem_of_here.
Qed.

(** X12.  [load] throws on nothing but a mismatch of identity: it returns
    exactly when the unique id and the identifier of the entry are those of
    the entity, so that no trait, known to the palette or not, makes it
    throw.  The log only grows, and when [load] returns every trait of the
    entry that the palette does not know has its line in the log. *)
Theorem load_returns_iff_identity_matches (palette : Entity.Palette)
    (entry : EntityEntry) (overwrite : bool) (self : Entity.Self) :
  (returns (fst (Entity.load palette entry overwrite self)) = true
   <-> entry_uniqueId entry = Entity.uniqueId (Entity.this self)
       /\ entry_identifier entry
          = type_identifier (Entity.type (Entity.this self)))
  /\ (exists lines,
        Entity.logger (snd (Entity.load palette entry overwrite self))
        = Entity.logger self ++ lines)
  /\ (forall trait,
        returns (fst (Entity.load palette entry overwrite self)) = true ->
        trait ∈ entry_traits entry ->
        Entity.traits_get palette trait = None ->
        ("Failed to load trait " +:+ trait
         +:+ " for entity as it does not exist in the palette")
        ∈ Entity.logger (snd (Entity.load palette entry overwrite self))).
Proof.
  destruct (decide (entry_uniqueId entry = Entity.uniqueId (Entity.this self)
                    /\ entry_identifier entry
                       = type_identifier (Entity.type (Entity.this self))))
    as [[Hid Hident] | Hmismatch].
  - destruct (load_match_log palette entry overwrite self Hid Hident)
      as (s0 & s1 & self' & -> & Hlog0 & Hloop & Hlog').
    cbn [fst snd]. split; [split; [intros _; split; assumption|reflexivity]|].
    split.
    + destruct (for_each_log (Entity.load_trait palette) (entry_traits entry)
                  (load_trait_log palette) s0) as (s2 & lines & Hloop2 & Hlog2).
      rewrite Hloop in Hloop2. injection Hloop2 as <-.
      exists lines. now rewrite Hlog', Hlog2, Hlog0.
    + intros trait _ Hin Hunknown. rewrite Hlog'.
      exact (load_traits_unknown_logged palette (entry_traits entry) s0 s1 trait
               Hloop Hin Hunknown).
  - destruct (load_mismatch_throws palette entry overwrite self)
      as [reason ->].
    { apply not_and_l in Hmismatch as [Hne | Hne]; [now left|now right]. }
    cbn [fst snd]. split; [split; [discriminate|intros Hm; contradiction]|].
    split; [exists []; now rewrite app_nil_r|]. discriminate.
Qed.

(** X13.  What [load] of an entry without traits leaves.  The position
    and the rotation are the entry's.  With [overwrite] the components are
    those of the entry and the traits are cleared; without it a component
    that the entity has keeps its value.  Metadata, flags and attributes
    are never overwritten: a key that the entity has keeps its value, with
    or without [overwrite], and a key that it lacks gets the first value
    that the entry lists for it. *)
Theorem load_without_traits (palette : Entity.Palette) (entry : EntityEntry)
    (overwrite : bool) (self : Entity.Self) :
  entry_uniqueId entry = Entity.uniqueId (Entity.this self) ->
  entry_identifier entry = type_identifier (Entity.type (Entity.this self)) ->
  entry_traits entry = [] ->
  exists e',
    Entity.load palette entry overwrite self
    = (Return (), {| Entity.this := e'; Entity.logger := Entity.logger self |})
    /\ Entity.position e' = entry_position entry
    /\ Entity.rotation e' = entry_rotation entry
    /\ Entity.traits e'
       = (if overwrite then [] else Entity.traits (Entity.this self))
    /\ (forall k, Map_get k (Entity.components e')
          = match (if overwrite then None
                   else Map_get k (Entity.components (Entity.this self))) with
            | Some v => Some v
            | None => Map_get k (entry_components entry)
            end)
    /\ (forall k, Map_get k (Entity.metadata e')
          = match Map_get k (Entity.metadata (Entity.this self)) with
            | Some v => Some v
            | None => Map_get k (entry_metadata entry)
            end)
    /\ (forall k, Map_get k (Entity.flags e')
          = match Map_get k (Entity.flags (Entity.this self)) with
            | Some v => Some v
            | None => Map_get k (entry_flags entry)
            end)
    /\ (forall k, Map_get k (Entity.attributes e')
          = match Map_get k (Entity.attributes (Entity.this self)) with
            | Some v => Some v
            | None => Map_get k (entry_attributes entry)
            end).
Proof.
  intros Hid Hident Htraits.
  unfold Entity.load, mbind, M_bind, gets. cbn beta iota.
  destruct (decide (entry_uniqueId entry <> Entity.uniqueId (Entity.this self)))
    as [Hne | _]; [contradiction|].
  rewrite Hident, String.eqb_refl. cbn [negb]. rewrite Htraits.
  unfold Entity.on_this, modify, mret, M_ret. cbn [for_each].
  unfold mret, M_ret.
  destruct overwrite; cbn beta iota;
    cbn [Entity.this Entity.logger];
    (eexists; split; [reflexivity|]);
    cbn [Entity.position Entity.rotation Entity.traits Entity.components
         Entity.metadata Entity.flags Entity.attributes
         Entity.set_position Entity.set_rotation Entity.set_traits
         Entity.set_components Entity.set_metadata Entity.set_flags
         Entity.set_attributes];
    repeat split; try reflexivity; intros k; rewrite Map_get_add_missing;
    reflexivity.
Qed.

Lemma load_without_traits_witness :
  exists e',
    Entity.load sample_palette entry_for_sample false
      {| Entity.this := sample_entity; Entity.logger := [] |}
    = (Return (), {| Entity.this := e'; Entity.logger := [] |})
    /\ Entity.position e' = entry_position entry_for_sample
    /\ Entity.rotation e' = entry_rotation entry_for_sample
    /\ Entity.traits e' = Entity.traits sample_entity
    /\ (forall k, Map_get k (Entity.components e')
          = match Map_get k (Entity.components sample_entity) with
            | Some v => Some v
            | None => Map_get k (entry_components entry_for_sample)
            end)
    /\ (forall k, Map_get k (Entity.metadata e')
          = match Map_get k (Entity.metadata sample_entity) with
            | Some v => Some v
            | None => Map_get k (entry_metadata entry_for_sample)
            end)
    /\ (forall k, Map_get k (Entity.flags e')
          = match Map_get k (Entity.flags sample_entity) with
            | Some v => Some v
            | None => Map_get k (entry_flags entry_for_sample)
            end)
    /\ (forall k, Map_get k (Entity.attributes e')
          = match Map_get k (Entity.attributes sample_entity) with
            | Some v => Some v
            | None => Map_get k (entry_attributes entry_for_sample)
            end).
Proof.
  apply (load_without_traits sample_palette entry_for_sample false
           {| Entity.this := sample_entity; Entity.logger := [] |});
    reflexivity.
Defined.

(** X14.  [addTrait] never throws.  A trait that is attached already is
    left alone: nothing changes and nothing is logged.  Otherwise the
    entity is what the constructor of the trait makes of it, or, when the
    constructor throws, the entity as it was, with the failure logged. *)
Theorem addTrait_outcomes (palette : Entity.Palette) (trait : Entity.TraitType)
    (self : Entity.Self) :
  exists self',
    Entity.addTrait palette trait self = (Return (), self')
    /\ (Entity.hasTrait (Entity.trait_identifier trait) (Entity.this self) = true ->
        self' = self)
    /\ (Entity.hasTrait (Entity.trait_identifier trait) (Entity.this self) = false ->
        match Entity.trait_new trait (Entity.this self) with
        | Return e' =>
          Entity.this self' = e'
          /\ (is_Some (Entity.traits_get palette (Entity.trait_identifier trait)) ->
              Entity.logger self' = Entity.logger self)
        | Throw _ =>
          Entity.this self' = Entity.this self
          /\ exists lines, lines <> []
               /\ Entity.logger self' = Entity.logger self ++ lines
        end).
Proof.
  unfold Entity.addTrait, mbind, M_bind, gets. cbn beta iota.
  destruct (Entity.hasTrait _ _) eqn:Hhas.
  { exists self. split; [reflexivity|]. split; [reflexivity|discriminate]. }
  destruct (Entity.traits_get palette _) as [known|]; cbn beta iota;
    unfold try_catch, Entity.log, modify, mret, M_ret;
    cbn [Entity.this Entity.logger];
    destruct (Entity.trait_new trait (Entity.this self)) as [e'|reason];
    (eexists; split; [reflexivity|]); (split; [discriminate|]); intros _;
    cbn [Entity.this Entity.logger].
  - split; [reflexivity|]. intros _. reflexivity.
  - split; [reflexivity|]. eexists. split; [|reflexivity]. discriminate.
  - split; [reflexivity|]. intros [? Hnone]. discriminate.
  - split; [reflexivity|]. eexists. split; [|now rewrite <- app_assoc].
    discriminate.
Qed.

(** ** The record codec and the unique ids *)

Lemma json_native_mapM {A : Type} (f : A -> result JSON.value) (l : list A) :
  Forall (fun a => exists doc, f a = Return doc /\ json_native doc = true) l ->
  exists docs, mapM f l = Return docs /\ forallb json_native docs = true.
Proof.
  induction 1 as [|a l [d [Hd Hn]] _ [ds [Hds Hns]]]; [now exists []|].
  exists (d :: ds). rewrite mapM_cons, Hd, Hds. split; [reflexivity|].
  cbn [forallb]. now rewrite Hn, Hns.
Qed.

(** X15.  [JSON.stringify] with the replacer of the provider never throws,
    and what it writes is JSON: the document holds no bigint and no number
    that is not finite, whatever the value holds.  The TypeError of a
    bigint is out of reach, since the replacer turns every bigint into a
    string first. *)
Theorem stringify_gives_json (v : JSON.value) :
  exists doc, JSON.stringify v = Return doc /\ json_native doc = true.
Proof.
  induction v as [| b | n | n | s | xs IH | ps IH] using value_ind.
  - eexists; split; reflexivity.
  - eexists; split; reflexivity.
  - destruct n; eexists; split; reflexivity.
  - eexists; split; reflexivity.
  - eexists; split; reflexivity.
  - destruct (json_native_mapM JSON.stringify xs IH)
      as [docs [Hd Hn]].
    exists (JSON.Array docs). simpl. fold (mapM JSON.stringify xs).
    rewrite Hd. split; [reflexivity|exact Hn].
  - set (f := fun p : string * JSON.value =>
                x ← JSON.stringify (snd p); Return (fst p, x)).
    assert (exists docs, mapM f ps = Return docs
              /\ forallb (fun p => json_native (snd p)) docs = true)
      as [docs [Hd Hn]].
    { induction IH as [|[k v] ps [d [Hd Hn]] _ [ds [Hds Hns]]];
        [now exists []|].
      exists ((k, d) :: ds). rewrite mapM_cons.
      change (f (k, v)) with (x ← JSON.stringify v; Return (k, x)).
      cbn [snd] in Hd. rewrite Hd, Hds. split; [reflexivity|].
      cbn [forallb snd]. now rewrite Hn, Hns. }
    exists (JSON.Object docs). simpl. fold f. fold (mapM f ps).
    rewrite Hd. split; [reflexivity|exact Hn].
Qed.

Lemma lor_disjoint (a b : Z) : Z.land a b = 0 -> Z.lor a b = a + b.
Proof. intros H. pose proof (Z.add_lor_land a b) as Hadd. lia. Qed.

Lemma number_shl_19_small (network : Z) :
  0 <= network < 4096 -> number_shl network 19 = network * 2 ^ 19.
Proof.
  intros H. unfold number_shl, ToInt32.
  change (2 ^ 31) with 2147483648. change (2 ^ 32) with 4294967296.
  rewrite (Z.mod_small (network + 2147483648)) by lia.
  replace (network + 2147483648 - 2147483648) with network by lia.
  rewrite Z.shiftl_mul_pow2 by lia. change (2 ^ 19) with 524288.
  rewrite Z.mod_small by lia. lia.
Qed.

(** X16.  The layout of a unique id.  For a network id below 4096 and a
    runtime id below 1024 the three fields do not overlap: the id is
    [network * 2^19 + jitter * 2^10 + runtimeId], with the jitter of the
    clock below 512, so the id is a non-negative number below 2^31 and the
    network id, the jitter and the runtime id can all be read back from
    it. *)
Theorem createUniqueId_layout (now network runtimeId : Z) :
  0 <= network < 4096 -> 0 <= runtimeId < 1024 ->
  createUniqueId now network runtimeId
  = network * 2 ^ 19 + jitter now * 2 ^ 10 + runtimeId
  /\ 0 <= createUniqueId now network runtimeId < 2 ^ 31
  /\ createUniqueId now network runtimeId / 2 ^ 19 = network
  /\ createUniqueId now network runtimeId / 2 ^ 10 mod 2 ^ 9 = jitter now
  /\ createUniqueId now network runtimeId mod 2 ^ 10 = runtimeId.
Proof.
  intros Hn Hr. pose proof (jitter_range now) as Hj.
  assert (createUniqueId now network runtimeId
          = network * 2 ^ 19 + jitter now * 2 ^ 10 + runtimeId) as Heq.
  { unfold createUniqueId. cbn zeta.
    rewrite number_shl_19_small by assumption.
    rewrite Z.shiftl_mul_pow2 by lia.
    assert (Z.land (network * 2 ^ 19) (jitter now * 2 ^ 10) = 0) as H1.
    { apply Z.bits_inj'. intros n Hn0. rewrite Z.land_spec, Z.bits_0.
      rewrite <- !Z.shiftl_mul_pow2 by lia.
      destruct (Z_lt_le_dec n 19) as [Hlt | Hge].
      - rewrite (Z.shiftl_spec_low network) by assumption. reflexivity.
      - rewrite (Z.shiftl_spec (jitter now)) by assumption.
        destruct (Z.eq_dec (jitter now) 0) as [-> | Hnz];
          [rewrite Z.bits_0; apply andb_false_r|].
        rewrite (Z.bits_above_log2 (jitter now)); [apply andb_false_r|lia|].
        apply Z.log2_lt_pow2; [lia|].
        apply Z.lt_le_trans with (2 ^ 9); [lia|].
        apply Z.pow_le_mono_r; lia. }
    rewrite (lor_disjoint _ _ H1).
    assert (Z.land (network * 2 ^ 19 + jitter now * 2 ^ 10) runtimeId = 0) as H2.
    { rewrite <- (lor_disjoint _ _ H1).
      apply Z.bits_inj'. intros n Hn0.
      rewrite Z.land_spec, Z.lor_spec, Z.bits_0.
      rewrite <- !Z.shiftl_mul_pow2 by lia.
      destruct (Z_lt_le_dec n 10) as [Hlt | Hge].
      - rewrite !Z.shiftl_spec_low by lia. reflexivity.
      - rewrite (small_high_bits runtimeId n) by assumption.
        apply andb_false_r. }
    now rewrite (lor_disjoint _ _ H2). }
  rewrite Heq.
  change (2 ^ 19) with 524288. change (2 ^ 10) with 1024.
  change (2 ^ 9) with 512. change (2 ^ 31) with 2147483648.
  split; [reflexivity|]. split; [lia|].
  split; [|split].
  - symmetry. apply Z.div_unique with (jitter now * 1024 + runtimeId); lia.
  - replace (network * 524288 + jitter now * 1024 + runtimeId)
      with (runtimeId + (network * 512 + jitter now) * 1024) by lia.
    rewrite Z.div_add by lia. rewrite (Z.div_small runtimeId) by lia.
    rewrite Z.add_0_l, Z.add_comm, Z.mod_add by lia.
    apply Z.mod_small; lia.
  - replace (network * 524288 + jitter now * 1024 + runtimeId)
      with (runtimeId + (network * 512 + jitter now) * 1024) by lia.
    rewrite Z.mod_add by lia. apply Z.mod_small; lia.
Qed.

Lemma createUniqueId_layout_witness :
  createUniqueId 1700000000000 10 7 = 10 * 2 ^ 19 + jitter 1700000000000 * 2 ^ 10 + 7
  /\ 0 <= createUniqueId 1700000000000 10 7 < 2 ^ 31
  /\ createUniqueId 1700000000000 10 7 / 2 ^ 19 = 10
  /\ createUniqueId 1700000000000 10 7 / 2 ^ 10 mod 2 ^ 9 = jitter 1700000000000
  /\ createUniqueId 1700000000000 10 7 mod 2 ^ 10 = 7.
Proof. apply (createUniqueId_layout 1700000000000 10 7); lia. Defined.

(** ** Spawning and despawning *)

Lemma spawned_insert (w : Entity.World) (d d' u' : Z)
    (of_dimension : gmap Z Entity.t) :
  default ∅ (<[d := of_dimension]> (Entity.dimension_entities w) !! d') !! u'
  = if decide (d' = d) then of_dimension !! u'
    else spawned w d' u'.
Proof.
  unfold spawned. destruct (decide (d' = d)) as [-> | Hne].
  - now rewrite lookup_insert_eq.
  - now rewrite lookup_insert_ne by congruence.
Qed.

(** X17.  [spawn] of an entity without traits returns and changes the
    entities of one dimension at one id: the dimension of the entity holds,
    under its unique id, the entity set alive, in place of what it held
    there; every other id of every dimension holds what it held; the store,
    the counter of runtime ids and the log are as before. *)
Theorem spawn_registers_entity (palette : Entity.Palette) (e : Entity.t)
    (w : Entity.World) :
  Entity.traits e = [] ->
  exists w',
    Entity.spawn palette e w = (Return (), w')
    /\ spawned w' (Entity.dimension e) (Entity.uniqueId e)
       = Some (Entity.set_isAlive true e)
    /\ (forall d u, d <> Entity.dimension e \/ u <> Entity.uniqueId e ->
          spawned w' d u = spawned w d u)
    /\ Entity.world_db w' = Entity.world_db w
    /\ Entity.static_runtimeId w' = Entity.static_runtimeId w
    /\ Entity.world_logger w' = Entity.world_logger w.
Proof.
  intros Htraits.
  unfold Entity.spawn, mbind, M_bind, Entity.method, modify.
  rewrite Htraits. cbn [for_each mret M_ret Entity.this Entity.logger].
  eexists. split; [reflexivity|].
  cbn [Entity.world_db Entity.static_runtimeId Entity.world_logger
       Entity.dimension Entity.uniqueId Entity.set_isAlive].
  split; [|split; [|repeat split]].
  - unfold spawned at 1. cbn [Entity.dimension_entities].
    rewrite spawned_insert.
    destruct (decide (Entity.dimension e = Entity.dimension e)); [|congruence].
    apply lookup_insert_eq.
  - intros d u Hother. unfold spawned at 1. cbn [Entity.dimension_entities].
    rewrite spawned_insert. destruct (decide (d = Entity.dimension e)) as [-> | Hd];
      [|reflexivity].
    destruct Hother as [Hd | Hu]; [contradiction|].
    now rewrite lookup_insert_ne by congruence.
Qed.

Lemma spawn_registers_entity_witness :
  exists w',
    Entity.spawn sample_palette sample_entity (world_of empty_db)
    = (Return (), w')
    /\ spawned w' (Entity.dimension sample_entity) (Entity.uniqueId sample_entity)
       = Some (Entity.set_isAlive true sample_entity)
    /\ (forall d u, d <> Entity.dimension sample_entity
                    \/ u <> Entity.uniqueId sample_entity ->
          spawned w' d u = spawned (world_of empty_db) d u)
    /\ Entity.world_db w' = Entity.world_db (world_of empty_db)
    /\ Entity.static_runtimeId w' = Entity.static_runtimeId (world_of empty_db)
    /\ Entity.world_logger w' = Entity.world_logger (world_of empty_db).
Proof.
  apply (spawn_registers_entity sample_palette sample_entity (world_of empty_db)).
  reflexivity.
Defined.

Lemma despawn_traits_return (palette : Entity.Palette)
    (onDespawn : Entity.TraitType -> Entity.t -> result Entity.t)
    (l : list string) (self : Entity.Self) :
  exists self',
    for_each (EntityLife.despawn_trait palette onDespawn) l self
    = (Return (), self').
Proof.
  revert self. induction l as [|i l IH]; intros self; [eexists; reflexivity|].
  cbn [for_each]. unfold mbind, M_bind.
  assert (exists s1, EntityLife.despawn_trait palette onDespawn i self
                     = (Return (), s1)) as [s1 ->].
  { unfold EntityLife.despawn_trait.
    destruct (Entity.attached_trait palette (Entity.this self) i) as [trait|];
      [|eexists; reflexivity].
    destruct (onDespawn trait (Entity.this self)); eexists; reflexivity. }
  apply IH.
Qed.

(** X18.  [despawn] always returns, whatever the hooks of the traits do,
    and takes out of the entities of the dimension the one id of the
    entity: that id is free afterwards, every other id of every dimension
    holds what it held, and the store and the counter of runtime ids are
    as before. *)
Theorem despawn_unregisters_entity (palette : Entity.Palette)
    (onDespawn : Entity.TraitType -> Entity.t -> result Entity.t)
    (e : Entity.t) (w : Entity.World) :
  exists e' w',
    EntityLife.despawn palette onDespawn e w = (Return e', w')
    /\ spawned w' (Entity.dimension e) (Entity.uniqueId e) = None
    /\ (forall d u, d <> Entity.dimension e \/ u <> Entity.uniqueId e ->
          spawned w' d u = spawned w d u)
    /\ Entity.world_db w' = Entity.world_db w
    /\ Entity.static_runtimeId w' = Entity.static_runtimeId w.
Proof.
  unfold EntityLife.despawn, Entity.method. cbn zeta.
  cbn [Entity.world_logger Entity.world_db Entity.dimension_entities
       Entity.static_runtimeId Entity.clock].
  destruct (despawn_traits_return palette onDespawn (Entity.traits e)
              {| Entity.this := Entity.set_isAlive false e;
                 Entity.logger := Entity.world_logger w |}) as [self' ->].
  eexists _, _. split; [reflexivity|].
  cbn [Entity.world_db Entity.static_runtimeId].
  split; [|split; [|split; reflexivity]].
  - unfold spawned at 1. cbn [Entity.dimension_entities].
    rewrite spawned_insert.
    destruct (decide (Entity.dimension e = Entity.dimension e)); [|congruence].
    apply lookup_delete_eq.
  - intros d u Hother. unfold spawned at 1. cbn [Entity.dimension_entities].
    rewrite spawned_insert. destruct (decide (d = Entity.dimension e)) as [-> | Hd];
      [|reflexivity].
    destruct Hother as [Hd | Hu]; [contradiction|].
    now rewrite lookup_delete_ne by congruence.
Qed.

(** X19.  [spawn] and then [despawn] of an entity without traits, at an id
    that was free, leave the entities of every dimension as they were: both
    return, no id holds an entity that it did not hold before, and the
    entity that comes back is the entity itself, not alive. *)
Theorem spawn_then_despawn (palette : Entity.Palette)
    (onDespawn : Entity.TraitType -> Entity.t -> result Entity.t)
    (e : Entity.t) (w : Entity.World) :
  Entity.traits e = [] ->
  spawned w (Entity.dimension e) (Entity.uniqueId e) = None ->
  exists w1 w2,
    Entity.spawn palette e w = (Return (), w1)
    /\ EntityLife.despawn palette onDespawn (Entity.set_isAlive true e) w1
       = (Return (Entity.set_isAlive false e), w2)
    /\ (forall d u, spawned w2 d u = spawned w d u)
    /\ Entity.world_db w2 = Entity.world_db w.
Proof.
  intros Htraits Hfree.
  unfold Entity.spawn, mbind, M_bind, Entity.method, modify.
  rewrite Htraits. cbn [for_each mret M_ret Entity.this Entity.logger].
  eexists _, _. split; [reflexivity|].
  unfold EntityLife.despawn, Entity.method. cbn zeta.
  cbn [Entity.traits Entity.set_isAlive]. rewrite Htraits.
  cbn [for_each mret M_ret Entity.this Entity.logger Entity.world_logger
       Entity.world_db Entity.dimension_entities Entity.static_runtimeId
       Entity.clock Entity.dimension Entity.uniqueId].
  split; [reflexivity|]. split; [|reflexivity].
  intros d u. unfold spawned at 1. cbn [Entity.dimension_entities].
  change (Entity.uniqueId (Entity.set_isAlive true e)) with (Entity.uniqueId e).
  change (Entity.dimension (Entity.set_isAlive true e))
    with (Entity.dimension e).
  rewrite lookup_insert_eq. cbn [default from_option id].
  destruct (decide (d = Entity.dimension e)) as [-> | Hd].
  - rewrite lookup_insert_eq. cbn [default from_option id].
    destruct (decide (u = Entity.uniqueId e)) as [-> | Hu].
    + now rewrite lookup_delete_eq, Hfree.
    + rewrite lookup_delete_ne, lookup_insert_ne by congruence. reflexivity.
  - rewrite !lookup_insert_ne by congruence. reflexivity.
Qed.

Lemma spawn_then_despawn_witness :
  exists w1 w2,
    Entity.spawn sample_palette sample_entity (world_of empty_db)
    = (Return (), w1)
    /\ EntityLife.despawn sample_palette (fun _ e => Return e)
         (Entity.set_isAlive true sample_entity) w1
       = (Return (Entity.set_isAlive false sample_entity), w2)
    /\ (forall d u, spawned w2 d u = spawned (world_of empty_db) d u)
    /\ Entity.world_db w2 = Entity.world_db (world_of empty_db).
Proof.
  apply (spawn_then_despawn sample_palette (fun _ e => Return e) sample_entity
           (world_of empty_db)); reflexivity.
Defined.

(** ** Building entities and the startup of the provider *)

Lemma method_counter {A : Type} (e : Entity.t) (m : M Entity.Self A)
    (w : Entity.World) :
  Entity.static_runtimeId (snd (Entity.method e m w)) = Entity.static_runtimeId w
  /\ Entity.clock (snd (Entity.method e m w)) = Entity.clock w.
Proof. unfold Entity.method. destruct (m _) as [r s]. split; reflexivity. Qed.

Lemma method_returns {A : Type} (e : Entity.t) (m : M Entity.Self A)
    (w : Entity.World) :
  returns (fst (Entity.method e m w))
  = returns (fst (m {| Entity.this := e; Entity.logger := Entity.world_logger w |})).
Proof. unfold Entity.method. destruct (m _) as [[a|reason] s]; reflexivity. Qed.

Lemma EntityType_get_identifier (palette : Entity.Palette) (name : string)
    (ty : EntityType) :
  Entity.EntityType_get palette name = Some ty -> type_identifier ty = name.
Proof.
  unfold Entity.EntityType_get. intros Hfind.
  apply find_some in Hfind as [_ Heq]. now apply String.eqb_eq.
Qed.

Lemma new_world (palette : Entity.Palette) (index : Z) (name : string)
    (properties : Entity.EntityProperties) (w : Entity.World) :
  Entity.static_runtimeId (snd (Entity.new palette index name properties w))
  = Entity.static_runtimeId w + 1
  /\ Entity.clock (snd (Entity.new palette index name properties w))
     = Entity.clock w.
Proof.
  unfold Entity.new, mbind, M_bind, Entity.next_runtimeId. cbn beta iota.
  destruct (Entity.EntityType_get palette name) as [ty|]; [|split; reflexivity].
  unfold gets. cbn beta iota.
  match goal with |- context [if Entity.isPlayer ?e then _ else _] =>
    destruct (Entity.isPlayer e) end; [split; reflexivity|].
  match goal with |- context [Entity.method ?e ?m ?w'] =>
    pose proof (method_counter e m w') as [H1 H2];
    destruct (Entity.method e m w') as [[[u e']|reason] w''] end;
    cbn [snd] in *; split; assumption.
Qed.

(** The constructor returns for a known type and an entry that carries the
    id given, an id that is not zero. *)
Lemma new_returns_on_sound_entry (palette : Entity.Palette) (index : Z)
    (uniqueId : Z) (entry : EntityEntry) (ty : EntityType) (w : Entity.World) :
  Entity.EntityType_get palette (entry_identifier entry) = Some ty ->
  entry_identifier entry = "minecraft:player"
  \/ (uniqueId <> 0 /\ entry_uniqueId entry = uniqueId) ->
  exists e w',
    Entity.new palette index (entry_identifier entry)
      {| Entity.properties_uniqueId := Some uniqueId;
         Entity.properties_entry := Some entry |} w = (Return e, w').
Proof.
  intros Hty Hsound.
  pose proof (EntityType_get_identifier palette _ ty Hty) as Hident.
  unfold Entity.new, mbind, M_bind, Entity.next_runtimeId, gets.
  cbn beta iota. rewrite Hty. cbn beta iota.
  cbn [Entity.properties_uniqueId Entity.properties_entry].
  unfold Entity.isPlayer. cbn [Entity.type].
  destruct (String.eqb_spec (type_identifier ty) "minecraft:player")
    as [Hplayer | Hother]; [eexists _, _; reflexivity|].
  destruct Hsound as [Hp | [Hnz Hid]]; [congruence|].
  destruct (decide (uniqueId = 0)) as [Hz | _]; [contradiction|].
  unfold Entity.method.
  match goal with |- context [Entity.load palette entry true ?self] =>
    destruct (load_match_returns palette entry true self) as [s1 ->];
      [exact Hid|cbn [Entity.this Entity.type]; congruence|] end.
  destruct (addTraits_return palette
              (Entity.getRegistryFor palette (type_identifier ty)) s1)
    as [s2 ->].
  eexists _, _. reflexivity.
Qed.

(** X20.  What [new Entity] does to the world, and when it throws.  The
    static counter of runtime ids advances by exactly one, whether the
    constructor returns or throws; the store, the spawned entities and the
    clock are untouched.  The constructor returns exactly when the type is
    known and, for an entity that is not a player and is given an entry,
    the entry carries the unique id of the entity (the id given, or a
    created one where the id given is absent or zero) and the identifier of
    its type. *)
Theorem new_outcome (palette : Entity.Palette) (index : Z) (name : string)
    (properties : Entity.EntityProperties) (w : Entity.World) :
  let r := Entity.new palette index name properties w in
  let created :=
    fun ty => createUniqueId (Entity.clock w) (type_network ty)
                (Entity.static_runtimeId w + 1) in
  Entity.static_runtimeId (snd r) = Entity.static_runtimeId w + 1
  /\ Entity.world_db (snd r) = Entity.world_db w
  /\ Entity.dimension_entities (snd r) = Entity.dimension_entities w
  /\ Entity.clock (snd r) = Entity.clock w
  /\ (returns (fst r) = true
      <-> exists ty,
            Entity.EntityType_get palette name = Some ty
            /\ (type_identifier ty = "minecraft:player"
                \/ match Entity.properties_entry properties with
                   | None => True
                   | Some entry =>
                     entry_uniqueId entry
                     = match Entity.properties_uniqueId properties with
                       | Some u => if decide (u = 0) then created ty else u
                       | None => created ty
                       end
                     /\ entry_identifier entry = type_identifier ty
                   end)).
Proof.
  cbn zeta.
  unfold Entity.new, mbind, M_bind, Entity.next_runtimeId. cbn beta iota.
  destruct (Entity.EntityType_get palette name) as [ty|].
  2: { cbn. repeat split; try discriminate. intros [ty [Hty _]]. discriminate. }
  unfold gets. cbn beta iota. cbn [Entity.clock].
  set (uid := match Entity.properties_uniqueId properties with
              | Some u => _ | None => _ end).
  match goal with |- context [if Entity.isPlayer ?e then _ else _] =>
    set (e0 := e) end.
  unfold Entity.isPlayer. cbn [Entity.type e0].
  destruct (String.eqb_spec (type_identifier ty) "minecraft:player")
    as [Hplayer | Hother].
  { cbn. repeat split; try reflexivity. intros _. exists ty. split; [reflexivity|].
    now left. }
  assert (forall self : Entity.Self, Entity.this self = e0 ->
            (returns (fst
               ((match Entity.properties_entry properties with
                 | Some entry => Entity.load palette entry true
                 | None => mret ()
                 end ≫= fun _ =>
                 for_each (Entity.addTrait palette)
                   (Entity.getRegistryFor palette (type_identifier ty))) self))
             = true
             <-> match Entity.properties_entry properties with
                 | None => True
                 | Some entry =>
                   entry_uniqueId entry = uid
                   /\ entry_identifier entry = type_identifier ty
                 end)) as Hinner.
  { intros self Hself. unfold mbind, M_bind.
    destruct (Entity.properties_entry properties) as [entry|].
    - destruct (decide (entry_uniqueId entry = uid)) as [Hid | Hid].
      + destruct (String.eqb_spec (entry_identifier entry) (type_identifier ty))
          as [Hident | Hident].
        * destruct (load_match_returns palette entry true self) as [s1 ->];
            [now rewrite Hself|now rewrite Hself|].
          destruct (addTraits_return palette
                      (Entity.getRegistryFor palette (type_identifier ty)) s1)
            as [s2 ->].
          split; [intros _; split; assumption|reflexivity].
        * destruct (load_mismatch_throws palette entry true self) as [reason ->];
            [right; now rewrite Hself|].
          split; [discriminate|]. intros [_ Heq]. contradiction.
      + destruct (load_mismatch_throws palette entry true self) as [reason ->];
          [left; now rewrite Hself|].
        split; [discriminate|]. intros [Heq _]. contradiction.
    - unfold mret, M_ret.
      destruct (addTraits_return palette
                  (Entity.getRegistryFor palette (type_identifier ty)) self)
        as [s2 ->].
      split; reflexivity. }
  match goal with |- context [Entity.method e0 ?m ?w'] =>
    pose proof (method_frame e0 m w') as [Hf1 Hf2];
    pose proof (method_counter e0 m w') as [Hf3 Hf4];
    pose proof (method_returns e0 m w') as Hret;
    specialize (Hinner {| Entity.this := e0;
                          Entity.logger := Entity.world_logger w' |} eq_refl);
    unfold mbind, M_bind in Hinner;
    rewrite <- Hret in Hinner;
    destruct (Entity.method e0 m w') as [[[u e']|reason] w''] end;
    cbn [fst snd] in *;
    cbn [Entity.static_runtimeId Entity.world_db Entity.dimension_entities
         Entity.clock Entity.world_logger] in *;
    unfold mret, M_ret; cbn [fst snd];
    (split; [assumption|]); (split; [assumption|]); (split; [assumption|]);
    (split; [assumption|]).
  - split; [|reflexivity]. intros _. exists ty. split; [reflexivity|].
    right. now apply Hinner.
  - split; [discriminate|]. intros [ty0 [Hty [Hplayer | Hcond]]].
    + congruence.
    + assert (ty0 = ty) as -> by congruence. now apply Hinner.
Qed.

Lemma spawn_frame (palette : Entity.Palette) (e : Entity.t) (w : Entity.World) :
  exists w',
    Entity.spawn palette e w = (Return (), w')
    /\ Entity.world_db w' = Entity.world_db w
    /\ Entity.static_runtimeId w' = Entity.static_runtimeId w
    /\ Entity.clock w' = Entity.clock w.
Proof.
  unfold Entity.spawn, mbind, M_bind, Entity.method.
  destruct (spawn_traits_return palette (Entity.traits e)
              {| Entity.this := Entity.set_isAlive true e;
                 Entity.logger := Entity.world_logger w |}) as [self' ->].
  eexists. repeat split.
Qed.

Lemma for_each_invariant {S A : Type} (P : S -> Prop) (body : A -> M S unit)
    (l : list A) (s : S) :
  (forall a s0, P s0 -> P (snd (body a s0))) ->
  P s -> P (snd (for_each body l s)).
Proof.
  intros Hbody. revert s. induction l as [|a l IH]; intros s Hs; [exact Hs|].
  cbn [for_each]. unfold mbind, M_bind.
  pose proof (Hbody a s Hs) as Hstep.
  destruct (body a s) as [[[]|reason] s1]; cbn [snd] in *;
    [now apply IH|exact Hstep].
Qed.

(** *** A parsed object that has the shape of an entry *)

Lemma mapM_as_ParsedTrait (names : list JSON.value) (trs : list string) :
  mapM as_string names = Some trs ->
  mapM as_ParsedTrait names = Some (map TraitName trs).
Proof.
  revert trs. induction names as [|v names IH]; intros trs.
  { intros [= <-]. reflexivity. }
  cbn [mapM]. destruct v; cbn [as_string mbind option_bind]; try discriminate.
  destruct (mapM as_string names) as [l|]; cbn [mbind option_bind mret option_ret];
    [|discriminate].
  intros [= <-]. cbn [as_ParsedTrait mbind option_bind].
  rewrite (IH l eq_refl). reflexivity.
Qed.

Lemma as_EntityEntry_parsed (data : JSON.value) (entry : EntityEntry) :
  as_EntityEntry data = Some entry ->
  get FieldUniqueId data = Return (Some (JSON.Bigint (entry_uniqueId entry)))
  /\ get FieldIdentifier data = Return (Some (JSON.Str (entry_identifier entry)))
  /\ truthy data = true
  /\ as_ParsedFields data
     = Some {| parsed_position := entry_position entry;
               parsed_rotation := entry_rotation entry;
               parsed_components := entry_components entry;
               parsed_traits := map TraitName (entry_traits entry);
               parsed_metadata := entry_metadata entry;
               parsed_flags := entry_flags entry;
               parsed_attributes := entry_attributes entry |}.
Proof.
  destruct data as [| | | | |xs|ps]; try discriminate.
  unfold as_EntityEntry, as_ParsedFields, get, field_name.
  cbn [as_object mbind option_bind truthy].
  destruct (property "uniqueId" ps) as [[]|]; try discriminate.
  cbn [as_bigint mbind option_bind].
  destruct (property "identifier" ps) as [[]|]; try discriminate.
  cbn [as_string mbind option_bind].
  destruct (property "position" ps ≫= as_Vector3f) as [pos|]; [|discriminate].
  cbn [mbind option_bind].
  destruct (property "rotation" ps ≫= as_Rotation) as [rot|]; [|discriminate].
  cbn [mbind option_bind].
  destruct (property "components" ps ≫= as_entries as_string) as [comps|];
    [|discriminate].
  cbn [mbind option_bind].
  destruct (property "traits" ps ≫= as_array) as [names|]; [|discriminate].
  cbn [mbind option_bind].
  destruct (mapM as_string names) as [trs|] eqn:Htrs; [|discriminate].
  rewrite (mapM_as_ParsedTrait names trs Htrs).
  cbn [mbind option_bind].
  destruct (property "metadata" ps ≫= as_entries as_integer) as [meta|];
    [|discriminate].
  cbn [mbind option_bind].
  destruct (property "flags" ps ≫= as_entries as_integer) as [flgs|];
    [|discriminate].
  cbn [mbind option_bind].
  destruct (property "attributes" ps ≫= as_entries as_string) as [attrs|];
    [|discriminate].
  cbn [mbind option_bind].
  intros [= <-]. repeat split.
Qed.

Lemma for_each_TraitName (palette : Entity.Palette) (l : list string)
    (self : Entity.Self) :
  for_each (Entity.load_trait_parsed palette) (map TraitName l) self
  = for_each (Entity.load_trait palette) l self.
Proof.
  revert self. induction l as [|name l IH]; intros self; [reflexivity|].
  cbn [map for_each]. unfold mbind, M_bind. cbn [Entity.load_trait_parsed].
  destruct (Entity.load_trait palette name self) as [[[]|reason] s1];
    [apply IH|reflexivity].
Qed.

Section ParsedEntries.

Context `{Entity.UntypedFields}.

(** On the object of an entry, [load] does what it does on the entry. *)
Lemma load_parsed_typed (palette : Entity.Palette) (data : JSON.value)
    (entry : EntityEntry) (overwrite : bool) (self : Entity.Self) :
  as_EntityEntry data = Some entry ->
  Entity.load_parsed palette data overwrite self
  = Entity.load palette entry overwrite self.
Proof.
  intros Hview.
  destruct (as_EntityEntry_parsed data entry Hview) as (Hid & Hident & _ & Hfields).
  unfold Entity.load_parsed, Entity.load, mbind, M_bind, gets.
  rewrite Hid, Hident, Hfields. cbn beta iota zeta.
  destruct (decide (entry_uniqueId entry <> Entity.uniqueId (Entity.this self)))
    as [Hne | Heq].
  { rewrite bool_decide_eq_true_2 by exact Hne. reflexivity. }
  rewrite bool_decide_eq_false_2 by exact Heq.
  destruct (negb (String.eqb (entry_identifier entry)
                    (type_identifier (Entity.type (Entity.this self)))));
    [reflexivity|].
  unfold Entity.load_fields, mbind, M_bind, Entity.on_this, modify, mret, M_ret.
  cbn [parsed_position parsed_rotation parsed_components parsed_traits
       parsed_metadata parsed_flags parsed_attributes].
  destruct overwrite; cbn beta iota; rewrite for_each_TraitName; reflexivity.
Qed.

(** On the object of an entry, the constructor that [onStartup] calls is
    the constructor on the entry. *)
Lemma new_parsed_typed (palette : Entity.Palette) (index uniqueId : Z)
    (data : JSON.value) (entry : EntityEntry) (w : Entity.World) :
  as_EntityEntry data = Some entry ->
  Entity.new_parsed palette index (Some (JSON.Str (entry_identifier entry)))
    uniqueId data w
  = Entity.new palette index (entry_identifier entry)
      {| Entity.properties_uniqueId := Some uniqueId;
         Entity.properties_entry := Some entry |} w.
Proof.
  intros Hview.
  destruct (as_EntityEntry_parsed data entry Hview) as (_ & _ & Htruthy & _).
  unfold Entity.new_parsed, Entity.new, mbind, M_bind, Entity.next_runtimeId.
  cbn beta iota.
  destruct (Entity.EntityType_get palette (entry_identifier entry)) as [ty|];
    [|reflexivity].
  unfold gets. cbn beta iota.
  cbn [Entity.properties_uniqueId Entity.properties_entry].
  match goal with |- context [if Entity.isPlayer ?e then _ else _] =>
    destruct (Entity.isPlayer e) end; [reflexivity|].
  rewrite Htruthy. unfold Entity.method.
  rewrite (load_parsed_typed palette data entry true _ Hview).
  reflexivity.
Qed.

(** The body of the loop of [onStartup] leaves the store and the clock as
    they are, whether it returns or throws. *)
Lemma startup_entity_frame (palette : Entity.Palette) (index uniqueId : Z)
    (w : Entity.World) :
  Entity.world_db (snd (startup_entity palette index uniqueId w))
  = Entity.world_db w
  /\ Entity.clock (snd (startup_entity palette index uniqueId w))
     = Entity.clock w.
Proof.
  unfold startup_entity, mbind, M_bind. cbn beta iota.
  destruct (readEntity uniqueId index (Entity.world_db w)) as [entry|reason];
    [|split; reflexivity].
  destruct (get FieldIdentifier entry) as [identifier|reason];
    [|split; reflexivity].
  pose proof (new_parsed_frame palette index identifier uniqueId entry w)
    as Hframe. cbn zeta in Hframe.
  destruct Hframe as (_ & Hdb & _ & Hclock).
  destruct (Entity.new_parsed palette index identifier uniqueId entry w)
    as [[e|reason] w1]; cbn [snd] in *; [|split; assumption].
  destruct (spawn_frame palette e w1) as (w2 & -> & Hdb2 & _ & Hclock2).
  cbn [snd]. split; congruence.
Qed.

(** X21.  [onStartup] only reads the store: whether it returns or throws
    part way, the store and the clock of the world are what they were, in
    every entry and in the closed flag. *)
Theorem onStartup_reads_only (palette : Entity.Palette) (dimensions : list Z)
    (w : Entity.World) :
  Entity.world_db (snd (onStartup palette dimensions w)) = Entity.world_db w
  /\ Entity.clock (snd (onStartup palette dimensions w)) = Entity.clock w.
Proof.
  unfold onStartup.
  apply (for_each_invariant
           (fun w' => Entity.world_db w' = Entity.world_db w
                      /\ Entity.clock w' = Entity.clock w));
    [|split; reflexivity].
  intros index w0 [Hdb Hclock].
  unfold startup_dimension, mbind, M_bind, gets. cbn beta iota.
  destruct (decide _); [split; assumption|].
  apply (for_each_invariant
           (fun w' => Entity.world_db w' = Entity.world_db w
                      /\ Entity.clock w' = Entity.clock w));
    [|split; assumption].
  intros uniqueId w1 [Hdb1 Hclock1].
  destruct (startup_entity_frame palette index uniqueId w1) as [H1 H2].
  split; congruence.
Qed.

(** The body of the loop on a sound record: the entity is built and
    spawned, and the counter of runtime ids has advanced by one. *)
Lemma startup_entity_sound (palette : Entity.Palette) (index uniqueId : Z)
    (w : Entity.World) (data : JSON.value) (entry : EntityEntry) :
  readEntity uniqueId index (Entity.world_db w) = Return data ->
  as_EntityEntry data = Some entry ->
  is_Some (Entity.EntityType_get palette (entry_identifier entry)) ->
  entry_identifier entry = "minecraft:player"
  \/ (uniqueId <> 0 /\ entry_uniqueId entry = uniqueId) ->
  exists w',
    startup_entity palette index uniqueId w = (Return (), w')
    /\ Entity.world_db w' = Entity.world_db w
    /\ Entity.static_runtimeId w' = Entity.static_runtimeId w + 1.
Proof.
  intros Hread Hview [ty Hty] Hsound.
  destruct (as_EntityEntry_parsed data entry Hview) as (_ & Hident & _ & _).
  unfold startup_entity, mbind, M_bind. cbn beta iota.
  rewrite Hread, Hident, (new_parsed_typed palette index uniqueId data entry w Hview).
  destruct (new_returns_on_sound_entry palette index uniqueId entry ty w
              Hty Hsound) as (e & w1 & Hnew).
  pose proof (new_frame palette index (entry_identifier entry)
                {| Entity.properties_uniqueId := Some uniqueId;
                   Entity.properties_entry := Some entry |} w) as [_ Hdb].
  pose proof (new_world palette index (entry_identifier entry)
                {| Entity.properties_uniqueId := Some uniqueId;
                   Entity.properties_entry := Some entry |} w) as [Hcount _].
  rewrite Hnew in Hdb, Hcount |- *. cbn [snd] in *.
  destruct (spawn_frame palette e w1) as (w2 & -> & Hdb2 & Hcount2 & _).
  exists w2. split; [reflexivity|]. split; congruence.
Qed.

(** X22.  [onStartup] returns on a sound store.  When every id listed for
    a dimension has a record that [readEntity] reads as the object of an
    entry, of a type that the palette knows, and the record is that of a
    player or carries the id it is listed under, an id that is not zero,
    then [onStartup] returns, the store is as it was, and the counter of
    runtime ids has advanced by the number of ids listed over the
    dimensions. *)
Theorem onStartup_returns_on_sound_store (palette : Entity.Palette)
    (dimensions : list Z) (w : Entity.World) :
  (forall index uniqueId,
     index ∈ dimensions ->
     uniqueId ∈ readAvailableEntities index (Entity.world_db w) ->
     exists data entry,
       readEntity uniqueId index (Entity.world_db w) = Return data
       /\ as_EntityEntry data = Some entry
       /\ is_Some (Entity.EntityType_get palette (entry_identifier entry))
       /\ (entry_identifier entry = "minecraft:player"
           \/ (uniqueId <> 0 /\ entry_uniqueId entry = uniqueId))) ->
  exists w',
    onStartup palette dimensions w = (Return (), w')
    /\ Entity.world_db w' = Entity.world_db w
    /\ Entity.static_runtimeId w'
       = Entity.static_runtimeId w
         + Z.of_nat (length (concat (map (fun index =>
                       readAvailableEntities index (Entity.world_db w))
                     dimensions))).
Proof.
  intros Hsound. unfold onStartup.
  assert (forall index ids w0,
            Entity.world_db w0 = Entity.world_db w ->
            (forall uniqueId, uniqueId ∈ ids ->
               exists data entry,
                 readEntity uniqueId index (Entity.world_db w) = Return data
                 /\ as_EntityEntry data = Some entry
                 /\ is_Some (Entity.EntityType_get palette (entry_identifier entry))
                 /\ (entry_identifier entry = "minecraft:player"
                     \/ (uniqueId <> 0 /\ entry_uniqueId entry = uniqueId))) ->
            exists w1,
              for_each (startup_entity palette index) ids w0 = (Return (), w1)
              /\ Entity.world_db w1 = Entity.world_db w
              /\ Entity.static_runtimeId w1
                 = Entity.static_runtimeId w0 + Z.of_nat (length ids)) as Hids.
  { intros index ids. induction ids as [|uniqueId ids IH]; intros w0 Hdb Hall.
    - exists w0. split; [reflexivity|]. split; [exact Hdb|]. cbn. lia.
    - destruct (Hall uniqueId) as (data & entry & Hread & Hview & Hty & Hid);
        [apply list_elem_of_here|].
      rewrite <- Hdb in Hread.
      destruct (startup_entity_sound palette index uniqueId w0 data entry
                  Hread Hview Hty Hid) as (w1 & Hrun & Hdb1 & Hcount1).
      destruct (IH w1) as (w2 & Hrest & Hdb2 & Hcount2);
        [congruence|intros u Hu; apply Hall; now apply list_elem_of_further|].
      exists w2. cbn [for_each]. unfold mbind, M_bind. rewrite Hrun.
      split; [exact Hrest|]. split; [exact Hdb2|].
      cbn [length]. lia. }
  revert w Hsound Hids.
  induction dimensions as [|index dimensions IH]; intros w Hsound Hids.
  - exists w. split; [reflexivity|]. split; [reflexivity|]. cbn. lia.
  - assert (exists w1,
              startup_dimension palette index w = (Return (), w1)
              /\ Entity.world_db w1 = Entity.world_db w
              /\ Entity.static_runtimeId w1
                 = Entity.static_runtimeId w
                   + Z.of_nat (length (readAvailableEntities index
                                         (Entity.world_db w))))
      as (w1 & Hrun & Hdb1 & Hcount1).
    { unfold startup_dimension, mbind, M_bind, gets. cbn beta iota.
      destruct (decide _) as [Hempty | _].
      - exists w. split; [reflexivity|]. split; [reflexivity|].
        rewrite Hempty. cbn. lia.
      - apply Hids; [reflexivity|].
        intros u Hu. apply Hsound; [apply list_elem_of_here|exact Hu]. }
    destruct (IH w1) as (w2 & Hrest & Hdb2 & Hcount2).
    + intros i u Hi Hu. rewrite Hdb1 in Hu |- *.
      apply Hsound; [now apply list_elem_of_further|exact Hu].
    + intros i ids w0 Hdb0 Hall. rewrite Hdb1 in Hdb0.
      destruct (Hids i ids w0 Hdb0) as (w3 & H1 & H2 & H3).
      * intros u Hu. destruct (Hall u Hu) as (data & entry & Hr & Hrest').
        exists data, entry. rewrite <- Hdb1. split; assumption.
      * exists w3. split; [exact H1|]. split; congruence.
    + exists w2. cbn [for_each]. unfold mbind, M_bind. rewrite Hrun.
      split; [exact Hrest|]. split; [congruence|].
      cbn [map concat]. rewrite length_app, Hcount2, Hcount1, Hdb1. lia.
Qed.

End ParsedEntries.

Lemma onStartup_returns_on_sound_store_witness :
  exists w',
    onStartup sample_palette [0] (world_of store_with_both_records)
    = (Return (), w')
    /\ Entity.world_db w' = Entity.world_db (world_of store_with_both_records)
    /\ Entity.static_runtimeId w'
       = Entity.static_runtimeId (world_of store_with_both_records)
         + Z.of_nat (length (concat (map (fun index =>
                       readAvailableEntities index
                         (Entity.world_db (world_of store_with_both_records)))
                     [0]))).
Proof.
  apply (onStartup_returns_on_sound_store sample_palette [0]
           (world_of store_with_both_records)).
  intros index uniqueId Hindex Hlisted.
  apply list_elem_of_singleton in Hindex. subst index.
  assert (readAvailableEntities 0
            (Entity.world_db (world_of store_with_both_records)) = [1; 2])
    as Hids by (vm_compute; reflexivity).
  rewrite Hids in Hlisted.
  apply elem_of_cons in Hlisted as [-> | Hlisted];
    [|apply list_elem_of_singleton in Hlisted; subst uniqueId].
  - exists (EntityEntry_value (bare_entry 1 "minecraft:cow")),
           (bare_entry 1 "minecraft:cow").
    split; [vm_compute; reflexivity|].
    split; [vm_compute; reflexivity|].
    split; [exists cow; vm_compute; reflexivity|].
    right. split; [discriminate|reflexivity].
  - exists (EntityEntry_value (bare_entry 2 "minecraft:cow")),
           (bare_entry 2 "minecraft:cow").
    split; [vm_compute; reflexivity|].
    split; [vm_compute; reflexivity|].
    split; [exists cow; vm_compute; reflexivity|].
    right. split; [discriminate|reflexivity].
Defined.

(** ** Saving an entity *)

Lemma load_without_traits_fields (palette : Entity.Palette)
    (entry : EntityEntry) (self : Entity.Self) :
  entry_uniqueId entry = Entity.uniqueId (Entity.this self) ->
  entry_identifier entry = type_identifier (Entity.type (Entity.this self)) ->
  entry_traits entry = [] ->
  exists e',
    Entity.load palette entry true self
    = (Return (), {| Entity.this := e'; Entity.logger := Entity.logger self |})
    /\ Entity.runtimeId e' = Entity.runtimeId (Entity.this self)
    /\ Entity.uniqueId e' = Entity.uniqueId (Entity.this self)
    /\ Entity.type e' = Entity.type (Entity.this self)
    /\ Entity.dimension e' = Entity.dimension (Entity.this self)
    /\ Entity.isAlive e' = Entity.isAlive (Entity.this self)
    /\ Entity.position e' = entry_position entry
    /\ Entity.rotation e' = entry_rotation entry
    /\ Entity.traits e' = []
    /\ (forall k, Map_get k (Entity.components e')
                  = Map_get k (entry_components entry))
    /\ (forall k, Map_get k (Entity.metadata e')
          = match Map_get k (Entity.metadata (Entity.this self)) with
            | Some v => Some v
            | None => Map_get k (entry_metadata entry)
            end)
    /\ (forall k, Map_get k (Entity.flags e')
          = match Map_get k (Entity.flags (Entity.this self)) with
            | Some v => Some v
            | None => Map_get k (entry_flags entry)
            end)
    /\ (forall k, Map_get k (Entity.attributes e')
          = match Map_get k (Entity.attributes (Entity.this self)) with
            | Some v => Some v
            | None => Map_get k (entry_attributes entry)
            end).
Proof.
  intros Hid Hident Htraits.
  unfold Entity.load, mbind, M_bind, gets. cbn beta iota.
  destruct (decide (entry_uniqueId entry <> Entity.uniqueId (Entity.this self)))
    as [Hne | _]; [contradiction|].
  rewrite Hident, String.eqb_refl. cbn [negb]. rewrite Htraits.
  unfold Entity.on_this, modify, mret, M_ret. cbn [for_each].
  unfold mret, M_ret. cbn beta iota. cbn [Entity.this Entity.logger].
  eexists; split; [reflexivity|].
  cbn [Entity.position Entity.rotation Entity.traits Entity.components
       Entity.metadata Entity.flags Entity.attributes Entity.runtimeId
       Entity.uniqueId Entity.type Entity.dimension Entity.isAlive
       Entity.set_position Entity.set_rotation Entity.set_traits
       Entity.set_components Entity.set_metadata Entity.set_flags
       Entity.set_attributes].
  repeat split; try reflexivity; intros k; rewrite Map_get_add_missing;
    reflexivity.
Qed.

(** X23.  What [save] writes, the startup builds again.  For an entity
    without traits, of a type of the palette that is not the player's and
    has no traits registered, with a unique id that is not zero and is
    listed for its dimension, on an open store and with no tagged string:
    [save] returns; [readEntity] then reads the entry of the entity; and
    [new Entity] with that id and entry, as [onStartup] calls it, returns
    an entity of the same unique id, type, dimension, position and
    rotation, whose components, metadata, flags and attributes give for
    every key what those of the saved entity give.  The entity built is not
    alive, and its runtime id is a new one. *)
Theorem save_then_rebuild (palette : Entity.Palette) (e : Entity.t)
    (w : Entity.World) :
  closed (Entity.world_db w) = false ->
  includes (Entity.uniqueId e)
    (readAvailableEntities (Entity.dimension e) (Entity.world_db w)) = true ->
  JSON.plain_strings (EntityEntry_value (EntityLife.save_entry e)) = true ->
  Entity.traits e = [] ->
  Entity.uniqueId e <> 0 ->
  Entity.EntityType_get palette (type_identifier (Entity.type e))
  = Some (Entity.type e) ->
  type_identifier (Entity.type e) <> "minecraft:player" ->
  Entity.getRegistryFor palette (type_identifier (Entity.type e)) = [] ->
  exists w1 w2 e',
    EntityLife.save e w = (Return (), w1)
    /\ readEntity (Entity.uniqueId e) (Entity.dimension e) (Entity.world_db w1)
       = Return (EntityEntry_value (EntityLife.save_entry e))
    /\ Entity.new palette (Entity.dimension e)
         (entry_identifier (EntityLife.save_entry e))
         {| Entity.properties_uniqueId := Some (Entity.uniqueId e);
            Entity.properties_entry := Some (EntityLife.save_entry e) |} w1
       = (Return e', w2)
    /\ Entity.uniqueId e' = Entity.uniqueId e
    /\ Entity.type e' = Entity.type e
    /\ Entity.dimension e' = Entity.dimension e
    /\ Entity.position e' = Entity.position e
    /\ Entity.rotation e' = Entity.rotation e
    /\ Entity.traits e' = []
    /\ (forall k, Map_get k (Entity.components e')
                  = Map_get k (Entity.components e))
    /\ (forall k, Map_get k (Entity.metadata e')
                  = Map_get k (Entity.metadata e))
    /\ (forall k, Map_get k (Entity.flags e') = Map_get k (Entity.flags e))
    /\ (forall k, Map_get k (Entity.attributes e')
                  = Map_get k (Entity.attributes e))
    /\ Entity.isAlive e' = false
    /\ Entity.runtimeId e' = Entity.static_runtimeId w + 1.
Proof.
  intros Hopen Hlisted Hplain Htraits Hnz Htype Hplayer Hregistry.
  destruct (writeEntity_leaves_list (EntityLife.save_entry e)
              (Entity.dimension e) (Entity.world_db w) Hopen)
    as (d' & doc & Hwrite & _).
  pose proof (readEntity_after_writeEntity (EntityLife.save_entry e)
                (Entity.dimension e) (Entity.world_db w) d'
                Hlisted Hplain Hwrite) as Hread.
  cbn [EntityLife.save_entry entry_uniqueId] in Hread.
  unfold EntityLife.save. rewrite Hwrite.
  eexists _.
  cbn [Entity.world_db EntityLife.save_entry entry_identifier].
  unfold Entity.new, mbind, M_bind, Entity.next_runtimeId, gets.
  cbn beta iota. rewrite Htype. cbn beta iota.
  cbn [Entity.properties_uniqueId Entity.properties_entry Entity.clock
       Entity.static_runtimeId Entity.world_logger].
  destruct (decide (Entity.uniqueId e = 0)) as [Hz | _]; [contradiction|].
  unfold Entity.isPlayer. cbn [Entity.type].
  destruct (String.eqb_spec (type_identifier (Entity.type e)) "minecraft:player")
    as [Hp | _]; [contradiction|].
  unfold Entity.method. cbn [Entity.world_logger].
  rewrite Hregistry.
  match goal with |- context [Entity.load palette ?entry true ?self] =>
    destruct (load_without_traits_fields palette entry self)
      as (e1 & Hload & Hrid & Huid & Hty & Hdim & Halive & Hpos & Hrot
          & Htr & Hcomp & Hmeta & Hflags & Hattr);
      [reflexivity|reflexivity|exact Htraits|];
    rewrite Hload end.
  cbn [for_each mret M_ret Entity.this Entity.logger].
  eexists _, e1. split; [reflexivity|]. split; [exact Hread|].
  split; [reflexivity|].
  cbn [Entity.this Entity.runtimeId Entity.uniqueId Entity.type Entity.dimension
       Entity.isAlive Entity.metadata Entity.flags Entity.attributes
       entry_position entry_rotation entry_components entry_metadata
       entry_flags entry_attributes Map_get] in *.
  repeat split; assumption.
Qed.

Lemma save_then_rebuild_witness :
  exists w1 w2 e',
    EntityLife.save listed_entity (world_of store_listing_1_2) = (Return (), w1)
    /\ readEntity (Entity.uniqueId listed_entity)
         (Entity.dimension listed_entity) (Entity.world_db w1)
       = Return (EntityEntry_value (EntityLife.save_entry listed_entity))
    /\ Entity.new sample_palette (Entity.dimension listed_entity)
         (entry_identifier (EntityLife.save_entry listed_entity))
         {| Entity.properties_uniqueId := Some (Entity.uniqueId listed_entity);
            Entity.properties_entry :=
              Some (EntityLife.save_entry listed_entity) |} w1
       = (Return e', w2)
    /\ Entity.uniqueId e' = Entity.uniqueId listed_entity
    /\ Entity.type e' = Entity.type listed_entity
    /\ Entity.dimension e' = Entity.dimension listed_entity
    /\ Entity.position e' = Entity.position listed_entity
    /\ Entity.rotation e' = Entity.rotation listed_entity
    /\ Entity.traits e' = []
    /\ (forall k, Map_get k (Entity.components e')
                  = Map_get k (Entity.components listed_entity))
    /\ (forall k, Map_get k (Entity.metadata e')
                  = Map_get k (Entity.metadata listed_entity))
    /\ (forall k, Map_get k (Entity.flags e')
                  = Map_get k (Entity.flags listed_entity))
    /\ (forall k, Map_get k (Entity.attributes e')
                  = Map_get k (Entity.attributes listed_entity))
    /\ Entity.isAlive e' = false
    /\ Entity.runtimeId e'
       = Entity.static_runtimeId (world_of store_listing_1_2) + 1.
Proof.
  apply (save_then_rebuild sample_palette listed_entity
           (world_of store_listing_1_2));
    first [reflexivity | discriminate].
Defined.

(** ** The kinds of keys *)

Lemma buildSubChunkKey_length (cx cy cz index : Z) :
  length (buildSubChunkKey cx cy cz index)
  = if decide (index = 0) then 10%nat else 14%nat.
Proof.
  rewrite buildSubChunkKey_layout.
  unfold subchunk_key_layout, dim_index_field, int32_le.
  destruct (decide (index = 0)); reflexivity.
Qed.

Lemma buildChunkVersionKey_length (cx cz index : Z) :
  length (buildChunkVersionKey cx cz index)
  = if decide (index = 0) then 9%nat else 13%nat.
Proof.
  rewrite buildChunkVersionKey_layout.
  unfold chunk_version_key_layout, dim_index_field, int32_le.
  destruct (decide (index = 0)); reflexivity.
Qed.

Lemma buildPlayerKey_shape (uuid dimension_identifier : string) :
  exists b rest,
    buildPlayerKey uuid dimension_identifier
    = [112; 108; 97; 121; 101; 114; 95; 115; 101; 114; 118; 101; 114; 95]
      ++ b :: rest.
Proof.
  unfold buildPlayerKey, ascii_bytes.
  destruct uuid as [|c uuid]; eexists _, _; cbn; reflexivity.
Qed.

Lemma buildActorDataKey_head (uniqueId : Z) :
  head (buildActorDataKey uniqueId) = Some 97.
Proof. unfold buildActorDataKey. stream_steps. reflexivity. Qed.

Lemma chunk_key_not_actor_key (cx cz index : Z) (key : list Z) :
  key = buildChunkVersionKey cx cz index
  \/ (exists cy, key = buildSubChunkKey cx cy cz index) ->
  (forall index', key <> buildActorListKey index')
  /\ (forall uniqueId, key <> buildActorDataKey uniqueId)
  /\ (forall uuid dimension_identifier,
        key <> buildPlayerKey uuid dimension_identifier).
Proof.
  intros Hkey.
  assert (length key = 9 \/ length key = 10 \/ length key = 13
          \/ length key = 14)%nat as Hlen.
  { destruct Hkey as [-> | [cy ->]].
    - rewrite buildChunkVersionKey_length. destruct (decide _); auto.
    - rewrite buildSubChunkKey_length. destruct (decide _); auto. }
  split; [|split].
  - intros index' ->. rewrite buildActorListKey_length in Hlen.
    destruct (decide _); lia.
  - intros uniqueId ->. rewrite buildActorDataKey_length in Hlen. lia.
  - intros uuid dimension_identifier ->.
    destruct (buildPlayerKey_shape uuid dimension_identifier)
      as (b & rest & Hshape).
    rewrite Hshape, length_app in Hlen. cbn [length] in Hlen. lia.
Qed.

Lemma player_key_not_actor_key (uuid dimension_identifier : string) :
  (forall index, buildPlayerKey uuid dimension_identifier <> buildActorListKey index)
  /\ (forall uniqueId,
        buildPlayerKey uuid dimension_identifier <> buildActorDataKey uniqueId).
Proof.
  destruct (buildPlayerKey_shape uuid dimension_identifier)
    as (b & rest & Hshape).
  split.
  - intros index Heq. apply (f_equal length) in Heq.
    rewrite buildActorListKey_length, Hshape, length_app in Heq.
    cbn [length] in Heq. destruct (decide _); lia.
  - intros uniqueId Heq. apply (f_equal head) in Heq.
    rewrite buildActorDataKey_head, Hshape in Heq. discriminate.
Qed.

(** X24.  Keys of different kinds never collide, whatever their arguments:
    a subchunk key or a version key of a chunk is never the list key of a
    dimension, the record key of an entity or the key of a player, and the
    key of a player is never the list key of a dimension or the record key
    of an entity. *)
Theorem key_kinds_disjoint (cx cy cz index index' uniqueId : Z)
    (uuid dimension_identifier : string) :
  buildSubChunkKey cx cy cz index <> buildActorListKey index'
  /\ buildSubChunkKey cx cy cz index <> buildActorDataKey uniqueId
  /\ buildSubChunkKey cx cy cz index <> buildPlayerKey uuid dimension_identifier
  /\ buildChunkVersionKey cx cz index <> buildActorListKey index'
  /\ buildChunkVersionKey cx cz index <> buildActorDataKey uniqueId
  /\ buildChunkVersionKey cx cz index <> buildPlayerKey uuid dimension_identifier
  /\ buildPlayerKey uuid dimension_identifier <> buildActorListKey index'
  /\ buildPlayerKey uuid dimension_identifier <> buildActorDataKey uniqueId.
Proof.
  destruct (chunk_key_not_actor_key cx cz index
              (buildSubChunkKey cx cy cz index)) as (H1 & H2 & H3);
    [right; now exists cy|].
  destruct (chunk_key_not_actor_key cx cz index
              (buildChunkVersionKey cx cz index)) as (H4 & H5 & H6);
    [now left|].
  destruct (player_key_not_actor_key uuid dimension_identifier) as [H7 H8].
  repeat split; auto.
Qed.

(** ** Chunks and entities in one store *)

Lemma Leveldb_get_ext (key : list Z) (d d' : Leveldb) :
  closed d' = closed d ->
  entries_of d' !! key = entries_of d !! key ->
  Leveldb_get key d' = Leveldb_get key d.
Proof. intros Hc Hk. unfold Leveldb_get. now rewrite Hc, Hk. Qed.

Lemma readAvailableEntities_ext (index : Z) (d d' : Leveldb) :
  closed d' = closed d ->
  entries_of d' !! buildActorListKey index
  = entries_of d !! buildActorListKey index ->
  readAvailableEntities index d' = readAvailableEntities index d.
Proof.
  intros Hc Hk. unfold readAvailableEntities.
  now rewrite (Leveldb_get_ext _ d d' Hc Hk).
Qed.

Lemma readEntity_ext (uniqueId index : Z) (d d' : Leveldb) :
  closed d' = closed d ->
  entries_of d' !! buildActorListKey index
  = entries_of d !! buildActorListKey index ->
  entries_of d' !! buildActorDataKey uniqueId
  = entries_of d !! buildActorDataKey uniqueId ->
  readEntity uniqueId index d' = readEntity uniqueId index d.
Proof.
  intros Hc Hl Hk. unfold readEntity.
  rewrite (readAvailableEntities_ext index d d' Hc Hl).
  now rewrite (Leveldb_get_ext _ d d' Hc Hk).
Qed.

Lemma readPlayer_ext (uuid dimension_identifier : string) (d d' : Leveldb) :
  closed d' = closed d ->
  entries_of d' !! buildPlayerKey uuid dimension_identifier
  = entries_of d !! buildPlayerKey uuid dimension_identifier ->
  readPlayer uuid dimension_identifier d' = readPlayer uuid dimension_identifier d.
Proof.
  intros Hc Hk. unfold readPlayer.
  now rewrite (Leveldb_get_ext _ d d' Hc Hk).
Qed.

Lemma Leveldb_put_spec (key : list Z) (b : Buffer) (d d' : Leveldb) :
  Leveldb_put key b d = Return d' ->
  closed d = false /\ closed d' = false
  /\ entries_of d' = <[key := b]> (entries_of d).
Proof.
  unfold Leveldb_put. destruct (closed d); [discriminate|].
  intros [= <-]. repeat split.
Qed.

Section StoreIsolation.

Context {B : Type} `{BlockStorage B}.

Implicit Types (c : Chunk (B := B)) (d : Leveldb)
  (dimension : Dimension (B := B)).

Lemma writeChunk_closed_flag dimension c d :
  closed (snd (snd (writeChunk dimension (c, d)))) = closed d.
Proof.
  destruct (Chunk_isEmpty c || negb (dirty c)) eqn:Hnoop.
  { now rewrite (writeChunk_noop dimension c d Hnoop). }
  destruct (closed d) eqn:Hopen.
  { destruct (writeChunk_closed dimension c d Hnoop Hopen) as [message ->].
    exact Hopen. }
  apply orb_false_iff in Hnoop as [Hne Hdirty]. apply negb_false_iff in Hdirty.
  destruct (writeChunk_slots_open dimension subchunk_range
              (c, {| entries_of :=
                       <[buildChunkVersionKey (chunk_x c) (chunk_z c)
                           (dim_index dimension) := Bytes [40]]> (entries_of d);
                     closed := false |})) as [_ Hclosed]; [reflexivity|].
  destruct (fold_left (write_slot dimension) subchunk_range _)
    as [c' d'] eqn:Hfold.
  rewrite (writeChunk_dirty dimension c d c' d' Hopen Hne Hdirty Hfold).
  exact Hclosed.
Qed.

Lemma writeChunk_keeps_key dimension c d (key : list Z) :
  (forall cx cz index, key <> buildChunkVersionKey cx cz index) ->
  (forall cx cy cz index, key <> buildSubChunkKey cx cy cz index) ->
  entries_of (snd (snd (writeChunk dimension (c, d)))) !! key
  = entries_of d !! key.
Proof.
  intros Hversion Hsub.
  destruct (Chunk_isEmpty c || negb (dirty c)) eqn:Hnoop.
  { now rewrite (writeChunk_noop dimension c d Hnoop). }
  destruct (closed d) eqn:Hopen.
  { now destruct (writeChunk_closed dimension c d Hnoop Hopen) as [message ->]. }
  apply orb_false_iff in Hnoop as [Hne Hdirty]. apply negb_false_iff in Hdirty.
  destruct (write_slots_spec dimension subchunk_range c
              {| entries_of :=
                   <[buildChunkVersionKey (chunk_x c) (chunk_z c)
                       (dim_index dimension) := Bytes [40]]> (entries_of d);
                 closed := false |} subchunk_range_NoDup)
    as (c' & d' & Hfold & _ & _ & _ & _ & Hkey & _).
  { intros cy. apply subchunk_range_spec. }
  cbn [entries_of] in Hkey.
  rewrite (writeChunk_dirty dimension c d c' d' Hopen Hne Hdirty Hfold).
  cbn [snd]. rewrite Hkey.
  - apply lookup_insert_ne. intros Heq. now apply (Hversion _ _ _ (eq_sym Heq)).
  - intros cy _. apply Hsub.
Qed.

(** X25.  [writeChunk] leaves the entities and the players of the store
    alone.  Whether it returns or throws, the list of ids of every
    dimension, what [readEntity] gives for every id and what [readPlayer]
    gives for every player are what they were before the call. *)
Theorem writeChunk_leaves_entities dimension c d :
  let d' := snd (snd (writeChunk dimension (c, d))) in
  (forall index, readAvailableEntities index d' = readAvailableEntities index d)
  /\ (forall uniqueId index,
        readEntity uniqueId index d' = readEntity uniqueId index d)
  /\ (forall uuid dimension_identifier,
        readPlayer uuid dimension_identifier d'
        = readPlayer uuid dimension_identifier d).
Proof.
  cbn zeta.
  pose proof (writeChunk_closed_flag dimension c d) as Hclosed.
  assert (forall index,
            entries_of (snd (snd (writeChunk dimension (c, d))))
              !! buildActorListKey index
            = entries_of d !! buildActorListKey index) as Hlist.
  { intros index. apply writeChunk_keeps_key.
    - intros cx cz i Heq.
      destruct (chunk_key_not_actor_key cx cz i (buildActorListKey index))
        as (Hl & _); [now left|]. now apply (Hl index).
    - intros cx cy cz i Heq.
      destruct (chunk_key_not_actor_key cx cz i (buildActorListKey index))
        as (Hl & _); [right; now exists cy|]. now apply (Hl index). }
  assert (forall uniqueId,
            entries_of (snd (snd (writeChunk dimension (c, d))))
              !! buildActorDataKey uniqueId
            = entries_of d !! buildActorDataKey uniqueId) as Hdata.
  { intros uniqueId. apply writeChunk_keeps_key.
    - intros cx cz i Heq.
      destruct (chunk_key_not_actor_key cx cz i (buildActorDataKey uniqueId))
        as (_ & Hd & _); [now left|]. now apply (Hd uniqueId).
    - intros cx cy cz i Heq.
      destruct (chunk_key_not_actor_key cx cz i (buildActorDataKey uniqueId))
        as (_ & Hd & _); [right; now exists cy|]. now apply (Hd uniqueId). }
  split; [|split].
  - intros index. now apply readAvailableEntities_ext.
  - intros uniqueId index. now apply readEntity_ext.
  - intros uuid dimension_identifier. apply readPlayer_ext; [exact Hclosed|].
    apply writeChunk_keeps_key.
    + intros cx cz i Heq.
      destruct (chunk_key_not_actor_key cx cz i
                  (buildPlayerKey uuid dimension_identifier))
        as (_ & _ & Hp); [now left|]. now apply (Hp uuid dimension_identifier).
    + intros cx cy cz i Heq.
      destruct (chunk_key_not_actor_key cx cz i
                  (buildPlayerKey uuid dimension_identifier))
        as (_ & _ & Hp); [right; now exists cy|].
      now apply (Hp uuid dimension_identifier).
Qed.

(** X26.  The writes of entities and players leave the chunks of the store
    alone.  After [writeEntity], [writeAvailableEntities] or [writePlayer]
    has returned, [hasChunk] and [readSubChunk] give for every coordinate
    and every dimension what they gave before. *)
Theorem entity_writes_leave_chunks (entity : EntityEntry) (index : Z)
    (ids : list Z) (player : PlayerEntry) (dimension_identifier : string)
    d d' :
  writeEntity entity index d = Return d'
  \/ writeAvailableEntities index ids d = Return d'
  \/ writePlayer player dimension_identifier d = Return d' ->
  forall cx cz dimension,
    hasChunk cx cz dimension d' = hasChunk cx cz dimension d
    /\ forall cy, readSubChunk cx cy cz dimension d'
                  = readSubChunk cx cy cz dimension d.
Proof.
  intros Hwrite.
  assert (exists key b,
            Leveldb_put key b d = Return d'
            /\ (forall cx cz i, buildChunkVersionKey cx cz i <> key)
            /\ (forall cx cy cz i, buildSubChunkKey cx cy cz i <> key))
    as (key & b & Hput & Hversion & Hsub).
  { destruct Hwrite as [Hw | [Hw | Hw]].
    - unfold writeEntity in Hw.
      destruct (JSON.stringify (EntityEntry_value entity)) as [doc|];
        [|discriminate].
      cbn [mbind result_bind] in Hw. eexists _, _. split; [exact Hw|].
      split.
      + intros cx cz i.
        destruct (chunk_key_not_actor_key cx cz i (buildChunkVersionKey cx cz i))
          as (_ & Hd & _); [now left|]. apply Hd.
      + intros cx cy cz i.
        destruct (chunk_key_not_actor_key cx cz i (buildSubChunkKey cx cy cz i))
          as (_ & Hd & _); [right; now exists cy|]. apply Hd.
    - unfold writeAvailableEntities in Hw. eexists _, _. split; [exact Hw|].
      split.
      + intros cx cz i.
        destruct (chunk_key_not_actor_key cx cz i (buildChunkVersionKey cx cz i))
          as (Hl & _); [now left|]. apply Hl.
      + intros cx cy cz i.
        destruct (chunk_key_not_actor_key cx cz i (buildSubChunkKey cx cy cz i))
          as (Hl & _); [right; now exists cy|]. apply Hl.
    - unfold writePlayer in Hw.
      destruct (JSON.stringify (PlayerEntry_value player)) as [doc|];
        [|discriminate].
      cbn [mbind result_bind] in Hw. eexists _, _. split; [exact Hw|].
      split.
      + intros cx cz i.
        destruct (chunk_key_not_actor_key cx cz i (buildChunkVersionKey cx cz i))
          as (_ & _ & Hp); [now left|]. apply Hp.
      + intros cx cy cz i.
        destruct (chunk_key_not_actor_key cx cz i (buildSubChunkKey cx cy cz i))
          as (_ & _ & Hp); [right; now exists cy|]. apply Hp. }
  apply Leveldb_put_spec in Hput as (Hopen & Hopen' & Hentries).
  intros cx cz dimension. split.
  - unfold hasChunk. rewrite (Leveldb_get_ext _ d d'); [reflexivity|congruence|].
    rewrite Hentries. apply lookup_insert_ne. intros Heq.
    now apply (Hversion cx cz (dim_index dimension)).
  - intros cy. unfold readSubChunk.
    rewrite (Leveldb_get_ext _ d d'); [reflexivity|congruence|].
    rewrite Hentries. apply lookup_insert_ne. intros Heq.
    now apply (Hsub cx cy cz (dim_index dimension)).
Qed.

(** X27.  On a closed store [writeChunk] writes nothing and changes
    nothing: a chunk that is dirty and not empty makes it throw the error
    of the store, and the chunk is as dirty as it was, so that a later save
    writes it; a chunk that is empty or clean makes it return, as on an
    open store. *)
Theorem writeChunk_on_closed_store dimension c d :
  closed d = true ->
  snd (writeChunk dimension (c, d)) = (c, d)
  /\ returns (fst (writeChunk dimension (c, d)))
     = Chunk_isEmpty c || negb (dirty c).
Proof.
  intros Hclosed.
  destruct (Chunk_isEmpty c || negb (dirty c)) eqn:Hnoop.
  - rewrite (writeChunk_noop dimension c d Hnoop). split; reflexivity.
  - destruct (writeChunk_closed dimension c d Hnoop Hclosed) as [message ->].
    split; reflexivity.
Qed.

End StoreIsolation.

Lemma entity_writes_leave_chunks_witness :
  hasChunk 0 0 overworld
    {| entries_of :=
         <[buildActorListKey 0 := Bytes (BinaryStream.bytes_of Little 8 7)]>
           (entries_of (db provider_with_stored_chunk));
       closed := false |}
  = hasChunk 0 0 overworld (db provider_with_stored_chunk)
  /\ forall cy,
       readSubChunk 0 cy 0 overworld
         {| entries_of :=
              <[buildActorListKey 0 := Bytes (BinaryStream.bytes_of Little 8 7)]>
                (entries_of (db provider_with_stored_chunk));
            closed := false |}
       = readSubChunk 0 cy 0 overworld (db provider_with_stored_chunk).
Proof.
  apply (entity_writes_leave_chunks (bare_entry 7 "minecraft:cow") 0 [7]
           example_player "overworld" (db provider_with_stored_chunk)).
  right. left. reflexivity.
Defined.

Lemma writeChunk_on_closed_store_witness :
  snd (writeChunk overworld (built_chunk, Leveldb_close empty_db))
  = (built_chunk, Leveldb_close empty_db)
  /\ returns (fst (writeChunk overworld (built_chunk, Leveldb_close empty_db)))
     = Chunk_isEmpty built_chunk || negb (dirty built_chunk).
Proof.
  apply (writeChunk_on_closed_store overworld built_chunk
           (Leveldb_close empty_db)).
  reflexivity.
Defined.

(** ** Records and lists together *)

Lemma buildActorDataKey_inj (uniqueId uniqueId' : Z) :
  - 2 ^ 63 <= uniqueId < 2 ^ 63 -> - 2 ^ 63 <= uniqueId' < 2 ^ 63 ->
  buildActorDataKey uniqueId = buildActorDataKey uniqueId' ->
  uniqueId = uniqueId'.
Proof.
  intros Hu Hu'. unfold buildActorDataKey. stream_steps. intros Heq.
  apply app_inv_head in Heq.
  rewrite <- (int64_bytes_inv uniqueId), <- (int64_bytes_inv uniqueId')
    by assumption.
  now rewrite Heq.
Qed.

(** X28.  [writeEntity] changes the record of one entity.  For unique ids
    of 64 bits, after [writeEntity] has returned, [readEntity] of any other
    id, in any dimension, gives what it gave before, and so does
    [readPlayer] for every player. *)
Theorem writeEntity_leaves_other_records (entity : EntityEntry)
    (index uniqueId index' : Z) (d d' : Leveldb) :
  - 2 ^ 63 <= entry_uniqueId entity < 2 ^ 63 ->
  - 2 ^ 63 <= uniqueId < 2 ^ 63 ->
  uniqueId <> entry_uniqueId entity ->
  writeEntity entity index d = Return d' ->
  readEntity uniqueId index' d' = readEntity uniqueId index' d
  /\ forall uuid dimension_identifier,
       readPlayer uuid dimension_identifier d'
       = readPlayer uuid dimension_identifier d.
Proof.
  intros Hrange Hrange' Hother Hwrite.
  unfold writeEntity in Hwrite.
  destruct (JSON.stringify (EntityEntry_value entity)) as [doc|];
    [|discriminate].
  cbn [mbind result_bind] in Hwrite.
  apply Leveldb_put_spec in Hwrite as (Hopen & Hopen' & Hentries).
  split.
  - apply readEntity_ext; [congruence| |]; rewrite Hentries;
      apply lookup_insert_ne.
    + apply actor_keys_differ.
    + intros Heq. apply Hother. symmetry.
      now apply buildActorDataKey_inj.
  - intros uuid dimension_identifier.
    apply readPlayer_ext; [congruence|]. rewrite Hentries.
    apply lookup_insert_ne. intros Heq.
    destruct (player_key_not_actor_key uuid dimension_identifier) as [_ Hp].
    now apply (Hp (entry_uniqueId entity)).
Qed.

Lemma writeEntity_leaves_other_records_witness :
  readEntity 2 0
    {| entries_of :=
         <[buildActorDataKey 1 := stored (bare_entry 1 "minecraft:cow")]>
           (entries_of store_without_record_1);
       closed := false |}
  = readEntity 2 0 store_without_record_1
  /\ forall uuid dimension_identifier,
       readPlayer uuid dimension_identifier
         {| entries_of :=
              <[buildActorDataKey 1 := stored (bare_entry 1 "minecraft:cow")]>
                (entries_of store_without_record_1);
            closed := false |}
       = readPlayer uuid dimension_identifier store_without_record_1.
Proof.
  apply (writeEntity_leaves_other_records (bare_entry 1 "minecraft:cow") 0 2 0
           store_without_record_1).
  - cbn. lia.
  - lia.
  - discriminate.
  - reflexivity.
Defined.

(** X29.  The order of [onSave]: the records first, the list of ids after
    them.  On an open store, [writeEntity] of an entry and then
    [writeAvailableEntities] of a list of ids that holds the id of the
    entry both return; the list read afterwards is the list written, and
    [readEntity] reads the entry, when none of its strings is tagged and
    the ids are of 64 bits. *)
Theorem record_then_list (entity : EntityEntry) (index : Z) (ids : list Z)
    (d : Leveldb) :
  closed d = false ->
  Forall (fun v => - 2 ^ 63 <= v < 2 ^ 63) ids ->
  includes (entry_uniqueId entity) ids = true ->
  JSON.plain_strings (EntityEntry_value entity) = true ->
  exists d1 d2,
    writeEntity entity index d = Return d1
    /\ writeAvailableEntities index ids d1 = Return d2
    /\ readAvailableEntities index d2 = ids
    /\ readEntity (entry_uniqueId entity) index d2
       = Return (EntityEntry_value entity).
Proof.
  intros Hopen Hrange Hlisted Hplain.
  destruct (stringify_parse _ Hplain) as (doc & Hdoc & Hparse).
  assert (writeEntity entity index d
          = Return {| entries_of :=
                        <[buildActorDataKey (entry_uniqueId entity) := Text doc]>
                          (entries_of d);
                      closed := false |}) as Hwrite.
  { unfold writeEntity. rewrite Hdoc. cbn [mbind result_bind].
    unfold Leveldb_put. now rewrite Hopen. }
  set (d1 := {| entries_of :=
                  <[buildActorDataKey (entry_uniqueId entity) := Text doc]>
                    (entries_of d);
                closed := false |}) in *.
  assert (exists d2,
            writeAvailableEntities index ids d1 = Return d2
            /\ closed d2 = false
            /\ entries_of d2 !! buildActorDataKey (entry_uniqueId entity)
               = Some (Text doc)) as (d2 & Hwrite2 & Hopen2 & Hrecord).
  { unfold writeAvailableEntities, Leveldb_put. cbn [closed d1].
    eexists. split; [reflexivity|]. split; [reflexivity|].
    cbn [entries_of d1].
    rewrite lookup_insert_ne by (intros Heq; symmetry in Heq;
                                 now apply actor_keys_differ in Heq).
    apply lookup_insert_eq. }
  exists d1, d2. split; [exact Hwrite|]. split; [exact Hwrite2|].
  pose proof (readAvailableEntities_after_write index ids d1 d2 Hrange Hwrite2)
    as Hlist.
  split; [exact Hlist|].
  unfold readEntity. rewrite Hlist, Hlisted. cbn [negb].
  unfold Leveldb_get. rewrite Hopen2, Hrecord.
  cbn [mbind result_bind document_of]. exact Hparse.
Qed.

Lemma record_then_list_witness :
  exists d1 d2,
    writeEntity example_entry 0 empty_db = Return d1
    /\ writeAvailableEntities 0 [1; 0x100000001] d1 = Return d2
    /\ readAvailableEntities 0 d2 = [1; 0x100000001]
    /\ readEntity (entry_uniqueId example_entry) 0 d2
       = Return (EntityEntry_value example_entry).
Proof.
  apply (record_then_list example_entry 0 [1; 0x100000001] empty_db).
  - reflexivity.
  - repeat constructor; cbn; lia.
  - reflexivity.
  - reflexivity.
Defined.

(** X30.  The entity store once the store is closed.  The list of ids of
    every dimension reads as empty and no player is found, without an
    error; [readEntity] throws its own not-found error, not the error of
    the store; and [writeEntity], [writeAvailableEntities] and
    [writePlayer] throw the error of the store. *)
Theorem entity_store_when_closed (d : Leveldb) :
  closed d = true ->
  (forall index, readAvailableEntities index d = [])
  /\ (forall uniqueId index,
        readEntity uniqueId index d
        = Throw ("Entity with unique id " +:+ BigInt_toString uniqueId
                 +:+ " not found!"))
  /\ (forall uuid dimension_identifier,
        readPlayer uuid dimension_identifier d = None)
  /\ (forall entity index,
        writeEntity entity index d = Throw "Database is closed")
  /\ (forall index ids,
        writeAvailableEntities index ids d = Throw "Database is closed")
  /\ (forall player dimension_identifier,
        writePlayer player dimension_identifier d = Throw "Database is closed").
Proof.
  intros Hclosed.
  assert (forall index, readAvailableEntities index d = []) as Hlist.
  { intros index. apply readAvailableEntities_absent. now right. }
  split; [exact Hlist|]. split; [|split; [|split; [|split]]].
  - intros uniqueId index. unfold readEntity. now rewrite Hlist.
  - intros uuid dimension_identifier. unfold readPlayer, Leveldb_get.
    now rewrite Hclosed.
  - intros entity index. unfold writeEntity.
    destruct (stringify_total (EntityEntry_value entity)) as [doc ->].
    cbn [mbind result_bind]. unfold Leveldb_put. now rewrite Hclosed.
  - intros index ids. unfold writeAvailableEntities, Leveldb_put.
    now rewrite Hclosed.
  - intros player dimension_identifier. unfold writePlayer.
    destruct (stringify_total (PlayerEntry_value player)) as [doc ->].
    cbn [mbind result_bind]. unfold Leveldb_put. now rewrite Hclosed.
Qed.

Lemma entity_store_when_closed_witness :
  (forall index,
     readAvailableEntities index (Leveldb_close store_with_both_records) = [])
  /\ (forall uniqueId index,
        readEntity uniqueId index (Leveldb_close store_with_both_records)
        = Throw ("Entity with unique id " +:+ BigInt_toString uniqueId
                 +:+ " not found!"))
  /\ (forall uuid dimension_identifier,
        readPlayer uuid dimension_identifier
          (Leveldb_close store_with_both_records) = None)
  /\ (forall entity index,
        writeEntity entity index (Leveldb_close store_with_both_records)
        = Throw "Database is closed")
  /\ (forall index ids,
        writeAvailableEntities index ids (Leveldb_close store_with_both_records)
        = Throw "Database is closed")
  /\ (forall player dimension_identifier,
        writePlayer player dimension_identifier
          (Leveldb_close store_with_both_records)
        = Throw "Database is closed").
Proof.
  apply (entity_store_when_closed (Leveldb_close store_with_both_records)).
  reflexivity.
Defined.
